(** * yFinData: reconciliation of a local price store with a market-data provider

    A shallow embedding of the Python sources under [lib/yFinData/src]:
    [get_stock/stock_struct.py], [get_stock/update.py], [utils.py],
    [database/database.py], [constants.py] and [cli/add.py].

    Modelling decisions, all of them visible in the definitions below:
    - Python [str] is [string] (a sequence of bytes); ticker symbols, dates and
      nation codes are ASCII, so [str.upper] acts on the letters a-z only.
    - [datetime] is the record of its fields; the calendar arithmetic is the
      one of the [datetime] module ([_ymd2ord], [_ord2ymd], ...).
    - A SQLite table is the list of its rows in rowid order together with the
      AUTOINCREMENT counter; every SQL statement of the sources is one
      function on tables.  The functions that receive [conn] or a cursor
      run on the tables as the open connection sees them.  [capture_data],
      [update_data] and [update_missing_data] open a connection, run on it
      and close it; none of them calls [conn.commit()], so their statements
      are rolled back when the connection is closed.  Each of the three has
      two definitions: [capture_data_conn], [update_data_conn] and
      [update_missing_data_conn] are what is executed between
      [sqlite3.connect] and [conn.close()], on the connection;
      [capture_data], [update_data] and [update_missing_data] are the whole
      functions, on the database file.
    - The provider (yfinance) is a record of functions; a call may raise.
    - A cell of the frame returned by [Ticker.history] is a NumPy scalar, an
      [int64] or a [float64]; [float(...)] and [int(...)] are applied to it
      as the sources do, and [int(...)] raises on a NaN and on an infinity.
    - A Python exception is the [Raise] outcome of a state-and-error monad: the
      state reached when the exception is raised is kept, as rows already
      written through the connection stay visible on that connection. *)

From Stdlib Require Import ZArith List Bool Ascii String Lia Permutation.
From Stdlib Require Import Structures.OrderedTypeEx.
From Stdlib Require Import Floats.SpecFloat.
Import ListNotations.
Open Scope string_scope.
Open Scope list_scope.
Open Scope Z_scope.

(** ** Calendar arithmetic of the [datetime] module *)

Module Calendar.

Definition MINYEAR : Z := 1.
Definition MAXYEAR : Z := 9999.
Definition _MAXORDINAL : Z := 3652059.

Definition _DAYS_IN_MONTH (month : Z) : Z :=
  match month with
  | 1 => 31 | 2 => 28 | 3 => 31 | 4 => 30 | 5 => 31 | 6 => 30
  | 7 => 31 | 8 => 31 | 9 => 30 | 10 => 31 | 11 => 30 | 12 => 31
  | _ => -1
  end.

Definition _DAYS_BEFORE_MONTH (month : Z) : Z :=
  match month with
  | 1 => 0 | 2 => 31 | 3 => 59 | 4 => 90 | 5 => 120 | 6 => 151
  | 7 => 181 | 8 => 212 | 9 => 243 | 10 => 273 | 11 => 304 | 12 => 334
  | _ => -1
  end.

Definition _is_leap (year : Z) : bool :=
  (year mod 4 =? 0) && (negb (year mod 100 =? 0) || (year mod 400 =? 0)).

Definition _days_before_year (year : Z) : Z :=
  let y := year - 1 in
  y * 365 + y / 4 - y / 100 + y / 400.

Definition _days_in_month (year month : Z) : Z :=
  if (month =? 2) && _is_leap year then 29 else _DAYS_IN_MONTH month.

Definition _days_before_month (year month : Z) : Z :=
  _DAYS_BEFORE_MONTH month + (if (2 <? month) && _is_leap year then 1 else 0).

Definition _ymd2ord (year month day : Z) : Z :=
  _days_before_year year + _days_before_month year month + day.

Definition _DI400Y : Z := 146097.
Definition _DI100Y : Z := 36524.
Definition _DI4Y : Z := 1461.

Definition _ord2ymd (n : Z) : Z * Z * Z :=
  let n := n - 1 in
  let n400 := n / _DI400Y in
  let n := n mod _DI400Y in
  let year := n400 * 400 + 1 in
  let n100 := n / _DI100Y in
  let n := n mod _DI100Y in
  let n4 := n / _DI4Y in
  let n := n mod _DI4Y in
  let n1 := n / 365 in
  let n := n mod 365 in
  let year := year + n100 * 100 + n4 * 4 + n1 in
  if (n1 =? 4) || (n100 =? 4) then (year - 1, 12, 31)
  else
    let leapyear := (n1 =? 3) && (negb (n4 =? 24) || (n100 =? 3)) in
    let month := Z.shiftr (n + 50) 5 in
    let preceding :=
      _DAYS_BEFORE_MONTH month + (if (2 <? month) && leapyear then 1 else 0) in
    if n <? preceding then
      let month := month - 1 in
      let preceding :=
        preceding
        - (_DAYS_IN_MONTH month + (if (month =? 2) && leapyear then 1 else 0)) in
      (year, month, n - preceding + 1)
    else (year, month, n - preceding + 1).

(** The check made by the [date] constructor. *)
Definition valid_ymd (year month day : Z) : bool :=
  (MINYEAR <=? year) && (year <=? MAXYEAR)
  && (1 <=? month) && (month <=? 12)
  && (1 <=? day) && (day <=? _days_in_month year month).

(** The month and day [_ord2ymd] finds for the zero-based day [n] of a year. *)
Definition month_day (leapyear : bool) (n : Z) : Z * Z :=
  let month := Z.shiftr (n + 50) 5 in
  let preceding :=
    _DAYS_BEFORE_MONTH month + (if (2 <? month) && leapyear then 1 else 0) in
  if n <? preceding then
    let month := month - 1 in
    let preceding :=
      preceding
      - (_DAYS_IN_MONTH month + (if (month =? 2) && leapyear then 1 else 0)) in
    (month, n - preceding + 1)
  else (month, n - preceding + 1).

Definition month_day_ok (leapyear : bool) (n : Z) : bool :=
  let '(m, d) := month_day leapyear n in
  (1 <=? m) && (m <=? 12) && (1 <=? d)
  && (d <=? (if (m =? 2) && leapyear then 29 else _DAYS_IN_MONTH m))
  && (_DAYS_BEFORE_MONTH m + (if (2 <? m) && leapyear then 1 else 0) + d =? n + 1).

End Calendar.

Import Calendar.

(** ** [datetime] values, [timedelta(days=...)] arithmetic, [strftime], [strptime] *)

Record datetime : Type := mk_datetime {
  year : Z; month : Z; day : Z;
  hour : Z; minute : Z; second : Z; microsecond : Z
}.

Definition datetime_eqb (a b : datetime) : bool :=
  (year a =? year b) && (month a =? month b) && (day a =? day b)
  && (hour a =? hour b) && (minute a =? minute b) && (second a =? second b)
  && (microsecond a =? microsecond b).

Definition toordinal (d : datetime) : Z := _ymd2ord (year d) (month d) (day d).

Inductive exn : Type :=
| ValueError
| OverflowError
| IndexError
| ProviderError
| SystemExit.

Inductive result (A : Type) : Type :=
| Ok (a : A)
| Raise (e : exn).
Arguments Ok {A} a.
Arguments Raise {A} e.

(** [d + timedelta(days=n)]: the date moves by [n] days, the time of day stays;
    outside [1 .. _MAXORDINAL] the addition raises [OverflowError]. *)
Definition add_days (d : datetime) (n : Z) : result datetime :=
  let o := toordinal d + n in
  if (0 <? o) && (o <=? _MAXORDINAL) then
    let '(y, m, dd) := _ord2ymd o in
    Ok (mk_datetime y m dd (hour d) (minute d) (second d) (microsecond d))
  else Raise OverflowError.

Definition microseconds_of (d : datetime) : Z :=
  ((toordinal d * 86400 + hour d * 3600 + minute d * 60 + second d) * 1000000)
  + microsecond d.

(** [(a - b).days]: the normalised [timedelta] has [0 <= seconds < 86400], so
    its [days] field is the floor of the difference in days. *)
Definition sub_days (a b : datetime) : Z :=
  (microseconds_of a - microseconds_of b) / (86400 * 1000000).

Definition digit (n : Z) : ascii := ascii_of_N (Z.to_N (48 + n)).

Definition digit_val (c : ascii) : option Z :=
  let n := Z.of_N (N_of_ascii c) in
  if (48 <=? n) && (n <=? 57) then Some (n - 48) else None.

(** [d.strftime("%Y-%m-%d")], the year written with four digits. *)
Definition fmt_md (m d : Z) : string :=
  String "-"
  (String (digit (m / 10 mod 10))
  (String (digit (m mod 10))
  (String "-"
  (String (digit (d / 10 mod 10))
  (String (digit (d mod 10)) EmptyString))))).

Definition strftime (d : datetime) : string :=
  String (digit (year d / 1000 mod 10))
  (String (digit (year d / 100 mod 10))
  (String (digit (year d / 10 mod 10))
  (String (digit (year d mod 10))
  (fmt_md (month d) (day d))))).

(** The regular expression [_strptime] builds for ["%Y-%m-%d"]:
    [(?P<Y>\d\d\d\d)-(?P<m>1[0-2]|0[1-9]|[1-9])-(?P<d>3[01]|[12]\d|0[1-9]|[1-9]| [1-9])],
    matched against the whole string.  Each group lists the prefixes it can
    match in the order the alternatives are tried. *)
Definition re_Y (s : string) : list (Z * string) :=
  match s with
  | String a (String b (String c (String d r))) =>
      match digit_val a, digit_val b, digit_val c, digit_val d with
      | Some a, Some b, Some c, Some d => [(a * 1000 + b * 100 + c * 10 + d, r)]
      | _, _, _, _ => []
      end
  | _ => []
  end.

Definition two_digits (s : string) (ok : Z -> Z -> bool) : list (Z * string) :=
  match s with
  | String a (String b r) =>
      match digit_val a, digit_val b with
      | Some a, Some b => if ok a b then [(a * 10 + b, r)] else []
      | _, _ => []
      end
  | _ => []
  end.

Definition one_digit (s : string) : list (Z * string) :=
  match s with
  | String a r =>
      match digit_val a with
      | Some a => if 1 <=? a then [(a, r)] else []
      | None => []
      end
  | _ => []
  end.

Definition re_m (s : string) : list (Z * string) :=
  two_digits s (fun a b => (a =? 1) && (b <=? 2))
  ++ two_digits s (fun a b => (a =? 0) && (1 <=? b))
  ++ one_digit s.

Definition re_d (s : string) : list (Z * string) :=
  two_digits s (fun a b => (a =? 3) && (b <=? 1))
  ++ two_digits s (fun a b => (1 <=? a) && (a <=? 2))
  ++ two_digits s (fun a b => (a =? 0) && (1 <=? b))
  ++ one_digit s
  ++ match s with
     | String " " r => one_digit r
     | _ => []
     end.

Definition re_dash (s : string) : list string :=
  match s with
  | String "-" r => [r]
  | _ => []
  end.

(** All the ways [-(?P<m>...)-(?P<d>...)] matches the whole of [s]. *)
Definition re_md (s : string) : list (Z * Z) :=
  flat_map (fun r2 =>
    flat_map (fun '(m, r3) =>
      flat_map (fun r4 =>
        flat_map (fun '(d, r5) =>
          match r5 with
          | EmptyString => [(m, d)]
          | _ => []
          end) (re_d r4)) (re_dash r3)) (re_m r2)) (re_dash s).

(** All the ways the expression matches the whole of [s], first match first. *)
Definition re_match_Ymd (s : string) : list (Z * Z * Z) :=
  flat_map (fun '(y, r1) => map (fun '(m, d) => (y, m, d)) (re_md r1)) (re_Y s).

(** [datetime.strptime(s, "%Y-%m-%d")]; [None] is the [ValueError] raised when
    the string does not match or names no calendar day. *)
Definition strptime (s : string) : option datetime :=
  match re_match_Ymd s with
  | (y, m, d) :: _ =>
      if valid_ymd y m d then Some (mk_datetime y m d 0 0 0 0) else None
  | [] => None
  end.

(** ** Python values used by the sources *)

(** A Python [float] is an IEEE 754 binary64 value. *)
Definition float : Type := spec_float.
Definition nan : float := S754_nan.

Definition isnan (x : float) : bool :=
  match x with
  | S754_nan => true
  | _ => false
  end.

(** [float(z)] for an [int]: round to nearest even, [OverflowError] when the
    integer is too large for a binary64. *)
Definition float_of_int (z : Z) : result float :=
  match binary_normalize 53 1024 z 0 false with
  | S754_infinity _ => Raise OverflowError
  | f => Ok f
  end.

(** [int(x)] for a [float]: the integer part; a NaN raises [ValueError]
    ("cannot convert float NaN to integer"), an infinity [OverflowError]. *)
Definition int_of_float (x : float) : result Z :=
  match x with
  | S754_nan => Raise ValueError
  | S754_infinity _ => Raise OverflowError
  | S754_zero _ => Ok 0
  | S754_finite s m e =>
      let magnitude := Z.shiftl (Z.pos m) e in
      Ok (if s then - magnitude else magnitude)
  end.

(** A cell of a numeric column of a frame: a NumPy [int64] or [float64]. *)
Inductive cell : Type :=
| CellInt (z : Z)
| CellFloat (x : float).

(** [float(c)] for a cell: an [int64] is rounded to nearest even (it is
    never too large for a binary64), a [float64] is the [float] itself. *)
Definition float_of_cell (c : cell) : float :=
  match c with
  | CellInt z => binary_normalize 53 1024 z 0 false
  | CellFloat x => x
  end.

(** [int(c)] for a cell. *)
Definition int_of_cell (c : cell) : result Z :=
  match c with
  | CellInt z => Ok z
  | CellFloat x => int_of_float x
  end.

(** What the mapping [ticker.info] can hold under a key. *)
Inductive pyvalue : Type :=
| PyNone
| PyBool (b : bool)
| PyInt (z : Z)
| PyFloat (f : float)
| PyStr (s : string)
| PyOther.

(** [isinstance(v, (int, float))]; [bool] is a subclass of [int]. *)
Definition isinstance_int_float (v : pyvalue) : bool :=
  match v with
  | PyBool _ | PyInt _ | PyFloat _ => true
  | _ => false
  end.

(** [float(v)] on the values that pass [isinstance_int_float]. *)
Definition float_of (v : pyvalue) : result float :=
  match v with
  | PyBool b => float_of_int (if b then 1 else 0)
  | PyInt z => float_of_int z
  | PyFloat f => Ok f
  | _ => Raise ValueError
  end.

(** [str.upper] on ASCII text. *)
Definition upper_char (c : ascii) : ascii :=
  let n := N_of_ascii c in
  if (97 <=? n)%N && (n <=? 122)%N then ascii_of_N (n - 32) else c.

Fixpoint upper (s : string) : string :=
  match s with
  | EmptyString => EmptyString
  | String c r => String (upper_char c) (upper r)
  end.

(** A [dict] keeps its items in insertion order; assigning to a key that is
    present replaces the value in place. *)
Section Dict.
Context {K V : Type} (eqb : K -> K -> bool).

Fixpoint dict_set (k : K) (v : V) (d : list (K * V)) : list (K * V) :=
  match d with
  | [] => [(k, v)]
  | (k', v') :: r => if eqb k k' then (k, v) :: r else (k', v') :: dict_set k v r
  end.

Fixpoint dict_get (d : list (K * V)) (k : K) (default : V) : V :=
  match d with
  | [] => default
  | (k', v') :: r => if eqb k k' then v' else dict_get r k default
  end.

Fixpoint dict_lookup (d : list (K * V)) (k : K) : option V :=
  match d with
  | [] => None
  | (k', v') :: r => if eqb k k' then Some v' else dict_lookup r k
  end.
End Dict.

(** ** constants.py *)

Definition TREASURY_SYMBOLS : list (string * string) :=
  [ ("US", "^TNX"); ("USA", "^TNX"); ("United States", "^TNX") ].

(** ** get_stock/stock_struct.py: the data classes *)

Record Price : Type := mk_Price {
  open : float;
  close : float;
  low : float;
  high : float;
  volume : Z;
  pe : float
}.

Record Stock : Type := mk_Stock {
  Stock_name : string;
  Stock_data : list (datetime * Price);
  tags : option (list string)
}.

Record NationDebt : Type := mk_NationDebt {
  NationDebt_data : list (datetime * float)
}.

(** ** The SQLite tables of database.py

    [stocks (id INTEGER PRIMARY KEY AUTOINCREMENT, symbol TEXT NOT NULL,
    date DATE NOT NULL, open REAL, close REAL, high REAL, low REAL,
    volume INTEGER, pe REAL, UNIQUE(symbol, date))] and
    [national_debt (id ..., nation TEXT NOT NULL, date DATE NOT NULL,
    yield REAL, UNIQUE(nation, date))].  A row is its [id], its key column
    ([symbol] or [nation]), its [date] text and the remaining columns. *)

Record stock_cols : Type := mk_stock_cols {
  col_open : float;
  col_close : float;
  col_high : float;
  col_low : float;
  col_volume : Z;
  col_pe : option float
}.

Section Tables.
Context {V : Type}.

Record row : Type := mk_row {
  id : Z;
  key : string;
  date : string;
  cols : V
}.

Record table : Type := mk_table {
  rows : list row;
  autoinc : Z
}.

(** [CREATE TABLE IF NOT EXISTS] on a fresh file. *)
Definition empty_table : table := mk_table [] 0.

Definition matches (k d : string) (r : row) : bool :=
  (key r =? k)%string && (date r =? d)%string.

(** The larger of two texts under the BINARY collation. *)
Definition max_text (a b : string) : string :=
  if String.ltb a b then b else a.

(** The aggregate [MAX]: [None] is the NULL of an empty selection. *)
Definition sql_max (l : list string) : option string :=
  match l with
  | [] => None
  | a :: r => Some (fold_left max_text r a)
  end.

(** [WHERE key = ?] *)
Definition of_key (k : string) (r : row) : bool := (key r =? k)%string.

(** [SELECT date FROM t WHERE key = ?] *)
Definition dates_of (t : table) (k : string) : list string :=
  map date (filter (of_key k) (rows t)).

(** [SELECT MAX(date) FROM t WHERE key = ?] *)
Definition select_max_date (t : table) (k : string) : option string :=
  sql_max (dates_of t k).

Fixpoint insert_sorted (s : string) (l : list string) : list string :=
  match l with
  | [] => [s]
  | a :: r => if String.ltb s a then s :: a :: r else a :: insert_sorted s r
  end.

Definition sort_asc (l : list string) : list string :=
  fold_left (fun acc s => insert_sorted s acc) l [].

(** [SELECT date FROM t WHERE key = ? ORDER BY date ASC] *)
Definition select_dates_asc (t : table) (k : string) : list string :=
  sort_asc (dates_of t k).

(** [DELETE FROM t WHERE key = ? AND date = ?] *)
Definition delete_where (t : table) (k d : string) : table :=
  mk_table (filter (fun r => negb (matches k d r)) (rows t)) (autoinc t).

(** The rowid an AUTOINCREMENT table gives to the next row: one more than
    the largest rowid the table ever held. *)
Definition next_id (t : table) : Z :=
  1 + fold_left Z.max (map id (rows t)) (autoinc t).

(** [INSERT OR REPLACE INTO t (key, date, cols...) VALUES (?, ?, ...)]:
    the rows that collide on [UNIQUE(key, date)] are deleted, then the new
    row is inserted. *)
Definition insert_or_replace (t : table) (k d : string) (v : V) : table :=
  let i := next_id t in
  mk_table (filter (fun r => negb (matches k d r)) (rows t) ++ [mk_row i k d v]) i.

(** The constraint [UNIQUE(key, date)]. *)
Definition unique_key_date (t : table) : Prop :=
  NoDup (map (fun r => (key r, date r)) (rows t)).

(** The rows stored for a pair. *)
Definition select_row (t : table) (k d : string) : list row :=
  filter (matches k d) (rows t).
End Tables.
Arguments row : clear implicits.
Arguments table : clear implicits.

(** The table after the items of a fetched series have been written for the
    key [k], one [INSERT OR REPLACE] each, in order. *)
Definition upsert_all {V A : Type} (f : A -> V) (k : string)
    (items : list (datetime * A)) (t : table V) : table V :=
  fold_left (fun t '(date, a) => insert_or_replace t k (strftime date) (f a)) items t.

(** A row without its rowid. *)
Definition content {V : Type} (r : row V) : string * string * V :=
  (key r, date r, cols r).

(** Two tables that hold the same rows up to rowids and order. *)
Definition same_rows {V : Type} (t t' : table V) : Prop :=
  Permutation (map content (rows t)) (map content (rows t')).

(** ** The configuration file and the state of a run *)

Record entry : Type := mk_entry {
  name : string;
  start_date : string;
  end_date : option string
}.

(** The TOML document: each of the two lists may be absent. *)
Record config : Type := mk_config {
  cfg_stocks : option (list entry);
  cfg_national_debt : option (list entry)
}.

(** One request sent to the provider: symbol, [start], [end]. *)
Definition request : Type := (string * string * string)%type.

Record World : Type := mk_World {
  toml_file : config;
  stocks : table stock_cols;
  national_debt : table float;
  requests : list request
}.

Definition set_toml (c : config) (w : World) : World :=
  mk_World c (stocks w) (national_debt w) (requests w).
Definition set_stocks (t : table stock_cols) (w : World) : World :=
  mk_World (toml_file w) t (national_debt w) (requests w).
Definition set_national_debt (t : table float) (w : World) : World :=
  mk_World (toml_file w) (stocks w) t (requests w).
Definition add_request (r : request) (w : World) : World :=
  mk_World (toml_file w) (stocks w) (national_debt w) (requests w ++ [r]).

(** ** The monad of the sources: state, and exceptions that keep the state *)

Definition M (A : Type) : Type := World -> World * result A.

Definition ret {A : Type} (a : A) : M A := fun w => (w, Ok a).

Definition raise {A : Type} (e : exn) : M A := fun w => (w, Raise e).

Definition bind {A B : Type} (m : M A) (f : A -> M B) : M B :=
  fun w =>
    match m w with
    | (w', Ok a) => f a w'
    | (w', Raise e) => (w', Raise e)
    end.

Notation "x <- m ;; k" := (bind m (fun x => k))
  (at level 61, m at next level, right associativity).
Notation "m ;;; k" := (bind m (fun _ => k))
  (at level 61, right associativity).

Definition get {A : Type} (f : World -> A) : M A := fun w => (w, Ok (f w)).
Definition modify (f : World -> World) : M unit := fun w => (f w, Ok tt).

Definition lift_result {A : Type} (r : result A) : M A := fun w => (w, r).

Definition lift_option {A : Type} (e : exn) (o : option A) : M A :=
  match o with
  | Some a => ret a
  | None => raise e
  end.

(** A [for] loop whose body may raise. *)
Fixpoint for_each {A : Type} (l : list A) (body : A -> M unit) : M unit :=
  match l with
  | [] => ret tt
  | x :: r => body x ;;; for_each r body
  end.

(** A list comprehension whose element expression may raise. *)
Fixpoint map_result {A B : Type} (f : A -> result B) (l : list A) : result (list B) :=
  match l with
  | [] => Ok []
  | x :: r =>
      match f x with
      | Raise e => Raise e
      | Ok y =>
          match map_result f r with
          | Raise e => Raise e
          | Ok ys => Ok (y :: ys)
          end
      end
  end.

Definition option_result {A : Type} (e : exn) (o : option A) : result A :=
  match o with
  | Some a => Ok a
  | None => Raise e
  end.

(** ** A connection that is closed without a commit *)

(** [conn = sqlite3.connect(db_file)] ... [conn.close()] with no
    [conn.commit()] in between: the [INSERT] and [DELETE] statements executed
    on the connection run in a transaction that is rolled back when the
    connection is closed, or dropped on the way of an exception.  The tables
    of the file are those of [before]; the requests sent to the provider,
    and the configuration file, are no part of the transaction. *)
Definition close_without_commit (before after : World) : World :=
  mk_World (toml_file after) (stocks before) (national_debt before) (requests after).

Definition with_connection {A : Type} (m : M A) : M A :=
  fun w =>
    match m w with
    | (w', r) => (close_without_commit w w', r)
    end.

(** ** The provider (yfinance) *)

(** One row of the frame returned by [Ticker.history]: the cells under the
    columns that the sources read. *)
Record HistRow : Type := mk_HistRow {
  Open : cell;
  High : cell;
  Low : cell;
  Close : cell;
  Volume : cell
}.

Record Provider : Type := mk_Provider {
  (** [datetime.now()] *)
  now : datetime;
  (** [yf.Ticker(symbol).history(start=..., end=...)], as [iterrows] lists it *)
  history : string -> string -> string -> result (list (datetime * HistRow));
  (** [yf.Ticker(symbol).info.get("trailingPE")] *)
  info_get_trailingPE : string -> result pyvalue
}.

(** [DEFAULT_TOML_CONFIG] of constants.py *)
Definition DEFAULT_TOML_CONFIG : config :=
  mk_config
    (Some [mk_entry "AAPL" "2023-01-01" (Some "2023-12-31")])
    (Some [mk_entry "US" "2023-01-01" (Some "2023-12-31")]).

(** What a row of [stocks] receives from a [Price]: the bound parameters of
    the [INSERT OR REPLACE] statement, [pe] being [None if isnan(pe) else pe]. *)
Definition stock_cols_of (price : Price) : stock_cols :=
  mk_stock_cols (open price) (close price) (high price) (low price) (volume price)
    (if isnan (pe price) then None else Some (pe price)).

(** Python truth value of [latest_date_str]: [None] and [""] are false. *)
Definition truthy (o : option string) : option string :=
  match o with
  | Some EmptyString => None
  | other => other
  end.

Section Sources.
Variable P : Provider.

(** [ticker.history(start=start_str, end=end_str)]; the request is recorded. *)
Definition ticker_history (symbol start_str end_str : string)
  : M (list (datetime * HistRow)) :=
  modify (add_request (symbol, start_str, end_str)) ;;;
  lift_result (history P symbol start_str end_str).

(** *** get_stock/stock_struct.py *)

(** [Price(open=float(row["Open"]), close=float(row["Close"]),
    low=float(row["Low"]), high=float(row["High"]), volume=int(row["Volume"]),
    pe=pe_ratio)]: of the five conversions only [int] can raise. *)
Definition price_of_row (row : HistRow) (pe_ratio : float) : result Price :=
  let open := float_of_cell (Open row) in
  let close := float_of_cell (Close row) in
  let low := float_of_cell (Low row) in
  let high := float_of_cell (High row) in
  match int_of_cell (Volume row) with
  | Ok volume => Ok (mk_Price open close low high volume pe_ratio)
  | Raise e => Raise e
  end.

(** The loop [for date, row in hist.iterrows()] that fills a dictionary: it
    stops at the first row whose value raises. *)
Fixpoint dict_of_frame {R B : Type} (value : R -> result B)
    (hist : list (datetime * R)) (d : list (datetime * B))
  : result (list (datetime * B)) :=
  match hist with
  | [] => Ok d
  | (dt, row) :: rest =>
      match value row with
      | Ok b => dict_of_frame value rest (dict_set datetime_eqb dt b d)
      | Raise e => Raise e
      end
  end.

Definition capture_stock (name : string) (start : datetime) : M Stock :=
  let start_str := strftime start in
  let end_str := strftime (now P) in
  hist <- ticker_history name start_str end_str ;;
  pe_ratio <- lift_result (info_get_trailingPE P name) ;;
  pe_ratio <- (match pe_ratio with
               | PyNone => ret nan
               | v => if negb (isinstance_int_float v) then ret nan
                      else lift_result (float_of v)
               end) ;;
  price_data <- lift_result
                  (dict_of_frame (fun row => price_of_row row pe_ratio) hist []) ;;
  ret (mk_Stock name price_data None).

(** The nation's proxy instrument: [TREASURY_SYMBOLS.get(nation, "^TNX")]. *)
Definition proxy_symbol (nation : string) : string :=
  dict_get String.eqb TREASURY_SYMBOLS nation "^TNX".

Definition capture_national_debt (nation : string) (start : datetime) : M NationDebt :=
  let symbol := proxy_symbol nation in
  let start_str := strftime start in
  let end_str := strftime (now P) in
  hist <- ticker_history symbol start_str end_str ;;
  let debt_data :=
    fold_left (fun debt_data '(dt, row) =>
                 dict_set datetime_eqb dt (float_of_cell (Close row)) debt_data)
              hist [] in
  ret (mk_NationDebt debt_data).

(** *** utils.py *)

(** Binding a Python [int] to a parameter of a statement: SQLite's INTEGER
    has 64 bits, and [sqlite3] raises [OverflowError] for an [int] that does
    not fit. *)
Definition bind_int (z : Z) : result Z :=
  if (- 2 ^ 63 <=? z) && (z <? 2 ^ 63) then Ok z else Raise OverflowError.

(** The loop [for date, price in stock_data.data.items()] with its
    [INSERT OR REPLACE INTO stocks]; [update_missing_data] repeats it. *)
Definition insert_stock_data (stock_data : Stock) : M unit :=
  for_each (Stock_data stock_data) (fun '(date, price) =>
    lift_result (bind_int (volume price)) ;;;
    modify (fun w =>
      set_stocks (insert_or_replace (stocks w) (Stock_name stock_data)
                    (strftime date) (stock_cols_of price)) w)).

(** The loop [for date, yield_value in debt_data.data.items()] with its
    [INSERT OR REPLACE INTO national_debt]. *)
Definition insert_debt_data (name : string) (debt_data : NationDebt) : M unit :=
  for_each (NationDebt_data debt_data) (fun '(date, yield_value) =>
    modify (fun w =>
      set_national_debt (insert_or_replace (national_debt w) name
                           (strftime date) yield_value) w)).

Definition _process_stock_data (config_entry : entry)
    (capture_func : string -> datetime -> M Stock) : M unit :=
  let name := name config_entry in
  let start_date_str := start_date config_entry in
  start_date <- lift_option ValueError (strptime start_date_str) ;;
  stock_data <- capture_func name start_date ;;
  insert_stock_data stock_data.

Definition _process_national_debt_data (config_entry : entry)
    (capture_func : string -> datetime -> M NationDebt) : M unit :=
  let name := name config_entry in
  let start_date_str := start_date config_entry in
  start_date <- lift_option ValueError (strptime start_date_str) ;;
  debt_data <- capture_func name start_date ;;
  insert_debt_data name debt_data.

(** The body of [for stock_entry in config['stocks']]. *)
Definition process_stock_entry
    (stock_capture_func : string -> datetime -> M Stock)
    (stock_preprocess_func : option (entry -> M entry))
    (stock_entry : entry) : M unit :=
  stock_entry <- (match stock_preprocess_func with
                  | Some f => f stock_entry
                  | None => ret stock_entry
                  end) ;;
  _process_stock_data stock_entry stock_capture_func.

(** The body of [for debt_entry in config['national_debt']]. *)
Definition process_debt_entry
    (debt_capture_func : string -> datetime -> M NationDebt)
    (debt_preprocess_func : option (entry -> M entry))
    (debt_entry : entry) : M unit :=
  debt_entry <- (match debt_preprocess_func with
                 | Some f => f debt_entry
                 | None => ret debt_entry
                 end) ;;
  _process_national_debt_data debt_entry debt_capture_func.

Definition process_toml_config
    (stock_capture_func : string -> datetime -> M Stock)
    (debt_capture_func : string -> datetime -> M NationDebt)
    (stock_preprocess_func : option (entry -> M entry))
    (debt_preprocess_func : option (entry -> M entry)) : M unit :=
  config <- get toml_file ;;
  (match cfg_stocks config with
   | Some l => for_each l (process_stock_entry stock_capture_func stock_preprocess_func)
   | None => ret tt
   end) ;;;
  (match cfg_national_debt config with
   | Some l => for_each l (process_debt_entry debt_capture_func debt_preprocess_func)
   | None => ret tt
   end).

(** *** database/database.py *)

(** On fresh files: two empty tables and the template configuration. *)
Definition create_database : World :=
  mk_World DEFAULT_TOML_CONFIG empty_table empty_table [].

(** What [capture_data] executes on its connection:
    [process_toml_config(toml_file, conn, stock_capture_func=capture_stock,
    debt_capture_func=capture_national_debt)]. *)
Definition capture_data_conn : M unit :=
  process_toml_config capture_stock capture_national_debt None None.

(** [capture_data]: connect, process, close. *)
Definition capture_data : M unit := with_connection capture_data_conn.

(** *** get_stock/update.py *)

Definition _update_stock_preprocess (stock_entry : entry) : M entry :=
  let name := name stock_entry in
  result <- get (fun w => select_max_date (stocks w) name) ;;
  match result with
  | Some latest_date_str =>
      latest_date <- lift_option ValueError (strptime latest_date_str) ;;
      modify (fun w => set_stocks (delete_where (stocks w) name latest_date_str) w) ;;;
      ret (mk_entry name latest_date_str (end_date stock_entry))
  | None => ret stock_entry
  end.

Definition _update_debt_preprocess (debt_entry : entry) : M entry :=
  let name := name debt_entry in
  result <- get (fun w => select_max_date (national_debt w) name) ;;
  match result with
  | Some latest_date_str =>
      latest_date <- lift_option ValueError (strptime latest_date_str) ;;
      modify (fun w =>
        set_national_debt (delete_where (national_debt w) name latest_date_str) w) ;;;
      ret (mk_entry name latest_date_str (end_date debt_entry))
  | None => ret debt_entry
  end.

(** The body of the loop [for i in range(len(dates) - 1)]. *)
Definition missing_range_step (dates : list datetime)
    (missing_ranges : result (list (string * string))) (i : nat)
  : result (list (string * string)) :=
  match missing_ranges with
  | Raise e => Raise e
  | Ok missing_ranges =>
      match nth_error dates i, nth_error dates (i + 1) with
      | Some current_date, Some next_date =>
          if 1 <? sub_days next_date current_date then
            match add_days current_date 1 with
            | Raise e => Raise e
            | Ok start_missing =>
                match add_days next_date (-1) with
                | Raise e => Raise e
                | Ok end_missing =>
                    Ok (missing_ranges
                          ++ [(strftime start_missing, strftime end_missing)])
                end
            end
          else Ok missing_ranges
      | _, _ => Raise IndexError
      end
  end.

Definition _get_missing_date_ranges_stock (symbol : string)
  : M (list (string * string)) :=
  rows <- get (fun w => select_dates_asc (stocks w) symbol) ;;
  match rows with
  | [] => ret []
  | _ =>
      dates <- lift_result
                 (map_result (fun row => option_result ValueError (strptime row)) rows) ;;
      lift_result
        (fold_left (missing_range_step dates)
                   (seq 0 (List.length dates - 1)) (Ok []))
  end.

Definition _get_missing_date_ranges_debt (nation : string)
  : M (list (string * string)) :=
  rows <- get (fun w => select_dates_asc (national_debt w) nation) ;;
  match rows with
  | [] => ret []
  | _ =>
      dates <- lift_result
                 (map_result (fun row => option_result ValueError (strptime row)) rows) ;;
      lift_result
        (fold_left
           (fun missing_ranges i =>
              match missing_ranges with
              | Raise e => Raise e
              | Ok missing_ranges =>
                  match nth_error dates i, nth_error dates (i + 1) with
                  | Some current_date, Some next_date =>
                      if 1 <? sub_days next_date current_date then
                        match add_days current_date 1 with
                        | Raise e => Raise e
                        | Ok start_missing =>
                            match add_days next_date (-1) with
                            | Raise e => Raise e
                            | Ok end_missing =>
                                Ok (missing_ranges
                                      ++ [(strftime start_missing,
                                           strftime end_missing)])
                            end
                        end
                      else Ok missing_ranges
                  | _, _ => Raise IndexError
                  end
              end)
           (seq 0 (List.length dates - 1)) (Ok []))
  end.

(** The body of [for stock_entry in config['stocks']] in
    [update_missing_data]. *)
Definition update_missing_stock (stock_entry : entry) : M unit :=
  let name := name stock_entry in
  result <- get (fun w => select_max_date (stocks w) name) ;;
  match truthy result with
  | Some latest_date_str =>
      latest <- lift_option ValueError (strptime latest_date_str) ;;
      start_date <- lift_result (add_days latest 1) ;;
      stock_data <- capture_stock name start_date ;;
      insert_stock_data stock_data
  | None => ret tt
  end.

(** The body of [for debt_entry in config['national_debt']] in
    [update_missing_data]. *)
Definition update_missing_debt (debt_entry : entry) : M unit :=
  let name := name debt_entry in
  result <- get (fun w => select_max_date (national_debt w) name) ;;
  match truthy result with
  | Some latest_date_str =>
      latest <- lift_option ValueError (strptime latest_date_str) ;;
      start_date <- lift_result (add_days latest 1) ;;
      debt_data <- capture_national_debt name start_date ;;
      insert_debt_data name debt_data
  | None => ret tt
  end.

(** What [update_missing_data] executes on its connection: the two loops
    over the configuration. *)
Definition update_missing_data_conn : M unit :=
  config <- get toml_file ;;
  (match cfg_stocks config with
   | Some l => for_each l update_missing_stock
   | None => ret tt
   end) ;;;
  (match cfg_national_debt config with
   | Some l => for_each l update_missing_debt
   | None => ret tt
   end).

(** [update_missing_data]: connect, the two loops, close. *)
Definition update_missing_data : M unit := with_connection update_missing_data_conn.

(** What [update_data] executes on its connection: [process_toml_config]
    with the two preprocessing functions. *)
Definition update_data_conn : M unit :=
  process_toml_config capture_stock capture_national_debt
    (Some _update_stock_preprocess) (Some _update_debt_preprocess).

(** [update_data]: connect, process, close. *)
Definition update_data : M unit := with_connection update_data_conn.

(** *** cli/add.py *)

(** The loop over [toml_config['stocks']] with its [break]: [None] when it
    ends with [stock_exists] still false. *)
Fixpoint update_existing (stock start_date end_date : string) (l : list entry)
  : option (list entry) :=
  match l with
  | [] => None
  | stock_entry :: r =>
      if (upper (name stock_entry) =? upper stock)%string then
        Some (mk_entry (name stock_entry) start_date (Some end_date) :: r)
      else option_map (cons stock_entry) (update_existing stock start_date end_date r)
  end.

(** The list [toml_config['stocks']] that [add_command] saves. *)
Definition add_stock (stock start_date end_date : string) (l : list entry)
  : list entry :=
  match update_existing stock start_date end_date l with
  | Some l' => l'
  | None => l ++ [mk_entry (upper stock) start_date (Some end_date)]
  end.

(** [add_command], once the two paths have been read: a start date that
    does not parse and a failed capture both end in [sys.exit(1)]. *)
Definition add_command (stock start_date : string) : M unit :=
  match strptime start_date with
  | None => raise SystemExit
  | Some start =>
      let end_date := strftime (now P) in
      toml_config <- get toml_file ;;
      let l := match cfg_stocks toml_config with
               | Some l => l
               | None => []
               end in
      modify (set_toml (mk_config (Some (add_stock stock start_date end_date l))
                                  (cfg_national_debt toml_config))) ;;;
      (fun w =>
         match capture_data w with
         | (w', Ok _) => (w', Ok tt)
         | (w', Raise _) => (w', Raise SystemExit)
         end)
  end.
End Sources.

(** ** Notions used in the statements *)

(** What [capture_stock] returns; it does not depend on the state. *)
Definition fetched_stock (P : Provider) (name : string) (start : datetime)
  : result Stock :=
  snd (capture_stock P name start create_database).

(** What [capture_national_debt] returns. *)
Definition fetched_debt (P : Provider) (nation : string) (start : datetime)
  : result NationDebt :=
  snd (capture_national_debt P nation start create_database).

(** The [pe_ratio] that [capture_stock] makes of
    [ticker.info.get("trailingPE")]. *)
Definition pe_of_info (v : pyvalue) : result float :=
  match v with
  | PyNone => Ok nan
  | v => if negb (isinstance_int_float v) then Ok nan else float_of v
  end.

(** The price made of a row whose volume converts. *)
Definition price_or_nan (pe_ratio : float) (row : HistRow) : Price :=
  match price_of_row row pe_ratio with
  | Ok price => price
  | Raise _ => mk_Price nan nan nan nan 0 pe_ratio
  end.

(** The provider's side of [history(start=...)]: every bar it returns is a
    well-formed [datetime] dated on or after the start day. *)
Definition honours_start (P : Provider) : Prop :=
  forall symbol start_str end_str hist start dt row,
    history P symbol start_str end_str = Ok hist ->
    strptime start_str = Some start ->
    In (dt, row) hist ->
    valid_ymd (year dt) (month dt) (day dt) = true
    /\ toordinal start <= toordinal dt.

(** The table stores a row with these values. *)
Definition holds {V : Type} (t : table V) (k d : string) (v : V) : Prop :=
  In (k, d, v) (map content (rows t)).

(** A sequence of upserts on one table, applied in order. *)
Definition apply_upserts {V : Type} (t : table V) (ups : list (string * string * V))
  : table V :=
  fold_left (fun t '(k, d, v) => insert_or_replace t k d v) ups t.

(** The values of the last upsert of the sequence that names the pair. *)
Fixpoint last_upsert {V : Type} (ups : list (string * string * V)) (k d : string)
  : option V :=
  match ups with
  | [] => None
  | (k', d', v) :: rest =>
      match last_upsert rest k d with
      | Some x => Some x
      | None => if (k' =? k)%string && (d' =? d)%string then Some v else None
      end
  end.

(** The consecutive pairs of a sequence. *)
Fixpoint consecutive {A : Type} (l : list A) : list (A * A) :=
  match l with
  | a :: ((b :: _) as rest) => (a, b) :: consecutive rest
  | _ => []
  end.

(** The calendar day [n] days away from [d]. *)
Definition shift_day (d : datetime) (n : Z) : datetime :=
  let '(y, m, dd) := _ord2ymd (toordinal d + n) in
  mk_datetime y m dd (hour d) (minute d) (second d) (microsecond d).

(** Gap detection as the specification words it: for each consecutive pair of
    stored dates more than one calendar day apart, the range from the day
    after the first to the day before the second. *)
Definition calendar_gaps (dates : list datetime) : list (string * string) :=
  flat_map (fun '(prev, next) =>
              if 1 <? toordinal next - toordinal prev then
                [(strftime (shift_day prev 1), strftime (shift_day next (-1)))]
              else [])
           (consecutive dates).

(** The list comprehension [[datetime.strptime(row[0], "%Y-%m-%d") for row in rows]]. *)
Definition parse_rows (rows : list string) : result (list datetime) :=
  map_result (fun row => option_result ValueError (strptime row)) rows.

(** The items of a series are well-formed and dated on or after the day of
    ordinal [n]. *)
Definition dated_from {A : Type} (n : Z) (items : list (datetime * A)) : Prop :=
  forall dt a, In (dt, a) items ->
    valid_ymd (year dt) (month dt) (day dt) = true /\ n <= toordinal dt.

(** The row [r] is stored, and the latest date of its key is not before the
    day of ordinal [bound]. *)
Definition kept_before {V : Type} (r : row V) (bound : Z) (t : table V) : Prop :=
  In r (rows t)
  /\ forall L Ld, select_max_date t (key r) = Some L -> strptime L = Some Ld ->
                  bound <= toordinal Ld.

(** The volume can be bound to a parameter of a statement. *)
Definition bindable (price : Price) : bool :=
  match bind_int (volume price) with
  | Ok _ => true
  | Raise _ => false
  end.

(** The items of a series that the insertion loop of [stocks] writes: those
    before the first one whose volume cannot be bound. *)
Fixpoint written (items : list (datetime * Price)) : list (datetime * Price) :=
  match items with
  | [] => []
  | (dt, price) :: rest => if bindable price then (dt, price) :: written rest else []
  end.

(** How the insertion loop of [stocks] ends on a series. *)
Definition all_bound (items : list (datetime * Price)) : result unit :=
  if forallb (fun item => bindable (snd item)) items then Ok tt
  else Raise OverflowError.

(** The items that are written for a key after [capture_stock] and
    [capture_national_debt] returned. *)
Definition stock_items (P : Provider) (k : string) (start : datetime)
  : option (list (datetime * Price)) :=
  match fetched_stock P k start with
  | Ok sd => Some (written (Stock_data sd))
  | Raise _ => None
  end.

Definition debt_items (P : Provider) (k : string) (start : datetime)
  : option (list (datetime * float)) :=
  match fetched_debt P k start with
  | Ok dd => Some (NationDebt_data dd)
  | Raise _ => None
  end.

(** What one iteration of a loop of [update_missing_data] does to its table:
    nothing, or the items fetched from the day after the latest stored date
    are written for the key. *)
Definition appended {V A : Type} (f : A -> V)
    (fetch : datetime -> option (list (datetime * A)))
    (k : string) (t t' : table V) : Prop :=
  t' = t
  \/ exists L Ld start items,
       select_max_date t k = Some L /\ strptime L = Some Ld
       /\ add_days Ld 1 = Ok start /\ fetch start = Some items
       /\ t' = upsert_all f k items t.

(** The tracked keys: the entries of a list of the configuration, none when
    the list is absent. *)
Definition tracked (o : option (list entry)) : list entry :=
  match o with
  | Some l => l
  | None => []
  end.

(** The requests of [w'] continue those of [w]. *)
Definition grows (w w' : World) : Prop :=
  exists n, requests w' = requests w ++ n.

(** Between [w] and [w'] the request [req] was sent to the provider. *)
Definition requested (w w' : World) (req : request) : Prop :=
  exists n, requests w' = requests w ++ n /\ In req n.

(** The provider has nothing new for the key: every item it returns for the
    request made after the latest stored date is already stored, with the
    same values. *)
Definition nothing_new {V A : Type} (f : A -> V)
    (fetch : datetime -> option (list (datetime * A)))
    (k : string) (t : table V) : Prop :=
  forall L Ld start items,
    select_max_date t k = Some L -> strptime L = Some Ld ->
    add_days Ld 1 = Ok start -> fetch start = Some items ->
    forall dt a, In (dt, a) items -> holds t k (strftime dt) (f a).

(** The provider returns an empty series for that request. *)
Definition nothing_returned {V A : Type}
    (fetch : datetime -> option (list (datetime * A)))
    (k : string) (t : table V) : Prop :=
  forall L Ld start items,
    select_max_date t k = Some L -> strptime L = Some Ld ->
    add_days Ld 1 = Ok start -> fetch start = Some items ->
    items = [].

(** Lexicographic composition of two comparisons. *)
Definition lexc (c1 c2 : comparison) : comparison :=
  match c1 with
  | Eq => c2
  | Lt => Lt
  | Gt => Gt
  end.

(** The text is an ISO date: what [strftime] writes for a calendar day. *)
Definition iso_date (s : string) : Prop :=
  exists d, valid_ymd (year d) (month d) (day d) = true /\ s = strftime d.

(** The loop bodies of [update_data]. *)
Definition refresh_stock (P : Provider) : entry -> M unit :=
  process_stock_entry (capture_stock P) (Some _update_stock_preprocess).

Definition refresh_debt (P : Provider) : entry -> M unit :=
  process_debt_entry (capture_national_debt P) (Some _update_debt_preprocess).

(** What one iteration of a loop of [update_data] does to its table.  With a
    latest date: nothing (that date does not parse), or the row at that date
    is deleted, and then the items fetched from that date are written unless
    the fetch raised.  Without one: a capture from the configured start. *)
Definition refreshed {V A : Type} (f : A -> V)
    (fetch : datetime -> option (list (datetime * A)))
    (k cfg_start : string) (t t' : table V) : Prop :=
  match select_max_date t k with
  | Some L =>
      t' = t
      \/ exists Ld,
           strptime L = Some Ld
           /\ (t' = delete_where t k L
               \/ exists items,
                    fetch Ld = Some items
                    /\ t' = upsert_all f k items (delete_where t k L))
  | None =>
      t' = t
      \/ exists start items,
           strptime cfg_start = Some start /\ fetch start = Some items
           /\ t' = upsert_all f k items t
  end.

(** ** Sample data for the examples *)

(** The float 1.0. *)
Definition one : float := S754_finite false 4503599627370496 (-52).

Definition bar (y m d : Z) : datetime * HistRow :=
  (mk_datetime y m d 0 0 0 0,
   mk_HistRow (CellFloat one) (CellFloat one) (CellFloat one) (CellFloat one)
              (CellInt 100)).

Definition sample_bars : list (datetime * HistRow) :=
  [bar 2023 1 3; bar 2023 1 4; bar 2023 1 5].

(** A provider that has three daily bars for every symbol, returns those
    dated on or after the start day, and has no trailing P/E. *)
Definition sample_provider : Provider :=
  mk_Provider
    (mk_datetime 2023 1 6 9 30 0 0)
    (fun _ start_str _ =>
       match strptime start_str with
       | Some start =>
           Ok (filter (fun '(dt, _) => toordinal start <=? toordinal dt) sample_bars)
       | None => Raise ProviderError
       end)
    (fun _ => Ok PyNone).

(** The same provider once it has nothing new: no bar after 2023-01-05. *)
Definition quiet_provider : Provider :=
  mk_Provider
    (mk_datetime 2023 1 6 18 0 0 0)
    (fun _ start_str _ =>
       match strptime start_str with
       | Some start =>
           Ok (filter (fun '(dt, _) => toordinal start <=? toordinal dt) sample_bars)
       | None => Raise ProviderError
       end)
    (fun _ => Ok PyNone).


Definition sample_cols : stock_cols := mk_stock_cols one one one one 100 None.

(** [stocks] holds AAPL, and [national_debt] holds US, on 2023-01-01,
    2023-01-02 and 2023-01-04; both keys are tracked. *)
Definition sample_world : World :=
  mk_World
    (mk_config (Some [mk_entry "AAPL" "2023-01-01" None])
               (Some [mk_entry "US" "2023-01-01" None]))
    (insert_or_replace
       (insert_or_replace
          (insert_or_replace empty_table "AAPL" "2023-01-01" sample_cols)
          "AAPL" "2023-01-02" sample_cols)
       "AAPL" "2023-01-04" sample_cols)
    (insert_or_replace
       (insert_or_replace
          (insert_or_replace empty_table "US" "2023-01-01" one)
          "US" "2023-01-02" one)
       "US" "2023-01-04" one)
    [].

(** [sample_world] once the rows of 2023-01-05 are stored as well. *)
Definition caught_up_world : World :=
  mk_World (toml_file sample_world)
           (insert_or_replace (stocks sample_world) "AAPL" "2023-01-05" sample_cols)
           (insert_or_replace (national_debt sample_world) "US" "2023-01-05" one)
           [].


(** MSFT is tracked from 2023-01-01, and the three bars that the sample
    provider has are stored for it. *)
Definition stored_world : World :=
  mk_World (mk_config (Some [mk_entry "MSFT" "2023-01-01" None]) None)
           (insert_or_replace
              (insert_or_replace
                 (insert_or_replace empty_table "MSFT" "2023-01-03" sample_cols)
                 "MSFT" "2023-01-04" sample_cols)
              "MSFT" "2023-01-05" sample_cols)
           empty_table [].

(** MSFT is tracked from 2023-01-01 and no row is stored for it. *)
Definition empty_key_world : World :=
  mk_World (mk_config (Some [mk_entry "MSFT" "2023-01-01" None]) None)
           empty_table empty_table [].

(** ** Further notions: what an iteration of a loop may write *)

(** What one iteration of a loop of [capture_data] does to its table: nothing,
    or the items fetched from the configured start date are written. *)
Definition captured {V A : Type} (f : A -> V)
    (fetch : datetime -> option (list (datetime * A)))
    (k cfg_start : string) (t t' : table V) : Prop :=
  t' = t
  \/ exists start items,
       strptime cfg_start = Some start /\ fetch start = Some items
       /\ t' = upsert_all f k items t.

(** The loop bodies of [capture_data]. *)
Definition capture_stock_entry (P : Provider) : entry -> M unit :=
  process_stock_entry (capture_stock P) None.

Definition capture_debt_entry (P : Provider) : entry -> M unit :=
  process_debt_entry (capture_national_debt P) None.

(** Every date text of the table is an ISO date. *)
Definition iso_table {V : Type} (t : table V) : Prop :=
  forall r, In r (rows t) -> iso_date (date r).

(** The rows stored for a key, in rowid order. *)
Definition rows_of {V : Type} (t : table V) (k : string) : list (row V) :=
  filter (of_key k) (rows t).

(** The two views of a run: on its connection, and on the files once the
    connection is closed. *)
Definition views (m : M unit) : list (M unit) := [m; with_connection m].

(** The three runs over the configuration, each in its two views. *)
Definition runs (P : Provider) : list (M unit) :=
  flat_map views [capture_data_conn P; update_data_conn P; update_missing_data_conn P].

(** [sample_world] with a row left from a symbol that is no longer tracked. *)
Definition legacy_world : World :=
  set_stocks (insert_or_replace (stocks sample_world) "TSLA" "2022-12-30" sample_cols)
             sample_world.

(** The runs that only write: full capture and incremental append. *)
Definition writing_runs (P : Provider) : list (M unit) :=
  flat_map views [capture_data_conn P; update_missing_data_conn P].

(** What the schema and the writers of the store guarantee of a table:
    [UNIQUE(key, date)], and dates written as ISO dates. *)
Definition well_formed {V : Type} (t : table V) : Prop :=
  unique_key_date t /\ iso_table t.

(** A row of a day on which the provider has prices and no volume: pandas
    holds the missing volume as NaN. *)
Definition halted_row : HistRow :=
  mk_HistRow (CellFloat one) (CellFloat one) (CellFloat one) (CellFloat one)
             (CellFloat nan).

(** A provider that answers every request with three bars, the second one
    without a volume. *)
Definition halted_provider : Provider :=
  mk_Provider (mk_datetime 2023 1 6 9 30 0 0)
              (fun _ _ _ =>
                 Ok [bar 2023 1 3; (mk_datetime 2023 1 4 0 0 0 0, halted_row);
                     bar 2023 1 5])
              (fun _ => Ok PyNone).

(** ** Further notions: the calendar days of a key *)

(** A list in ascending order for [R]: every element is related to all the
    later ones. *)
Fixpoint ascending {A : Type} (R : A -> A -> Prop) (l : list A) : Prop :=
  match l with
  | [] => True
  | a :: r => (forall b, In b r -> R a b) /\ ascending R r
  end.

(** The day of ordinal [n] is stored for the key: some row of the key has a
    date text that parses to it. *)
Definition stored_day {V : Type} (t : table V) (k : string) (n : Z) : Prop :=
  exists r D, In r (rows t) /\ key r = k /\ strptime (date r) = Some D
              /\ toordinal D = n.

(** The day of ordinal [n] lies in the range, whose two ends are date texts. *)
Definition in_range (n : Z) (range : string * string) : Prop :=
  exists ds de, strptime (fst range) = Some ds /\ strptime (snd range) = Some de
                /\ toordinal ds <= n <= toordinal de.

(** The day lies in one of the ranges. *)
Definition reported (ranges : list (string * string)) (n : Z) : Prop :=
  exists range, In range ranges /\ in_range n range.

(** The day is not stored for the key, and lies strictly between two days
    that are. *)
Definition missing_day {V : Type} (t : table V) (k : string) (n : Z) : Prop :=
  ~ stored_day t k n
  /\ exists lo hi, stored_day t k lo /\ stored_day t k hi /\ lo < n < hi.

(** ** Further notions: the tracked stocks *)

(** The test of [add_command]'s loop: the entry is the one of [stock], case
    ignored. *)
Definition same_stock (stock : string) (e : entry) : bool :=
  (upper (name e) =? upper stock)%string.

(** The first entry of the list that [add_command] takes for [stock]. *)
Definition find_stock (stock : string) (l : list entry) : option entry :=
  find (same_stock stock) l.

(** No two entries of the list name the same stock, case ignored. *)
Definition distinct_stocks (l : list entry) : Prop :=
  NoDup (map (fun e => upper (name e)) l).

(** ** Further notions: requests and bars *)

(** The request a capture makes for an entry, under the symbol it asks the
    provider for; none when the start date of the entry does not parse. *)
Definition request_of (P : Provider) (symbol : string) (e : entry) : option request :=
  match strptime (start_date e) with
  | Some start => Some (symbol, strftime start, strftime (now P))
  | None => None
  end.

(** The columns of [stocks] that a bar of the provider fills, when its
    volume is a number. *)
Definition bar_cols (row : HistRow) (pe : option float) : option stock_cols :=
  match int_of_cell (Volume row) with
  | Ok volume =>
      Some (mk_stock_cols (float_of_cell (Open row)) (float_of_cell (Close row))
              (float_of_cell (High row)) (float_of_cell (Low row)) volume pe)
  | Raise _ => None
  end.

(** The bars are of different days. *)
Definition one_bar_a_day (hist : list (datetime * HistRow)) : Prop :=
  NoDup (map (fun b => strftime (fst b)) hist).

(** A provider that has no bar for any request. *)
Definition silent_provider : Provider :=
  mk_Provider (mk_datetime 2023 1 6 9 30 0 0) (fun _ _ _ => Ok []) (fun _ => Ok PyNone).

(** ** Further notions: what a run reads of the configuration *)

(** What the runs read of an entry. *)
Definition target (e : entry) : string * string := (name e, start_date e).

(** Two configurations that track the same keys from the same start dates,
    in the same order; an absent list counts as an empty one. *)
Definition same_targets (c c' : config) : Prop :=
  map target (tracked (cfg_stocks c)) = map target (tracked (cfg_stocks c'))
  /\ map target (tracked (cfg_national_debt c))
     = map target (tracked (cfg_national_debt c')).

(** Two states with the same tables and the same requests sent. *)
Definition same_store (w w' : World) : Prop :=
  stocks w = stocks w' /\ national_debt w = national_debt w'
  /\ requests w = requests w'.

(** [sample_world] with end dates in its configuration, both of them before
    the dates that are stored. *)
Definition dated_world : World :=
  set_toml (mk_config (Some [mk_entry "AAPL" "2023-01-01" (Some "2023-01-03")])
                      (Some [mk_entry "US" "2023-01-01" (Some "2022-01-01")]))
           sample_world.

(** ** Further notions: rows that a run adds *)

(** The row is dated after the latest date stored for its key in [t]. *)
Definition after_latest {V : Type} (t : table V) (r : row V) : Prop :=
  exists L Ld D,
    select_max_date t (key r) = Some L /\ strptime L = Some Ld
    /\ strptime (date r) = Some D /\ toordinal Ld < toordinal D.

(** The provider answered a capture of the tracked entries [l] with a bar of
    the day written [s], for an entry of key [k] asked under [symbol]. *)
Definition answered (P : Provider) (symbol : string -> string) (l : list entry)
    (k s : string) : Prop :=
  exists e start hist dt row,
    In e l /\ name e = k /\ strptime (start_date e) = Some start
    /\ history P (symbol k) (strftime start) (strftime (now P)) = Ok hist
    /\ In (dt, row) hist /\ s = strftime dt.

(** No date of a key is dropped from [w] to [w']. *)
Definition keeps_dates (w w' : World) : Prop :=
  (forall k s, In s (dates_of (stocks w) k) -> In s (dates_of (stocks w') k))
  /\ (forall k s, In s (dates_of (national_debt w) k) ->
                  In s (dates_of (national_debt w') k)).

(** A table whose dates were not all written by the runs: September is
    written without its zero. *)
Definition unpadded_table : table float :=
  insert_or_replace (insert_or_replace empty_table "US" "2023-9-01" one)
                    "US" "2023-10-01" one.

(** * Properties *)

(** ** The calendar *)

Module CalendarFacts.

Lemma month_day_table :
  forallb (fun i => month_day_ok false (Z.of_nat i) && month_day_ok true (Z.of_nat i))
          (seq 0 365) = true.
Proof. vm_compute. reflexivity. Qed.

Lemma month_day_spec (leapyear : bool) (n : Z) :
  0 <= n < 365 -> month_day_ok leapyear n = true.
Proof.
  intros Hn.
  pose proof month_day_table as T.
  rewrite forallb_forall in T.
  specialize (T (Z.to_nat n)).
  rewrite Z2Nat.id in T by lia.
  assert (Hin : In (Z.to_nat n) (seq 0 365)) by (apply in_seq; lia).
  apply T in Hin. apply andb_prop in Hin.
  destruct leapyear; tauto.
Qed.

Lemma is_leap_cycle (a b c d : Z) :
  0 <= b <= 3 -> 0 <= c <= 24 -> 0 <= d <= 3 ->
  _is_leap (a * 400 + 1 + b * 100 + c * 4 + d)
  = (d =? 3) && (negb (c =? 24) || (b =? 3)).
Proof.
  intros Hb Hc Hd. unfold _is_leap.
  assert (E4 : (a * 400 + 1 + b * 100 + c * 4 + d) mod 4 = (d + 1) mod 4).
  { replace (a * 400 + 1 + b * 100 + c * 4 + d)
      with ((d + 1) + (a * 100 + b * 25 + c) * 4) by ring.
    apply Z_mod_plus_full. }
  assert (E100 : (a * 400 + 1 + b * 100 + c * 4 + d) mod 100 = (c * 4 + d + 1) mod 100).
  { replace (a * 400 + 1 + b * 100 + c * 4 + d)
      with ((c * 4 + d + 1) + (a * 4 + b) * 100) by ring.
    apply Z_mod_plus_full. }
  assert (E400 : (a * 400 + 1 + b * 100 + c * 4 + d) mod 400
                 = (b * 100 + c * 4 + d + 1) mod 400).
  { replace (a * 400 + 1 + b * 100 + c * 4 + d)
      with ((b * 100 + c * 4 + d + 1) + a * 400) by ring.
    apply Z_mod_plus_full. }
  rewrite E4, E100, E400.
  destruct (Z.eqb_spec d 3) as [-> | Hd3].
  - replace ((3 + 1) mod 4) with 0 by reflexivity. simpl.
    destruct (Z.eqb_spec c 24) as [-> | Hc24].
    + replace ((24 * 4 + 3 + 1) mod 100) with 0 by reflexivity. simpl.
      destruct (Z.eqb_spec b 3) as [-> | Hb3]; [reflexivity |].
      apply Z.eqb_neq. intros E.
      rewrite Z.mod_small in E by lia. lia.
    + simpl. rewrite Z.mod_small by lia.
      destruct (Z.eqb_spec (c * 4 + 3 + 1) 0); [lia | reflexivity].
  - simpl. rewrite Z.mod_small by lia.
    destruct (Z.eqb_spec (d + 1) 0); [lia | reflexivity].
Qed.

Lemma days_before_year_cycle (a b c d : Z) :
  0 <= b <= 3 -> 0 <= c <= 24 -> 0 <= d <= 3 ->
  _days_before_year (a * 400 + 1 + b * 100 + c * 4 + d)
  = a * 146097 + b * 36524 + c * 1461 + d * 365.
Proof.
  intros Hb Hc Hd. unfold _days_before_year. cbv zeta.
  replace (a * 400 + 1 + b * 100 + c * 4 + d - 1)
    with (a * 400 + b * 100 + c * 4 + d) by ring.
  assert (E4 : (a * 400 + b * 100 + c * 4 + d) / 4 = a * 100 + b * 25 + c).
  { symmetry. apply Z.div_unique with (r := d); lia. }
  assert (E100 : (a * 400 + b * 100 + c * 4 + d) / 100 = a * 4 + b).
  { symmetry. apply Z.div_unique with (r := c * 4 + d); lia. }
  assert (E400 : (a * 400 + b * 100 + c * 4 + d) / 400 = a).
  { symmetry. apply Z.div_unique with (r := b * 100 + c * 4 + d); lia. }
  rewrite E4, E100, E400. ring.
Qed.

Lemma ord2ymd_month_day (n : Z) :
  let n0 := n - 1 in
  let a := n0 / 146097 in
  let r1 := n0 mod 146097 in
  let b := r1 / 36524 in
  let r2 := r1 mod 36524 in
  let c := r2 / 1461 in
  let r3 := r2 mod 1461 in
  let d := r3 / 365 in
  let r4 := r3 mod 365 in
  _ord2ymd n =
  if (d =? 4) || (b =? 4) then (a * 400 + 1 + b * 100 + c * 4 + d - 1, 12, 31)
  else
    let '(m, dd) := month_day ((d =? 3) && (negb (c =? 24) || (b =? 3))) r4 in
    (a * 400 + 1 + b * 100 + c * 4 + d, m, dd).
Proof.
  cbv zeta. unfold _ord2ymd, month_day, _DI400Y, _DI100Y, _DI4Y. cbv zeta.
  destruct ((_ =? 4) || _); [reflexivity |].
  destruct (_ <? _); reflexivity.
Qed.

Theorem ord2ymd_spec (n : Z) :
  1 <= n <= _MAXORDINAL ->
  let '(y, m, d) := _ord2ymd n in
  valid_ymd y m d = true /\ _ymd2ord y m d = n.
Proof.
  unfold _MAXORDINAL. intros Hn.
  rewrite ord2ymd_month_day. cbv zeta.
  pose proof (Z.div_mod (n - 1) 146097 ltac:(lia)) as E1.
  pose proof (Z.mod_pos_bound (n - 1) 146097 ltac:(lia)) as B1.
  set (a := (n - 1) / 146097) in *. set (r1 := (n - 1) mod 146097) in *.
  pose proof (Z.div_mod r1 36524 ltac:(lia)) as E2.
  pose proof (Z.mod_pos_bound r1 36524 ltac:(lia)) as B2.
  set (b := r1 / 36524) in *. set (r2 := r1 mod 36524) in *.
  pose proof (Z.div_mod r2 1461 ltac:(lia)) as E3.
  pose proof (Z.mod_pos_bound r2 1461 ltac:(lia)) as B3.
  set (c := r2 / 1461) in *. set (r3 := r2 mod 1461) in *.
  pose proof (Z.div_mod r3 365 ltac:(lia)) as E4.
  pose proof (Z.mod_pos_bound r3 365 ltac:(lia)) as B4.
  set (d := r3 / 365) in *. set (r4 := r3 mod 365) in *.
  clearbody a r1 b r2 c r3 d r4.
  assert (Ha : 0 <= a <= 24) by lia.
  assert (Hb : 0 <= b <= 4) by lia.
  assert (Hc : 0 <= c <= 24) by lia.
  assert (Hd : 0 <= d <= 4) by lia.
  destruct (Z.eqb_spec d 4) as [Ed | Nd]; simpl orb.
  - (* the last day of a leap year that closes a 4-year cycle *)
    subst d.
    assert (Hc' : 0 <= c <= 23) by lia.
    assert (Hb' : 0 <= b <= 3) by lia.
    replace (a * 400 + 1 + b * 100 + c * 4 + 4 - 1)
      with (a * 400 + 1 + b * 100 + c * 4 + 3) by ring.
    unfold valid_ymd, _ymd2ord, _days_in_month, _days_before_month, MINYEAR, MAXYEAR.
    rewrite is_leap_cycle, days_before_year_cycle by lia.
    replace (c =? 24) with false by (symmetry; apply Z.eqb_neq; lia).
    simpl. split; [| lia].
    rewrite !andb_true_r.
    apply andb_true_intro; split; apply Z.leb_le; lia.
  - destruct (Z.eqb_spec b 4) as [Eb | Nb].
    + (* the last day of a 400-year cycle *)
      subst b.
      assert (r2 = 0) by lia. subst r2.
      assert (c = 0) by lia. subst c.
      assert (r3 = 0) by lia. subst r3.
      assert (d = 0) by lia. subst d.
      replace (a * 400 + 1 + 4 * 100 + 0 * 4 + 0 - 1)
        with (a * 400 + 1 + 3 * 100 + 24 * 4 + 3) by ring.
      unfold valid_ymd, _ymd2ord, _days_in_month, _days_before_month, MINYEAR, MAXYEAR.
      rewrite is_leap_cycle, days_before_year_cycle by lia.
      simpl. split; [| lia].
      rewrite !andb_true_r.
      apply andb_true_intro; split; apply Z.leb_le; lia.
    + assert (Hb' : 0 <= b <= 3) by lia.
      assert (Hd' : 0 <= d <= 3) by lia.
      pose proof (month_day_spec ((d =? 3) && (negb (c =? 24) || (b =? 3))) r4 B4) as MD.
      unfold month_day_ok in MD.
      destruct (month_day _ r4) as [m dd].
      repeat (apply andb_prop in MD; destruct MD as [MD ?]).
      unfold valid_ymd, _ymd2ord, _days_in_month, _days_before_month, MINYEAR, MAXYEAR.
      rewrite is_leap_cycle, days_before_year_cycle by lia.
      split.
      * repeat (apply andb_true_intro; split); try assumption;
          apply Z.leb_le; lia.
      * apply Z.eqb_eq in H. lia.
Qed.

Lemma days_before_month_day (y m d : Z) :
  valid_ymd y m d = true ->
  1 <= _days_before_month y m + d <= 365 + (if _is_leap y then 1 else 0).
Proof.
  unfold valid_ymd, _days_before_month, _days_in_month. intros V.
  repeat (apply andb_prop in V; destruct V as [V ?]).
  assert (Hm : m = 1 \/ m = 2 \/ m = 3 \/ m = 4 \/ m = 5 \/ m = 6 \/ m = 7
               \/ m = 8 \/ m = 9 \/ m = 10 \/ m = 11 \/ m = 12) by lia.
  destruct (_is_leap y);
    repeat (destruct Hm as [-> | Hm]); try subst m;
    cbv beta iota delta [_DAYS_BEFORE_MONTH _DAYS_IN_MONTH Z.eqb Z.ltb Z.compare
                         Pos.compare Pos.compare_cont Pos.eqb andb] in *;
    rewrite ?Z.leb_le in *; lia.
Qed.

Lemma ymd2ord_bounds (y m d : Z) :
  valid_ymd y m d = true -> 1 <= _ymd2ord y m d <= _MAXORDINAL.
Proof.
  intros V. pose proof (days_before_month_day y m d V) as B.
  unfold valid_ymd, MINYEAR, MAXYEAR in V.
  repeat (apply andb_prop in V; destruct V as [V ?]).
  unfold _ymd2ord, _MAXORDINAL.
  assert (Hy : 1 <= y <= 9999) by lia.
  assert (D : 0 <= _days_before_year y
              /\ (y <= 9998 -> _days_before_year y <= 3651330)).
  { unfold _days_before_year. cbv zeta. Z.div_mod_to_equations. lia. }
  destruct (Z.eq_dec y 9999) as [-> | Ny].
  - change (_is_leap 9999) with false in B.
    change (_days_before_year 9999) with 3651694. lia.
  - destruct (_is_leap y); lia.
Qed.

End CalendarFacts.

Import CalendarFacts.

(** ** [strftime] and [strptime] *)

Lemma digit_table :
  forallb (fun i => match digit_val (digit (Z.of_nat i)) with
                    | Some v => v =? Z.of_nat i
                    | None => false
                    end) (seq 0 10) = true.
Proof. vm_compute. reflexivity. Qed.

Lemma digit_val_digit (n : Z) : 0 <= n <= 9 -> digit_val (digit n) = Some n.
Proof.
  intros H. pose proof digit_table as T. rewrite forallb_forall in T.
  specialize (T (Z.to_nat n) ltac:(apply in_seq; lia)).
  rewrite Z2Nat.id in T by lia.
  destruct (digit_val (digit n)) as [v |]; [| discriminate].
  apply Z.eqb_eq in T. congruence.
Qed.

Lemma re_md_table :
  forallb (fun m => forallb (fun d =>
    match re_md (fmt_md (Z.of_nat m) (Z.of_nat d)) with
    | [(m', d')] => (m' =? Z.of_nat m) && (d' =? Z.of_nat d)
    | _ => false
    end) (seq 1 31)) (seq 1 12) = true.
Proof. vm_compute. reflexivity. Qed.

Lemma re_md_fmt_md (m d : Z) :
  1 <= m <= 12 -> 1 <= d <= 31 -> re_md (fmt_md m d) = [(m, d)].
Proof.
  intros Hm Hd.
  pose proof re_md_table as T.
  rewrite forallb_forall in T.
  specialize (T (Z.to_nat m) ltac:(apply in_seq; lia)).
  rewrite forallb_forall in T.
  specialize (T (Z.to_nat d) ltac:(apply in_seq; lia)).
  rewrite !Z2Nat.id in T by lia.
  destruct (re_md (fmt_md m d)) as [| [m' d'] [| ? ?]]; try discriminate.
  apply andb_prop in T. destruct T as [T1 T2].
  apply Z.eqb_eq in T1, T2. subst. reflexivity.
Qed.

Lemma valid_ymd_ranges (y m d : Z) :
  valid_ymd y m d = true -> 1 <= y <= 9999 /\ 1 <= m <= 12 /\ 1 <= d <= 31.
Proof.
  unfold valid_ymd, MINYEAR, MAXYEAR, _days_in_month. intros V.
  repeat (apply andb_prop in V; destruct V as [V ?]).
  assert (Hm : m = 1 \/ m = 2 \/ m = 3 \/ m = 4 \/ m = 5 \/ m = 6 \/ m = 7
               \/ m = 8 \/ m = 9 \/ m = 10 \/ m = 11 \/ m = 12) by lia.
  destruct (_is_leap y);
    repeat (destruct Hm as [-> | Hm]); try subst m;
    cbv beta iota delta [_DAYS_BEFORE_MONTH _DAYS_IN_MONTH Z.eqb Z.ltb Z.compare
                         Pos.compare Pos.compare_cont Pos.eqb andb] in *;
    rewrite ?Z.leb_le in *; lia.
Qed.

(** The calendar day of a [datetime], at midnight: what [strptime] returns. *)
Lemma strptime_strftime (d : datetime) :
  valid_ymd (year d) (month d) (day d) = true ->
  strptime (strftime d) = Some (mk_datetime (year d) (month d) (day d) 0 0 0 0).
Proof.
  intros V. pose proof (valid_ymd_ranges _ _ _ V) as (Hy & Hm & Hd).
  unfold strptime, re_match_Ymd, strftime, re_Y.
  rewrite !digit_val_digit
    by (match goal with |- _ <= ?x mod 10 <= _ =>
          pose proof (Z.mod_pos_bound x 10 ltac:(lia)); lia end).
  cbn [flat_map]. rewrite re_md_fmt_md by assumption.
  cbn [map app].
  replace (year d / 1000 mod 10 * 1000 + year d / 100 mod 10 * 100
           + year d / 10 mod 10 * 10 + year d mod 10) with (year d)
    by (Z.div_mod_to_equations; lia).
  rewrite V. reflexivity.
Qed.

Lemma strptime_valid (s : string) (d : datetime) :
  strptime s = Some d ->
  valid_ymd (year d) (month d) (day d) = true
  /\ hour d = 0 /\ minute d = 0 /\ second d = 0 /\ microsecond d = 0.
Proof.
  unfold strptime. destruct (re_match_Ymd s) as [| [[y m] dd] ?]; [discriminate |].
  destruct (valid_ymd y m dd) eqn:V; [| discriminate].
  intros E. injection E as <-. simpl. auto.
Qed.

Example strftime_example :
  strftime (mk_datetime 2023 1 3 9 30 0 0) = "2023-01-03".
Proof. reflexivity. Qed.

Example strptime_padded :
  strptime "2023-01-03" = Some (mk_datetime 2023 1 3 0 0 0 0).
Proof. reflexivity. Qed.

Example strptime_unpadded :
  strptime "2023-1-3" = Some (mk_datetime 2023 1 3 0 0 0 0).
Proof. reflexivity. Qed.

Example strptime_no_such_day : strptime "2023-02-29" = None.
Proof. reflexivity. Qed.

Example strptime_trailing_text : strptime "2023-01-03 00:00:00" = None.
Proof. reflexivity. Qed.

Example toordinal_example : toordinal (mk_datetime 2023 1 1 0 0 0 0) = 738521.
Proof. reflexivity. Qed.

Example add_days_leap_day :
  add_days (mk_datetime 2024 2 28 0 0 0 0) 1 = Ok (mk_datetime 2024 2 29 0 0 0 0).
Proof. reflexivity. Qed.

Example add_days_past_the_last_day :
  add_days (mk_datetime 9999 12 31 0 0 0 0) 1 = Raise OverflowError.
Proof. reflexivity. Qed.

(** [add_days] on a calendar day that stays in range. *)
Lemma add_days_spec (d d' : datetime) (n : Z) :
  add_days d n = Ok d' ->
  valid_ymd (year d') (month d') (day d') = true
  /\ toordinal d' = toordinal d + n
  /\ hour d' = hour d /\ minute d' = minute d
  /\ second d' = second d /\ microsecond d' = microsecond d.
Proof.
  unfold add_days.
  destruct ((0 <? toordinal d + n) && (toordinal d + n <=? _MAXORDINAL)) eqn:R;
    [| discriminate].
  apply andb_prop in R. destruct R as [R1 R2].
  apply Z.ltb_lt in R1. apply Z.leb_le in R2.
  pose proof (ord2ymd_spec (toordinal d + n) ltac:(lia)) as S.
  destruct (_ord2ymd (toordinal d + n)) as [[y m] dd].
  intros E. injection E as <-. simpl. unfold toordinal. simpl. tauto.
Qed.

Lemma toordinal_bounds (d : datetime) :
  valid_ymd (year d) (month d) (day d) = true -> 1 <= toordinal d <= _MAXORDINAL.
Proof. apply ymd2ord_bounds. Qed.

(** Between two midnights, [(a - b).days] is the difference of the ordinals. *)
Lemma sub_days_midnight (a b : datetime) :
  hour a = 0 -> minute a = 0 -> second a = 0 -> microsecond a = 0 ->
  hour b = 0 -> minute b = 0 -> second b = 0 -> microsecond b = 0 ->
  sub_days a b = toordinal a - toordinal b.
Proof.
  intros. unfold sub_days, microseconds_of.
  replace ((toordinal a * 86400 + hour a * 3600 + minute a * 60 + second a) * 1000000
           + microsecond a
           - ((toordinal b * 86400 + hour b * 3600 + minute b * 60 + second b) * 1000000
              + microsecond b))
    with ((toordinal a - toordinal b) * (86400 * 1000000)) by lia.
  apply Z.div_mul. lia.
Qed.

(** ** The BINARY collation on texts *)

Lemma leb_refl (a : string) : String.leb a a = true.
Proof.
  unfold String.leb.
  replace (String.compare a a) with Eq; [reflexivity |].
  symmetry. apply String_as_OT.cmp_eq. reflexivity.
Qed.

Lemma leb_iff (a b : string) :
  String.leb a b = true <-> a = b \/ String_as_OT.lt a b.
Proof.
  unfold String.leb.
  destruct (String.compare a b) eqn:C.
  - apply String_as_OT.cmp_eq in C. tauto.
  - apply String_as_OT.cmp_lt in C. tauto.
  - split; [discriminate |].
    intros [E | L].
    + apply String_as_OT.cmp_eq in E. unfold String_as_OT.cmp in E. congruence.
    + apply String_as_OT.cmp_lt in L. unfold String_as_OT.cmp in L. congruence.
Qed.

Lemma leb_trans (a b c : string) :
  String.leb a b = true -> String.leb b c = true -> String.leb a c = true.
Proof.
  rewrite !leb_iff. intros [-> | L1] [-> | L2]; auto.
  right. eapply String_as_OT.lt_trans; eassumption.
Qed.

Lemma ltb_leb (a b : string) : String.ltb a b = false -> String.leb b a = true.
Proof.
  unfold String.ltb, String.leb. rewrite (String.compare_antisym a b).
  destruct (String.compare b a); simpl; congruence.
Qed.

Lemma ltb_leb_true (a b : string) : String.ltb a b = true -> String.leb a b = true.
Proof.
  unfold String.ltb, String.leb. destruct (String.compare a b); congruence.
Qed.

Section TextMax.
Lemma max_text_cases (a b : string) : max_text a b = a \/ max_text a b = b.
Proof. unfold max_text. destruct (String.ltb a b); auto. Qed.

Lemma max_text_l (a b : string) : String.leb a (max_text a b) = true.
Proof.
  unfold max_text. destruct (String.ltb a b) eqn:L.
  - apply ltb_leb_true, L.
  - apply leb_refl.
Qed.

Lemma max_text_r (a b : string) : String.leb b (max_text a b) = true.
Proof.
  unfold max_text. destruct (String.ltb a b) eqn:L.
  - apply leb_refl.
  - apply ltb_leb, L.
Qed.

Lemma fold_max_text (l : list string) (a : string) :
  In (fold_left max_text l a) (a :: l)
  /\ forall x, In x (a :: l) -> String.leb x (fold_left max_text l a) = true.
Proof.
  revert a. induction l as [| b l IH]; intros a; simpl.
  - split; [auto |]. intros x [<- | []]. apply leb_refl.
  - destruct (IH (max_text a b)) as [I U]. split.
    + destruct I as [I | I]; [| right; right; exact I].
      destruct (max_text_cases a b) as [E | E]; rewrite E in I |- *; auto.
    + intros x [<- | [<- | Hx]].
      * eapply leb_trans; [apply max_text_l | apply U; left; reflexivity].
      * eapply leb_trans; [apply max_text_r | apply U; left; reflexivity].
      * apply U. right. exact Hx.
Qed.

(** [MAX] returns an element of the selection that bounds the others. *)
Lemma sql_max_spec (l : list string) (m : string) :
  sql_max l = Some m <-> In m l /\ forall x, In x l -> String.leb x m = true.
Proof.
  destruct l as [| a l]; simpl.
  - split; [discriminate | tauto].
  - destruct (fold_max_text l a) as [I U]. split.
    + intros E. injection E as <-. auto.
    + intros [I' U']. f_equal. apply String.leb_antisym; auto.
Qed.

Lemma sql_max_None (l : list string) : sql_max l = None <-> l = [].
Proof. destruct l; simpl; split; congruence. Qed.

Lemma sql_max_ext (l l' : list string) :
  (forall x, In x l <-> In x l') -> sql_max l = sql_max l'.
Proof.
  intros E. destruct (sql_max l) as [m |] eqn:M.
  - symmetry. apply sql_max_spec. apply sql_max_spec in M. destruct M as [I U].
    split; [apply E, I |]. intros x Hx. apply U, E, Hx.
  - apply sql_max_None in M. subst l. symmetry. apply sql_max_None.
    destruct l' as [| a l']; [reflexivity |].
    exfalso. apply (E a). left. reflexivity.
Qed.
End TextMax.

(** ** The SQL statements *)

Section TableFacts.
Context {V : Type}.
Implicit Types (t : table V) (r : row V) (k d : string) (v : V).

Lemma matches_true k d r : matches k d r = true <-> key r = k /\ date r = d.
Proof.
  unfold matches. rewrite andb_true_iff, !String.eqb_eq. tauto.
Qed.

Lemma matches_false k d r : matches k d r = false <-> ~ (key r = k /\ date r = d).
Proof.
  rewrite <- matches_true. destruct (matches k d r); split; intuition congruence.
Qed.

Lemma in_insert_or_replace t k d v r :
  In r (rows (insert_or_replace t k d v)) <->
  (In r (rows t) /\ matches k d r = false) \/ r = mk_row (next_id t) k d v.
Proof.
  unfold insert_or_replace. simpl.
  rewrite in_app_iff, filter_In, negb_true_iff. simpl. intuition.
Qed.

Lemma in_delete_where t k d r :
  In r (rows (delete_where t k d)) <-> In r (rows t) /\ matches k d r = false.
Proof.
  unfold delete_where. simpl. rewrite filter_In, negb_true_iff. tauto.
Qed.

Lemma NoDup_map_filter {X Y : Type} (g : X -> Y) (keep : X -> bool) (xs : list X)
    (N : NoDup (map g xs)) :
  NoDup (map g (filter keep xs)).
Proof.
  induction xs as [| a xs IH]; simpl in *; [constructor |].
  inversion N as [| ? ? Hn N']; subst.
  destruct (keep a); simpl; auto.
  constructor; auto.
  intros I. apply Hn. apply in_map_iff in I. destruct I as (x & E & I).
  apply filter_In in I. apply in_map_iff. exists x. tauto.
Qed.

(** [INSERT OR REPLACE] keeps [UNIQUE(key, date)]. *)
Lemma unique_insert_or_replace t k d v :
  unique_key_date t -> unique_key_date (insert_or_replace t k d v).
Proof.
  unfold unique_key_date, insert_or_replace. simpl. intros N.
  rewrite map_app. apply NoDup_app.
  - apply NoDup_map_filter, N.
  - simpl. constructor; [tauto | constructor].
  - intros [k' d'] I [E | []]. simpl in E. injection E as <- <-.
    apply in_map_iff in I. destruct I as (x & E & I).
    apply filter_In in I. destruct I as [_ I].
    apply negb_true_iff, matches_false in I. injection E as E1 E2. tauto.
Qed.

Lemma unique_delete_where t k d :
  unique_key_date t -> unique_key_date (delete_where t k d).
Proof. apply NoDup_map_filter. Qed.

Lemma unique_upsert_all {A : Type} (f : A -> V) k (items : list (datetime * A)) t :
  unique_key_date t -> unique_key_date (upsert_all f k items t).
Proof.
  revert t. induction items as [| [dt a] items IH]; simpl; intros t U; [exact U |].
  apply IH, unique_insert_or_replace, U.
Qed.

Lemma filter_none {A : Type} (p : A -> bool) (l : list A) :
  (forall x, In x l -> p x = false) -> filter p l = [].
Proof.
  induction l as [| a l IH]; simpl; intros H; [reflexivity |].
  rewrite (H a) by auto. apply IH. auto.
Qed.

Lemma filter_all {A : Type} (p : A -> bool) (l : list A) :
  (forall x, In x l -> p x = true) -> filter p l = l.
Proof.
  induction l as [| a l IH]; simpl; intros H; [reflexivity |].
  rewrite (H a) by auto. f_equal. apply IH. auto.
Qed.

Lemma unique_no_other_match (a : row V) (l : list (row V)) :
  ~ In (key a, date a) (map (fun r => (key r, date r)) l) ->
  forall x, In x l -> matches (key a) (date a) x = false.
Proof.
  intros Hn x Hx. apply matches_false. intros [E1 E2]. apply Hn.
  apply in_map_iff. exists x. rewrite E1, E2. auto.
Qed.

(** Under [UNIQUE(key, date)] a pair selects at most one row. *)
Lemma unique_select_row t k d :
  unique_key_date t -> (List.length (select_row t k d) <= 1)%nat.
Proof.
  unfold unique_key_date, select_row.
  induction (rows t) as [| a l IH]; simpl; intros N; [lia |].
  inversion N as [| ? ? Hn N']; subst.
  destruct (matches k d a) eqn:Ma; [| auto].
  simpl. apply matches_true in Ma. destruct Ma as [<- <-].
  rewrite (filter_none _ l (unique_no_other_match a l Hn)). simpl. lia.
Qed.

Lemma select_row_insert_same t k d v :
  select_row (insert_or_replace t k d v) k d = [mk_row (next_id t) k d v].
Proof.
  unfold select_row, insert_or_replace. simpl. rewrite filter_app.
  rewrite filter_none.
  - simpl. unfold matches at 1. simpl. rewrite !String.eqb_refl. reflexivity.
  - intros x Hx. apply filter_In in Hx. apply negb_true_iff. tauto.
Qed.

Lemma select_row_insert_other t k d v k' d' :
  (k', d') <> (k, d) ->
  select_row (insert_or_replace t k d v) k' d' = select_row t k' d'.
Proof.
  intros Ne. unfold select_row, insert_or_replace. simpl. rewrite filter_app.
  simpl. replace (matches k' d' (mk_row (next_id t) k d v)) with false.
  - rewrite app_nil_r. induction (rows t) as [| a l IH]; simpl; [reflexivity |].
    destruct (matches k d a) eqn:Ma; simpl.
    + replace (matches k' d' a) with false; [exact IH |].
      symmetry. apply matches_false. apply matches_true in Ma.
      intros [E1 E2]. apply Ne. destruct Ma. congruence.
    + destruct (matches k' d' a); [f_equal |]; exact IH.
  - symmetry. apply matches_false. simpl. intros [E1 E2]. apply Ne. congruence.
Qed.

(** *** Rows of the other keys *)

Lemma rows_of_key_insert_other t k d v k' :
  k' <> k ->
  filter (of_key k') (rows (insert_or_replace t k d v)) = filter (of_key k') (rows t).
Proof.
  intros Ne. unfold insert_or_replace, of_key. simpl. rewrite filter_app. simpl.
  replace (k =? k')%string with false
    by (symmetry; apply String.eqb_neq; congruence).
  rewrite app_nil_r. induction (rows t) as [| a l IH]; simpl; [reflexivity |].
  destruct (matches k d a) eqn:Ma; simpl.
  - apply matches_true in Ma. destruct Ma as [Ma _].
    replace (key a =? k')%string with false
      by (symmetry; apply String.eqb_neq; congruence).
    exact IH.
  - destruct (key a =? k')%string; [f_equal |]; exact IH.
Qed.

Lemma rows_of_key_delete_other t k d k' :
  k' <> k ->
  filter (of_key k') (rows (delete_where t k d)) = filter (of_key k') (rows t).
Proof.
  intros Ne. unfold delete_where, of_key. simpl.
  induction (rows t) as [| a l IH]; simpl; [reflexivity |].
  destruct (matches k d a) eqn:Ma; simpl.
  - apply matches_true in Ma. destruct Ma as [Ma _].
    replace (key a =? k')%string with false
      by (symmetry; apply String.eqb_neq; congruence).
    exact IH.
  - destruct (key a =? k')%string; [f_equal |]; exact IH.
Qed.

Lemma rows_of_key_upsert_all_other {A : Type} (f : A -> V) k
    (items : list (datetime * A)) t k' :
  k' <> k ->
  filter (of_key k') (rows (upsert_all f k items t)) = filter (of_key k') (rows t).
Proof.
  intros Ne. revert t. induction items as [| [dt a] items IH]; simpl; intros t;
    [reflexivity |].
  rewrite IH. apply rows_of_key_insert_other, Ne.
Qed.

Lemma in_rows_of_key t t' k :
  filter (of_key k) (rows t') = filter (of_key k) (rows t) ->
  forall r, key r = k -> In r (rows t) -> In r (rows t').
Proof.
  intros E r Kr I.
  assert (I' : In r (filter (of_key k) (rows t'))).
  { rewrite E. apply filter_In. split; [exact I |].
    unfold of_key. apply String.eqb_eq, Kr. }
  apply filter_In in I'. tauto.
Qed.

Lemma select_max_date_rows_of_key t t' k :
  filter (of_key k) (rows t') = filter (of_key k) (rows t) ->
  select_max_date t' k = select_max_date t k.
Proof.
  unfold select_max_date, dates_of. intros ->. reflexivity.
Qed.

(** *** Rows of the key that is written *)

Lemma in_upsert_all_frame {A : Type} (f : A -> V) k (items : list (datetime * A)) t r :
  In r (rows t) ->
  (forall dt a, In (dt, a) items -> matches k (strftime dt) r = false) ->
  In r (rows (upsert_all f k items t)).
Proof.
  revert t. induction items as [| [dt a] items IH]; simpl; intros t I H; [exact I |].
  apply IH.
  - apply in_insert_or_replace. left. split; [exact I |]. apply (H dt a). auto.
  - intros dt' a' I'. apply (H dt' a'). auto.
Qed.

Lemma in_dates_of t k s :
  In s (dates_of t k) <-> exists r, In r (rows t) /\ key r = k /\ date r = s.
Proof.
  unfold dates_of, of_key. rewrite in_map_iff. split.
  - intros (r & E & I). apply filter_In in I. destruct I as [I K].
    apply String.eqb_eq in K. eauto.
  - intros (r & I & K & E). exists r. split; [exact E |].
    apply filter_In. split; [exact I |]. apply String.eqb_eq, K.
Qed.

Lemma in_dates_of_insert t k d v s :
  In s (dates_of (insert_or_replace t k d v) k) <-> s = d \/ In s (dates_of t k).
Proof.
  rewrite !in_dates_of. split.
  - intros (r & I & K & E). apply in_insert_or_replace in I.
    destruct I as [[I _] | ->]; [right; eauto | left; simpl in E; congruence].
  - intros [-> | (r & I & K & E)].
    + exists (mk_row (next_id t) k d v). split; [| auto].
      apply in_insert_or_replace. auto.
    + destruct (String.eqb_spec s d) as [-> | Ne].
      * exists (mk_row (next_id t) k d v). split; [| auto].
        apply in_insert_or_replace. auto.
      * exists r. split; [| auto]. apply in_insert_or_replace. left.
        split; [exact I |]. apply matches_false. intros [_ E']. congruence.
Qed.

Lemma in_dates_of_upsert_all {A : Type} (f : A -> V) k (items : list (datetime * A)) t s :
  In s (dates_of (upsert_all f k items t) k) <->
  (exists dt a, In (dt, a) items /\ s = strftime dt) \/ In s (dates_of t k).
Proof.
  revert t. induction items as [| [dt a] items IH]; simpl; intros t.
  - split; [auto |]. intros [(? & ? & [] & _) | H]; exact H.
  - rewrite IH, in_dates_of_insert. split.
    + intros [(dt' & a' & I & E) | [E | I]]; eauto 6.
    + intros [(dt' & a' & [E' | I] & E) | I]; [| eauto 6 | auto].
      injection E' as <- <-. auto.
Qed.

(** The latest date after a series has been written is the former latest
    date or one of the dates written. *)
Lemma select_max_date_upsert_all {A : Type} (f : A -> V) k
    (items : list (datetime * A)) t m :
  select_max_date (upsert_all f k items t) k = Some m ->
  select_max_date t k = Some m
  \/ exists dt a, In (dt, a) items /\ m = strftime dt.
Proof.
  unfold select_max_date.
  rewrite !sql_max_spec. intros [I U].
  apply in_dates_of_upsert_all in I. destruct I as [I | I]; [right; exact I |].
  left. split; [exact I |]. intros x Hx. apply U.
  apply in_dates_of_upsert_all. auto.
Qed.
End TableFacts.

(** ** The monad and the loops *)

Lemma set_stocks_id (w : World) : set_stocks (stocks w) w = w.
Proof. destruct w. reflexivity. Qed.

Lemma set_national_debt_id (w : World) : set_national_debt (national_debt w) w = w.
Proof. destruct w. reflexivity. Qed.

(** What a run leaves when its connection is closed. *)
Lemma with_connection_eq {A : Type} (m : M A) (w : World) :
  with_connection m w = (close_without_commit w (fst (m w)), snd (m w)).
Proof. unfold with_connection. destruct (m w). reflexivity. Qed.

Lemma with_connection_tables {A : Type} (m : M A) (w : World) :
  stocks (fst (with_connection m w)) = stocks w
  /\ national_debt (fst (with_connection m w)) = national_debt w.
Proof. rewrite with_connection_eq. split; reflexivity. Qed.

Lemma with_connection_kept {A : Type} (m : M A) (w : World) :
  toml_file (fst (with_connection m w)) = toml_file (fst (m w))
  /\ requests (fst (with_connection m w)) = requests (fst (m w))
  /\ snd (with_connection m w) = snd (m w).
Proof. rewrite with_connection_eq. repeat split; reflexivity. Qed.

(** A run that wrote nothing on its connection leaves the state it found. *)
Lemma with_connection_idle {A : Type} (m : M A) (w : World) (r : result A) :
  m w = (w, r) -> with_connection m w = (w, r).
Proof. intros E. rewrite with_connection_eq, E. destruct w. reflexivity. Qed.

Lemma for_each_app {A : Type} (l1 l2 : list A) (body : A -> M unit) (w : World) :
  for_each (l1 ++ l2) body w = (for_each l1 body ;;; for_each l2 body) w.
Proof.
  revert w. induction l1 as [| a l1 IH]; intros w; simpl.
  - reflexivity.
  - unfold bind in *. destruct (body a w) as [w' [u | e]]; [| reflexivity].
    apply IH.
Qed.

(** A property kept by every iteration holds when the loop ends, whether it
    ends normally or by an exception. *)
Lemma for_each_invariant {A : Type} (I : World -> Prop) (body : A -> M unit)
    (l : list A) :
  (forall x w, In x l -> I w -> I (fst (body x w))) ->
  forall w, I w -> I (fst (for_each l body w)).
Proof.
  induction l as [| a l IH]; intros Hb w Hw; simpl; [exact Hw |].
  unfold bind. specialize (Hb a w (or_introl eq_refl) Hw) as Ha.
  destruct (body a w) as [w' [u | e]]; simpl in *; [| exact Ha].
  apply IH; [| exact Ha]. intros x w0 Hx. apply Hb. right. exact Hx.
Qed.

Lemma written_all (items : list (datetime * Price)) :
  all_bound items = Ok tt -> written items = items.
Proof.
  unfold all_bound. induction items as [| [dt price] items IH]; simpl; [reflexivity |].
  destruct (bindable price); simpl; [| discriminate].
  intros E. rewrite IH by exact E. reflexivity.
Qed.

Lemma in_written (items : list (datetime * Price)) (x : datetime * Price) :
  In x (written items) -> In x items.
Proof.
  induction items as [| [dt price] items IH]; simpl; [tauto |].
  destruct (bindable price); simpl; [| tauto]. tauto.
Qed.

Lemma all_bound_raise (items : list (datetime * Price)) (x : exn) :
  all_bound items = Raise x -> x = OverflowError.
Proof.
  unfold all_bound. destruct (forallb _ items); congruence.
Qed.

Lemma insert_stock_data_eq (sd : Stock) (w : World) :
  insert_stock_data sd w
  = (set_stocks
       (upsert_all stock_cols_of (Stock_name sd) (written (Stock_data sd)) (stocks w)) w,
     all_bound (Stock_data sd)).
Proof.
  unfold insert_stock_data. generalize (Stock_name sd) as k. intros k.
  match goal with |- context [for_each _ ?b] => set (body := b) end.
  assert (S : forall dt price w0,
             body (dt, price) w0
             = if bindable price
               then (set_stocks (insert_or_replace (stocks w0) k (strftime dt)
                                   (stock_cols_of price)) w0, Ok tt)
               else (w0, Raise OverflowError)).
  { intros dt price w0. unfold body, bind, lift_result, modify, bindable, bind_int.
    destruct ((- 2 ^ 63 <=? volume price) && (volume price <? 2 ^ 63)); reflexivity. }
  clearbody body. revert w.
  induction (Stock_data sd) as [| [dt price] items IH]; intros w.
  - simpl. rewrite set_stocks_id. reflexivity.
  - cbn [for_each written]. unfold bind. rewrite S. unfold all_bound. cbn [forallb snd].
    destruct (bindable price).
    + rewrite IH. destruct w. reflexivity.
    + simpl. rewrite set_stocks_id. reflexivity.
Qed.

Lemma insert_debt_data_eq (name : string) (dd : NationDebt) (w : World) :
  insert_debt_data name dd w
  = (set_national_debt
       (upsert_all (fun y => y) name (NationDebt_data dd) (national_debt w)) w,
     Ok tt).
Proof.
  unfold insert_debt_data. revert w.
  induction (NationDebt_data dd) as [| [dt y] items IH]; intros w; simpl.
  - rewrite set_national_debt_id. reflexivity.
  - unfold bind, modify at 1. rewrite IH. destruct w. reflexivity.
Qed.

Lemma capture_stock_unfold (P : Provider) (name : string) (start : datetime) (w : World) :
  capture_stock P name start w
  = (add_request (name, strftime start, strftime (now P)) w,
     match history P name (strftime start) (strftime (now P)) with
     | Raise e => Raise e
     | Ok hist =>
         match info_get_trailingPE P name with
         | Raise e => Raise e
         | Ok v =>
             match pe_of_info v with
             | Raise e => Raise e
             | Ok pe_ratio =>
                 match dict_of_frame (fun row => price_of_row row pe_ratio) hist [] with
                 | Raise e => Raise e
                 | Ok price_data => Ok (mk_Stock name price_data None)
                 end
             end
         end
     end).
Proof.
  unfold capture_stock, ticker_history, bind, modify, lift_result, ret.
  destruct (history P name (strftime start) (strftime (now P))) as [hist | e];
    [| reflexivity].
  destruct (info_get_trailingPE P name) as [v | e]; [| reflexivity].
  destruct v; simpl;
    repeat (match goal with
            | |- context [float_of_int ?z] => destruct (float_of_int z)
            | |- context [dict_of_frame ?f ?h ?a] => destruct (dict_of_frame f h a)
            end; simpl);
    reflexivity.
Qed.

Lemma capture_stock_eq (P : Provider) (name : string) (start : datetime) (w : World) :
  capture_stock P name start w
  = (add_request (name, strftime start, strftime (now P)) w, fetched_stock P name start).
Proof.
  unfold fetched_stock. rewrite !capture_stock_unfold. reflexivity.
Qed.

Lemma capture_national_debt_eq (P : Provider) (nation : string) (start : datetime)
    (w : World) :
  capture_national_debt P nation start w
  = (add_request (proxy_symbol nation, strftime start, strftime (now P)) w,
     fetched_debt P nation start).
Proof.
  unfold fetched_debt, capture_national_debt, ticker_history, bind, modify,
    lift_result, ret.
  destruct (history P (proxy_symbol nation) (strftime start) (strftime (now P)))
    as [hist | e]; reflexivity.
Qed.

Lemma datetime_eqb_eq (a b : datetime) : datetime_eqb a b = true <-> a = b.
Proof.
  unfold datetime_eqb. rewrite !andb_true_iff, !Z.eqb_eq.
  destruct a, b; simpl. split.
  - intros [[[[[[-> ->] ->] ->] ->] ->] ->]. reflexivity.
  - intros E. injection E as -> -> -> -> -> -> ->. tauto.
Qed.

Lemma in_dict_set {B : Type} (k : datetime) (v : B) (d : list (datetime * B))
    (dt : datetime) (b : B) :
  In (dt, b) (dict_set datetime_eqb k v d) -> In (dt, b) d \/ (dt, b) = (k, v).
Proof.
  induction d as [| [k' v'] d IHd]; simpl.
  - intros [E | []]; auto.
  - destruct (datetime_eqb k k') eqn:K; simpl.
    + intros [E | I]; auto.
    + intros [E | I]; [auto |]. apply IHd in I. tauto.
Qed.

(** The keys of a dictionary built from the rows of a frame are dates of rows. *)
Lemma in_dict_of_rows {R B : Type} (f : R -> B) (hist : list (datetime * R))
    (acc : list (datetime * B)) (dt : datetime) (b : B) :
  In (dt, b)
     (fold_left (fun d '(dt, row) => dict_set datetime_eqb dt (f row) d) hist acc) ->
  In (dt, b) acc \/ exists row, In (dt, row) hist /\ b = f row.
Proof.
  revert acc. induction hist as [| [dt' row'] hist IH]; simpl; intros acc I; [auto |].
  apply IH in I. destruct I as [I | (row & I & E)]; [| eauto].
  apply in_dict_set in I. destruct I as [I | E]; [auto |].
  injection E as -> ->. right. eauto.
Qed.

(** A frame that is read to its end fills the dictionary as a loop that
    cannot raise would, with the values of its rows. *)
Lemma dict_of_frame_total {R B : Type} (value : R -> result B) (g : R -> B)
    (hist : list (datetime * R)) (acc d : list (datetime * B)) :
  (forall row b, value row = Ok b -> g row = b) ->
  dict_of_frame value hist acc = Ok d ->
  d = fold_left (fun d '(dt, row) => dict_set datetime_eqb dt (g row) d) hist acc
  /\ forall dt row, In (dt, row) hist -> value row = Ok (g row).
Proof.
  intros G. revert acc. induction hist as [| [dt' row'] hist IH]; simpl; intros acc E.
  - split; [congruence | tauto].
  - destruct (value row') as [b |] eqn:V; [| discriminate].
    apply IH in E. destruct E as [-> A]. rewrite (G row' b V). split; [reflexivity |].
    intros dt row [I | I]; [| eauto]. injection I as <- <-. rewrite (G row' b V).
    exact V.
Qed.

Lemma price_or_nan_ok (pe_ratio : float) (row : HistRow) (price : Price) :
  price_of_row row pe_ratio = Ok price -> price_or_nan pe_ratio row = price.
Proof. unfold price_or_nan. intros ->. reflexivity. Qed.

Lemma price_of_row_ok (pe_ratio : float) (row : HistRow) (price : Price) :
  price_of_row row pe_ratio = Ok price ->
  exists volume,
    int_of_cell (Volume row) = Ok volume
    /\ price = mk_Price (float_of_cell (Open row)) (float_of_cell (Close row))
                 (float_of_cell (Low row)) (float_of_cell (High row)) volume pe_ratio.
Proof.
  unfold price_of_row. destruct (int_of_cell (Volume row)) as [v | e]; [| discriminate].
  intros E. injection E as <-. eauto.
Qed.

(** What a [capture_stock] that returns has gone through. *)
Lemma fetched_stock_inv (P : Provider) (name : string) (start : datetime) (sd : Stock) :
  fetched_stock P name start = Ok sd ->
  exists hist v pe_ratio,
    history P name (strftime start) (strftime (now P)) = Ok hist
    /\ info_get_trailingPE P name = Ok v
    /\ pe_of_info v = Ok pe_ratio
    /\ Stock_name sd = name
    /\ Stock_data sd
       = fold_left (fun d '(dt, row) =>
                      dict_set datetime_eqb dt (price_or_nan pe_ratio row) d) hist []
    /\ forall dt row, In (dt, row) hist ->
         price_of_row row pe_ratio = Ok (price_or_nan pe_ratio row).
Proof.
  unfold fetched_stock. rewrite capture_stock_unfold. simpl.
  destruct (history P name (strftime start) (strftime (now P))) as [hist | e];
    [| discriminate].
  destruct (info_get_trailingPE P name) as [v | e]; [| discriminate].
  destruct (pe_of_info v) as [pe_ratio | e] eqn:Epe; [| discriminate].
  destruct (dict_of_frame (fun row => price_of_row row pe_ratio) hist [])
    as [d | e] eqn:D; [| discriminate].
  intros E. injection E as <-. simpl.
  apply (dict_of_frame_total _ (price_or_nan pe_ratio)) in D;
    [| intros row b; apply price_or_nan_ok].
  destruct D as [D A]. exists hist, v, pe_ratio.
  do 2 (split; [reflexivity |]). split; [exact Epe |]. split; [reflexivity |].
  split; [exact D | exact A].
Qed.

Lemma fetched_stock_spec (P : Provider) (name : string) (start : datetime) (sd : Stock) :
  fetched_stock P name start = Ok sd ->
  Stock_name sd = name
  /\ exists hist,
       history P name (strftime start) (strftime (now P)) = Ok hist
       /\ forall dt price, In (dt, price) (Stock_data sd) -> exists row, In (dt, row) hist.
Proof.
  intros F. apply fetched_stock_inv in F.
  destruct F as (hist & v & pe_ratio & H & _ & _ & N & D & _).
  split; [exact N |]. exists hist. split; [exact H |].
  intros dt price I. rewrite D in I. apply in_dict_of_rows in I.
  destruct I as [[] | (row & I & _)]. eauto.
Qed.

Lemma fetched_debt_spec (P : Provider) (nation : string) (start : datetime)
    (dd : NationDebt) :
  fetched_debt P nation start = Ok dd ->
  exists hist,
    history P (proxy_symbol nation) (strftime start) (strftime (now P)) = Ok hist
    /\ forall dt y, In (dt, y) (NationDebt_data dd) -> exists row, In (dt, row) hist.
Proof.
  unfold fetched_debt, capture_national_debt, ticker_history, bind, modify,
    lift_result, ret.
  destruct (history P (proxy_symbol nation) (strftime start) (strftime (now P)))
    as [hist | e]; [| discriminate].
  simpl. intros E. injection E as <-. simpl. exists hist. split; [reflexivity |].
  intros dt y I. apply (in_dict_of_rows (fun row => float_of_cell (Close row))) in I.
  destruct I as [[] | (row & I & _)]. eauto.
Qed.

(** ** Nation codes and their proxy instrument *)

Lemma dict_get_lookup {K V : Type} (eqb : K -> K -> bool) (d : list (K * V))
    (k : K) (default : V) :
  dict_get eqb d k default
  = match dict_lookup eqb d k with
    | Some v => v
    | None => default
    end.
Proof.
  induction d as [| [k' v'] d IH]; simpl; [reflexivity |].
  destruct (eqb k k'); [reflexivity | exact IH].
Qed.

(** C8: resolving a nation code to its proxy instrument never fails: a code
    of the table [TREASURY_SYMBOLS] gets the table's symbol, every other code
    gets the default ["^TNX"]; and [capture_national_debt] raises only what
    the provider raised for that symbol. *)
Theorem C8_nation_proxy_never_fails (nation : string) :
  match dict_lookup String.eqb TREASURY_SYMBOLS nation with
  | Some symbol => proxy_symbol nation = symbol
  | None => proxy_symbol nation = "^TNX"
  end
  /\ forall (P : Provider) (start : datetime) (w : World) (e : exn),
       snd (capture_national_debt P nation start w) = Raise e ->
       history P (proxy_symbol nation) (strftime start) (strftime (now P)) = Raise e.
Proof.
  split.
  - unfold proxy_symbol. rewrite dict_get_lookup.
    destruct (dict_lookup String.eqb TREASURY_SYMBOLS nation); reflexivity.
  - intros P start w e.
    unfold capture_national_debt, ticker_history, bind, modify, lift_result, ret.
    destruct (history P (proxy_symbol nation) (strftime start) (strftime (now P)));
      simpl; congruence.
Qed.

Example proxy_symbol_unknown : proxy_symbol "FR" = "^TNX".
Proof. reflexivity. Qed.

Example proxy_symbol_known : proxy_symbol "United States" = "^TNX".
Proof. reflexivity. Qed.

(** ** The P/E snapshot of a fetch *)



(** ** Gap detection *)

Lemma parse_rows_Forall (rows : list string) (dates : list datetime) :
  parse_rows rows = Ok dates ->
  Forall (fun d => exists s, strptime s = Some d) dates.
Proof.
  unfold parse_rows. revert dates.
  induction rows as [| s rows IH]; simpl; intros dates E.
  - injection E as <-. constructor.
  - destruct (strptime s) as [d |] eqn:S; simpl in E; [| discriminate].
    destruct (map_result _ rows) as [ds | e]; [| discriminate].
    injection E as <-. constructor; [eauto | apply IH; reflexivity].
Qed.

Lemma add_days_shift_day (d : datetime) (n : Z) :
  1 <= toordinal d + n <= _MAXORDINAL -> add_days d n = Ok (shift_day d n).
Proof.
  intros H. unfold add_days, shift_day.
  replace ((0 <? toordinal d + n) && (toordinal d + n <=? _MAXORDINAL)) with true.
  - destruct (_ord2ymd (toordinal d + n)) as [[y m] dd]. reflexivity.
  - symmetry. apply andb_true_intro. split; [apply Z.ltb_lt | apply Z.leb_le]; lia.
Qed.

(** One iteration of the loop on two parsed neighbours. *)
Lemma missing_range_step_parsed (dates : list datetime) (acc : list (string * string))
    (i : nat) (a b : datetime) :
  nth_error dates i = Some a -> nth_error dates (i + 1) = Some b ->
  (exists s, strptime s = Some a) -> (exists s, strptime s = Some b) ->
  missing_range_step dates (Ok acc) i
  = Ok (acc ++ (if 1 <? toordinal b - toordinal a then
                  [(strftime (shift_day a 1), strftime (shift_day b (-1)))]
                else [])).
Proof.
  intros Na Nb [sa Sa] [sb Sb]. unfold missing_range_step. rewrite Na, Nb.
  apply strptime_valid in Sa, Sb.
  destruct Sa as (Va & ? & ? & ? & ?). destruct Sb as (Vb & ? & ? & ? & ?).
  rewrite sub_days_midnight by assumption.
  pose proof (toordinal_bounds a Va). pose proof (toordinal_bounds b Vb).
  destruct (1 <? toordinal b - toordinal a) eqn:G.
  - apply Z.ltb_lt in G.
    rewrite (add_days_shift_day a 1), (add_days_shift_day b (-1)) by lia.
    reflexivity.
  - rewrite app_nil_r. reflexivity.
Qed.

Lemma missing_ranges_loop (pre rest : list datetime) (acc : list (string * string)) :
  Forall (fun d => exists s, strptime s = Some d) rest ->
  fold_left (missing_range_step (pre ++ rest))
            (seq (List.length pre) (List.length rest - 1)) (Ok acc)
  = Ok (acc ++ calendar_gaps rest).
Proof.
  revert pre acc. induction rest as [| a rest IH]; intros pre acc F.
  - simpl. rewrite app_nil_r. reflexivity.
  - destruct rest as [| b rest].
    + simpl. rewrite app_nil_r. reflexivity.
    + inversion F as [| ? ? Fa F']; subst. inversion F' as [| ? ? Fb F'']; subst.
      replace (List.length (a :: b :: rest) - 1)%nat with (S (List.length rest))
        by (simpl; lia).
      cbn [seq fold_left].
      rewrite (missing_range_step_parsed _ acc _ a b); try assumption.
      * specialize (IH (pre ++ [a]) (acc ++ (if 1 <? toordinal b - toordinal a
                          then [(strftime (shift_day a 1), strftime (shift_day b (-1)))]
                          else [])) F').
        rewrite <- app_assoc in IH. simpl in IH.
        rewrite length_app in IH. simpl in IH.
        replace (List.length pre + 1)%nat with (S (List.length pre)) in IH by lia.
        replace (List.length rest - 0)%nat with (List.length rest) in IH by lia.
        rewrite IH. rewrite <- app_assoc. reflexivity.
      * rewrite nth_error_app2 by lia. rewrite Nat.sub_diag. reflexivity.
      * rewrite nth_error_app2 by lia.
        replace (List.length pre + 1 - List.length pre)%nat with 1%nat by lia.
        reflexivity.
Qed.

(** C3: on the ascending sequence of the dates stored for a key, gap
    detection returns, in order, for each consecutive pair more than one
    calendar day apart the range (previous date + 1 day, next date - 1 day),
    and nothing else; on 2023-01-01, 2023-01-02, 2023-01-04 it returns the
    single range (2023-01-03, 2023-01-03).  The store is only read. *)
Theorem C3_gap_detection (w : World) (symbol : string) :
  (forall dates,
      parse_rows (select_dates_asc (stocks w) symbol) = Ok dates ->
      _get_missing_date_ranges_stock symbol w = (w, Ok (calendar_gaps dates)))
  /\ (select_dates_asc (stocks w) symbol = ["2023-01-01"; "2023-01-02"; "2023-01-04"] ->
      _get_missing_date_ranges_stock symbol w = (w, Ok [("2023-01-03", "2023-01-03")])).
Proof.
  assert (G : forall dates,
             parse_rows (select_dates_asc (stocks w) symbol) = Ok dates ->
             _get_missing_date_ranges_stock symbol w = (w, Ok (calendar_gaps dates))).
  { intros dates E.
    unfold _get_missing_date_ranges_stock, bind, get, lift_result, ret.
    destruct (select_dates_asc (stocks w) symbol) as [| s rows] eqn:R.
    - injection E as <-. reflexivity.
    - fold (parse_rows (s :: rows)). rewrite E.
      pose proof (missing_ranges_loop [] dates [] (parse_rows_Forall _ _ E)) as L.
      simpl in L. rewrite L. reflexivity. }
  split; [exact G |].
  intros R. rewrite (G [mk_datetime 2023 1 1 0 0 0 0; mk_datetime 2023 1 2 0 0 0 0;
                        mk_datetime 2023 1 4 0 0 0 0]).
  - reflexivity.
  - rewrite R. reflexivity.
Qed.

(** C10: the stock routine and the national-debt routine return the same
    list of missing ranges (or raise the same exception) whenever the two
    tables give them the same ascending sequence of date texts. *)
Theorem C10_stock_and_debt_gap_detection_agree (w : World) (symbol nation : string) :
  select_dates_asc (stocks w) symbol = select_dates_asc (national_debt w) nation ->
  _get_missing_date_ranges_stock symbol w = _get_missing_date_ranges_debt nation w.
Proof.
  intros E.
  unfold _get_missing_date_ranges_stock, _get_missing_date_ranges_debt,
    bind, get, lift_result, ret.
  rewrite E.
  destruct (select_dates_asc (national_debt w) nation) as [| s rows]; [reflexivity |].
  destruct (map_result _ (s :: rows)) as [dates | e]; [| reflexivity].
  reflexivity.
Qed.

(** ** Upserts *)

Lemma apply_upserts_unique {V : Type} (ups : list (string * string * V)) (t : table V) :
  unique_key_date t -> unique_key_date (apply_upserts t ups).
Proof.
  revert t. induction ups as [| [[k d] v] ups IH]; simpl; intros t U; [exact U |].
  apply IH, unique_insert_or_replace, U.
Qed.

Lemma apply_upserts_select_row {V : Type} (ups : list (string * string * V))
    (t : table V) (k d : string) :
  match last_upsert ups k d with
  | Some v => map cols (select_row (apply_upserts t ups) k d) = [v]
  | None => select_row (apply_upserts t ups) k d = select_row t k d
  end.
Proof.
  revert t. induction ups as [| [[k' d'] v'] ups IH]; intros t; [reflexivity |].
  specialize (IH (insert_or_replace t k' d' v')).
  change (apply_upserts t ((k', d', v') :: ups))
    with (apply_upserts (insert_or_replace t k' d' v') ups).
  cbn [last_upsert].
  destruct (last_upsert ups k d) as [v |]; [exact IH |].
  rewrite IH.
  destruct ((k' =? k)%string && (d' =? d)%string) eqn:E.
  - apply andb_prop in E. destruct E as [E1 E2].
    apply String.eqb_eq in E1, E2. subst k' d'.
    rewrite select_row_insert_same. reflexivity.
  - apply select_row_insert_other. intros Eq. injection Eq as -> ->.
    rewrite !String.eqb_refl in E. discriminate.
Qed.

(** C2: after any sequence of upserts on a table that satisfies
    [UNIQUE(key, date)], the constraint still holds, so a pair selects at most
    one row; for a pair named by some upsert that row has exactly the values
    of the last such upsert, all columns replaced, and a pair named by none
    keeps the row it had. *)
Theorem C2_upsert_keeps_pairs_unique_last_write_wins {V : Type}
    (t : table V) (ups : list (string * string * V)) :
  unique_key_date t ->
  unique_key_date (apply_upserts t ups)
  /\ forall k d,
       (List.length (select_row (apply_upserts t ups) k d) <= 1)%nat
       /\ match last_upsert ups k d with
          | Some v => map cols (select_row (apply_upserts t ups) k d) = [v]
          | None => select_row (apply_upserts t ups) k d = select_row t k d
          end.
Proof.
  intros U. pose proof (apply_upserts_unique ups t U) as U'.
  split; [exact U' |]. intros k d. split.
  - apply unique_select_row, U'.
  - apply apply_upserts_select_row.
Qed.

(** ** Adding a tracked stock *)

Lemma upper_char_idem (c : ascii) : upper_char (upper_char c) = upper_char c.
Proof.
  unfold upper_char.
  destruct ((97 <=? N_of_ascii c)%N && (N_of_ascii c <=? 122)%N) eqn:E.
  - apply andb_prop in E. destruct E as [E1 E2].
    apply N.leb_le in E1, E2.
    rewrite N_ascii_embedding by lia.
    replace ((97 <=? N_of_ascii c - 32)%N) with false; [reflexivity |].
    symmetry. apply N.leb_gt. lia.
  - rewrite E. reflexivity.
Qed.

Lemma upper_idem (s : string) : upper (upper s) = upper s.
Proof.
  induction s as [| c s IH]; simpl; [reflexivity |].
  rewrite upper_char_idem, IH. reflexivity.
Qed.

Lemma update_existing_found (stock sd ed : string) (l1 l2 : list entry) (e : entry) :
  upper (name e) = upper stock ->
  (forall x, In x l1 -> upper (name x) <> upper stock) ->
  update_existing stock sd ed (l1 ++ e :: l2)
  = Some (l1 ++ mk_entry (name e) sd (Some ed) :: l2).
Proof.
  intros E N. induction l1 as [| a l1 IH]; simpl.
  - rewrite E, String.eqb_refl. reflexivity.
  - replace (upper (name a) =? upper stock)%string with false.
    + rewrite IH; [reflexivity |]. intros x Hx. apply N. right. exact Hx.
    + symmetry. apply String.eqb_neq. apply N. left. reflexivity.
Qed.

Lemma update_existing_absent (stock sd ed : string) (l : list entry) :
  (forall x, In x l -> upper (name x) <> upper stock) ->
  update_existing stock sd ed l = None.
Proof.
  intros N. induction l as [| a l IH]; simpl; [reflexivity |].
  replace (upper (name a) =? upper stock)%string with false.
  - rewrite IH; [reflexivity |]. intros x Hx. apply N. right. exact Hx.
  - symmetry. apply String.eqb_neq. apply N. left. reflexivity.
Qed.

(** ** One iteration of each loop, as a function of the state *)

Lemma update_missing_stock_eq (P : Provider) (e : entry) (w : World) :
  update_missing_stock P e w =
  match truthy (select_max_date (stocks w) (name e)) with
  | None => (w, Ok tt)
  | Some L =>
      match strptime L with
      | None => (w, Raise ValueError)
      | Some Ld =>
          match add_days Ld 1 with
          | Raise x => (w, Raise x)
          | Ok start =>
              let w1 := add_request (name e, strftime start, strftime (now P)) w in
              match fetched_stock P (name e) start with
              | Raise x => (w1, Raise x)
              | Ok sd =>
                  (set_stocks (upsert_all stock_cols_of (Stock_name sd)
                                 (written (Stock_data sd)) (stocks w)) w1,
                   all_bound (Stock_data sd))
              end
          end
      end
  end.
Proof.
  unfold update_missing_stock, bind, get, lift_option, lift_result, ret, raise.
  destruct (truthy (select_max_date (stocks w) (name e))) as [L |]; [| reflexivity].
  destruct (strptime L) as [Ld |]; [| reflexivity].
  destruct (add_days Ld 1) as [start | x]; [| reflexivity].
  rewrite capture_stock_eq.
  destruct (fetched_stock P (name e) start) as [sd | x]; [| reflexivity].
  rewrite insert_stock_data_eq. reflexivity.
Qed.

Lemma update_missing_debt_eq (P : Provider) (e : entry) (w : World) :
  update_missing_debt P e w =
  match truthy (select_max_date (national_debt w) (name e)) with
  | None => (w, Ok tt)
  | Some L =>
      match strptime L with
      | None => (w, Raise ValueError)
      | Some Ld =>
          match add_days Ld 1 with
          | Raise x => (w, Raise x)
          | Ok start =>
              let w1 :=
                add_request (proxy_symbol (name e), strftime start, strftime (now P)) w in
              match fetched_debt P (name e) start with
              | Raise x => (w1, Raise x)
              | Ok dd =>
                  (set_national_debt
                     (upsert_all (fun y => y) (name e) (NationDebt_data dd)
                        (national_debt w)) w1,
                   Ok tt)
              end
          end
      end
  end.
Proof.
  unfold update_missing_debt, bind, get, lift_option, lift_result, ret, raise.
  destruct (truthy (select_max_date (national_debt w) (name e))) as [L |];
    [| reflexivity].
  destruct (strptime L) as [Ld |]; [| reflexivity].
  destruct (add_days Ld 1) as [start | x]; [| reflexivity].
  rewrite capture_national_debt_eq.
  destruct (fetched_debt P (name e) start) as [dd | x]; [| reflexivity].
  rewrite insert_debt_data_eq. reflexivity.
Qed.

Lemma process_stock_data_eq (P : Provider) (e : entry) (w : World) :
  _process_stock_data e (capture_stock P) w =
  match strptime (start_date e) with
  | None => (w, Raise ValueError)
  | Some start =>
      let w1 := add_request (name e, strftime start, strftime (now P)) w in
      match fetched_stock P (name e) start with
      | Raise x => (w1, Raise x)
      | Ok sd =>
          (set_stocks (upsert_all stock_cols_of (Stock_name sd)
                         (written (Stock_data sd)) (stocks w)) w1,
           all_bound (Stock_data sd))
      end
  end.
Proof.
  unfold _process_stock_data, bind, lift_option, ret, raise.
  destruct (strptime (start_date e)) as [start |]; [| reflexivity].
  rewrite capture_stock_eq.
  destruct (fetched_stock P (name e) start) as [sd | x]; [| reflexivity].
  rewrite insert_stock_data_eq. reflexivity.
Qed.

Lemma process_national_debt_data_eq (P : Provider) (e : entry) (w : World) :
  _process_national_debt_data e (capture_national_debt P) w =
  match strptime (start_date e) with
  | None => (w, Raise ValueError)
  | Some start =>
      let w1 :=
        add_request (proxy_symbol (name e), strftime start, strftime (now P)) w in
      match fetched_debt P (name e) start with
      | Raise x => (w1, Raise x)
      | Ok dd =>
          (set_national_debt
             (upsert_all (fun y => y) (name e) (NationDebt_data dd) (national_debt w)) w1,
           Ok tt)
      end
  end.
Proof.
  unfold _process_national_debt_data, bind, lift_option, ret, raise.
  destruct (strptime (start_date e)) as [start |]; [| reflexivity].
  rewrite capture_national_debt_eq.
  destruct (fetched_debt P (name e) start) as [dd | x]; [| reflexivity].
  rewrite insert_debt_data_eq. reflexivity.
Qed.

Lemma update_stock_preprocess_eq (e : entry) (w : World) :
  _update_stock_preprocess e w =
  match select_max_date (stocks w) (name e) with
  | None => (w, Ok e)
  | Some L =>
      match strptime L with
      | None => (w, Raise ValueError)
      | Some _ =>
          (set_stocks (delete_where (stocks w) (name e) L) w,
           Ok (mk_entry (name e) L (end_date e)))
      end
  end.
Proof.
  unfold _update_stock_preprocess, bind, get, modify, lift_option, ret, raise.
  destruct (select_max_date (stocks w) (name e)) as [L |]; [| reflexivity].
  destruct (strptime L); reflexivity.
Qed.

Lemma update_debt_preprocess_eq (e : entry) (w : World) :
  _update_debt_preprocess e w =
  match select_max_date (national_debt w) (name e) with
  | None => (w, Ok e)
  | Some L =>
      match strptime L with
      | None => (w, Raise ValueError)
      | Some _ =>
          (set_national_debt (delete_where (national_debt w) (name e) L) w,
           Ok (mk_entry (name e) L (end_date e)))
      end
  end.
Proof.
  unfold _update_debt_preprocess, bind, get, modify, lift_option, ret, raise.
  destruct (select_max_date (national_debt w) (name e)) as [L |]; [| reflexivity].
  destruct (strptime L); reflexivity.
Qed.

(** [capture_data] and [update_data] leave the configuration file alone. *)
Lemma process_toml_config_toml (P : Provider) (pre_s pre_d : option (entry -> M entry))
    (w : World) :
  (forall f e w0, pre_s = Some f -> toml_file (fst (f e w0)) = toml_file w0) ->
  (forall f e w0, pre_d = Some f -> toml_file (fst (f e w0)) = toml_file w0) ->
  toml_file
    (fst (process_toml_config (capture_stock P) (capture_national_debt P) pre_s pre_d w))
  = toml_file w.
Proof.
  intros Hs Hd. unfold process_toml_config, bind, get.
  set (I := fun w0 : World => toml_file w0 = toml_file w).
  assert (S : forall l w0, I w0 ->
            I (fst (for_each l (process_stock_entry (capture_stock P) pre_s) w0))).
  { intros l. apply for_each_invariant. intros e w0 _ H0. unfold I in *.
    unfold process_stock_entry, bind.
    destruct pre_s as [f |].
    - specialize (Hs f e w0 eq_refl).
      destruct (f e w0) as [w1 [e1 | x]]; simpl in Hs; [| simpl; congruence].
      rewrite process_stock_data_eq.
      destruct (strptime (start_date e1)); [| simpl; congruence].
      cbv zeta. destruct (fetched_stock P (name e1) d); simpl; congruence.
    - unfold ret. rewrite process_stock_data_eq.
      destruct (strptime (start_date e)); [| simpl; congruence].
      cbv zeta. destruct (fetched_stock P (name e) d); simpl; congruence. }
  assert (D : forall l w0, I w0 ->
            I (fst (for_each l (process_debt_entry (capture_national_debt P) pre_d) w0))).
  { intros l. apply for_each_invariant. intros e w0 _ H0. unfold I in *.
    unfold process_debt_entry, bind.
    destruct pre_d as [f |].
    - specialize (Hd f e w0 eq_refl).
      destruct (f e w0) as [w1 [e1 | x]]; simpl in Hd; [| simpl; congruence].
      rewrite process_national_debt_data_eq.
      destruct (strptime (start_date e1)); [| simpl; congruence].
      cbv zeta. destruct (fetched_debt P (name e1) d); simpl; congruence.
    - unfold ret. rewrite process_national_debt_data_eq.
      destruct (strptime (start_date e)); [| simpl; congruence].
      cbv zeta. destruct (fetched_debt P (name e) d); simpl; congruence. }
  assert (S' : forall w0, I w0 ->
            I (fst (match cfg_stocks (toml_file w) with
                    | Some l => for_each l (process_stock_entry (capture_stock P) pre_s)
                    | None => ret tt
                    end w0))).
  { intros w0 H0. destruct (cfg_stocks (toml_file w)); [apply S, H0 | exact H0]. }
  specialize (S' w eq_refl).
  destruct (match cfg_stocks (toml_file w) with
            | Some l => for_each l (process_stock_entry (capture_stock P) pre_s)
            | None => ret tt
            end w) as [w1 [u | x]]; simpl in S'; [| exact S'].
  destruct (cfg_national_debt (toml_file w)); [apply D, S' | exact S'].
Qed.

Lemma capture_data_toml (P : Provider) (w : World) :
  toml_file (fst (capture_data_conn P w)) = toml_file w.
Proof.
  unfold capture_data_conn. apply process_toml_config_toml; discriminate.
Qed.

Lemma capture_data_file_toml (P : Provider) (w : World) :
  toml_file (fst (capture_data P w)) = toml_file w.
Proof.
  unfold capture_data. rewrite (proj1 (with_connection_kept _ w)).
  apply capture_data_toml.
Qed.

(** C7, as the code has it: [add] matches the tracked stocks without regard
    to case.  When an entry matches, the first such entry gets the new start
    and end dates, keeps the key it was stored with, and nothing is appended
    (so adding "aapl" when "AAPL" is tracked updates the "AAPL" entry); when
    none matches, one entry is appended whose key is the upper-cased symbol.
    The list [add_command] saves is that list. *)
Theorem C7_add_matches_ignoring_case (P : Provider) (stock start_date : string)
    (start : datetime) (w : World) :
  strptime start_date = Some start ->
  let l := match cfg_stocks (toml_file w) with
           | Some l => l
           | None => []
           end in
  let end_date := strftime (now P) in
  cfg_stocks (toml_file (fst (add_command P stock start_date w)))
  = Some (add_stock stock start_date end_date l)
  /\ (forall l1 e l2,
        l = l1 ++ e :: l2 ->
        upper (name e) = upper stock ->
        (forall x, In x l1 -> upper (name x) <> upper stock) ->
        add_stock stock start_date end_date l
        = l1 ++ mk_entry (name e) start_date (Some end_date) :: l2)
  /\ ((forall x, In x l -> upper (name x) <> upper stock) ->
      add_stock stock start_date end_date l
      = l ++ [mk_entry (upper stock) start_date (Some end_date)])
  /\ upper (upper stock) = upper stock.
Proof.
  intros S l end_date. split; [| split; [| split]].
  - unfold add_command. rewrite S. unfold bind, get, modify.
    fold l. fold end_date.
    set (w1 := set_toml _ w).
    pose proof (capture_data_file_toml P w1) as T.
    destruct (capture_data P w1) as [w2 [u | x]]; simpl in *; rewrite T; reflexivity.
  - intros l1 e l2 -> E N. unfold add_stock.
    rewrite (update_existing_found _ _ _ _ _ _ E N). reflexivity.
  - intros N. unfold add_stock. rewrite (update_existing_absent _ _ _ _ N).
    reflexivity.
  - apply upper_idem.
Qed.

(** C7 as the specification words it fails: the entry that an add writes can
    keep a key that is not upper case. *)
Lemma C7_written_key_not_upper_cased :
  add_stock "AAPL" "2024-01-01" "2024-02-02" [mk_entry "aapl" "2023-01-01" None]
  = [mk_entry "aapl" "2024-01-01" (Some "2024-02-02")]
  /\ "aapl" <> upper "aapl".
Proof. split; [reflexivity | discriminate]. Qed.

Lemma C7_witness :
  strptime "2024-01-01" = Some (mk_datetime 2024 1 1 0 0 0 0)
  /\ cfg_stocks (toml_file (fst (add_command sample_provider "aapl" "2024-01-01"
                                   sample_world)))
     = Some [mk_entry "AAPL" "2024-01-01" (Some "2023-01-06")].
Proof.
  split; [reflexivity |].
  exact (proj1 (C7_add_matches_ignoring_case sample_provider "aapl" "2024-01-01"
                  (mk_datetime 2024 1 1 0 0 0 0) sample_world eq_refl)).
Defined.

(** ** A tracked key without rows *)

Lemma update_missing_stock_no_row (P : Provider) (e : entry) (w : World) :
  select_max_date (stocks w) (name e) = None ->
  update_missing_stock P e w = (w, Ok tt).
Proof. intros H. rewrite update_missing_stock_eq, H. reflexivity. Qed.

(** C1 fails on the code: for MSFT, tracked from 2023-01-01 with no row
    stored, [update_missing_data] sends no request and writes no row, in the
    file or on its connection, while the provider has three bars that a full
    capture ([capture_data]) from the configured start date requests and
    writes on its connection. *)
Theorem C1_key_without_rows_is_skipped :
  update_missing_data sample_provider empty_key_world = (empty_key_world, Ok tt)
  /\ update_missing_data_conn sample_provider empty_key_world = (empty_key_world, Ok tt)
  /\ requests (fst (capture_data sample_provider empty_key_world))
     = [("MSFT", "2023-01-01", "2023-01-06")]
  /\ map date (rows (stocks (fst (capture_data_conn sample_provider empty_key_world))))
     = ["2023-01-03"; "2023-01-04"; "2023-01-05"].
Proof. vm_compute. repeat split. Qed.

(** ** Incremental append: what a run may do to the tables *)

Lemma truthy_Some (o : option string) (L : string) :
  truthy o = Some L -> o = Some L.
Proof.
  destruct o as [[| c s] |]; simpl; congruence.
Qed.

Lemma truthy_parsed (L : string) (Ld : datetime) :
  strptime L = Some Ld -> truthy (Some L) = Some L.
Proof.
  destruct L; [discriminate | reflexivity].
Qed.

Lemma update_missing_stock_appended (P : Provider) (e : entry) (w : World) :
  appended stock_cols_of (stock_items P (name e)) (name e)
           (stocks w) (stocks (fst (update_missing_stock P e w)))
  /\ national_debt (fst (update_missing_stock P e w)) = national_debt w
  /\ toml_file (fst (update_missing_stock P e w)) = toml_file w.
Proof.
  rewrite update_missing_stock_eq. unfold appended.
  destruct (truthy (select_max_date (stocks w) (name e))) as [L |] eqn:T;
    [| simpl; auto].
  apply truthy_Some in T.
  destruct (strptime L) as [Ld |] eqn:S; [| simpl; auto].
  destruct (add_days Ld 1) as [start | x] eqn:A; [| simpl; auto].
  cbv zeta.
  destruct (fetched_stock P (name e) start) as [sd | x] eqn:F; [| simpl; auto].
  simpl. split; [| auto]. right.
  exists L, Ld, start, (written (Stock_data sd)).
  unfold stock_items. rewrite F.
  apply fetched_stock_spec in F. destruct F as [-> _]. auto.
Qed.

Lemma update_missing_debt_appended (P : Provider) (e : entry) (w : World) :
  appended (fun y => y) (debt_items P (name e)) (name e)
           (national_debt w) (national_debt (fst (update_missing_debt P e w)))
  /\ stocks (fst (update_missing_debt P e w)) = stocks w
  /\ toml_file (fst (update_missing_debt P e w)) = toml_file w.
Proof.
  rewrite update_missing_debt_eq. unfold appended.
  destruct (truthy (select_max_date (national_debt w) (name e))) as [L |] eqn:T;
    [| simpl; auto].
  apply truthy_Some in T.
  destruct (strptime L) as [Ld |] eqn:S; [| simpl; auto].
  destruct (add_days Ld 1) as [start | x] eqn:A; [| simpl; auto].
  cbv zeta.
  destruct (fetched_debt P (name e) start) as [dd | x] eqn:F; [| simpl; auto].
  simpl. split; [| auto]. right.
  exists L, Ld, start, (NationDebt_data dd).
  unfold debt_items. rewrite F. auto.
Qed.

Lemma update_missing_data_loops (P : Provider) (w : World) :
  update_missing_data_conn P w
  = (for_each (tracked (cfg_stocks (toml_file w))) (update_missing_stock P) ;;;
     for_each (tracked (cfg_national_debt (toml_file w))) (update_missing_debt P)) w.
Proof.
  unfold update_missing_data_conn, bind, get.
  destruct (cfg_stocks (toml_file w)), (cfg_national_debt (toml_file w)); reflexivity.
Qed.

(** A property of the two tables that every iteration keeps holds after
    [update_missing_data], however the run ends. *)
Lemma update_missing_data_invariant (P : Provider) (w : World)
    (IS : table stock_cols -> Prop) (ID : table float -> Prop) :
  (forall e t t', In e (tracked (cfg_stocks (toml_file w))) ->
                  appended stock_cols_of (stock_items P (name e)) (name e) t t' ->
                  IS t -> IS t') ->
  (forall e t t', In e (tracked (cfg_national_debt (toml_file w))) ->
                  appended (fun y => y) (debt_items P (name e)) (name e) t t' ->
                  ID t -> ID t') ->
  IS (stocks w) -> ID (national_debt w) ->
  IS (stocks (fst (update_missing_data_conn P w)))
  /\ ID (national_debt (fst (update_missing_data_conn P w)))
  /\ toml_file (fst (update_missing_data_conn P w)) = toml_file w.
Proof.
  intros HS HD IS0 ID0.
  set (I := fun w0 : World =>
              IS (stocks w0) /\ ID (national_debt w0) /\ toml_file w0 = toml_file w).
  change (I (fst (update_missing_data_conn P w))).
  assert (I0 : I w) by (unfold I; auto).
  rewrite update_missing_data_loops. unfold bind.
  assert (LS : I (fst (for_each (tracked (cfg_stocks (toml_file w)))
                         (update_missing_stock P) w))).
  { apply for_each_invariant; [| exact I0]. intros e w0 In_e (H1 & H2 & H3).
    destruct (update_missing_stock_appended P e w0) as (A1 & A2 & A3).
    unfold I. rewrite A2, A3. split; [| auto]. eapply HS; eassumption. }
  destruct (for_each (tracked (cfg_stocks (toml_file w))) (update_missing_stock P) w)
    as [w1 [u | x]]; simpl in LS; [| exact LS].
  apply for_each_invariant; [| exact LS]. intros e w0 In_e (H1 & H2 & H3).
  destruct (update_missing_debt_appended P e w0) as (A1 & A2 & A3).
  unfold I. rewrite A2, A3. split; [auto |]. split; [| auto].
  eapply HD; eassumption.
Qed.

(** What the provider's contract gives for the items of a fetch. *)
Lemma midnight_toordinal (d : datetime) :
  toordinal (mk_datetime (year d) (month d) (day d) 0 0 0 0) = toordinal d.
Proof. reflexivity. Qed.

Lemma stock_items_dated_from (P : Provider) (k : string) (start : datetime)
    (items : list (datetime * Price)) :
  honours_start P ->
  valid_ymd (year start) (month start) (day start) = true ->
  stock_items P k start = Some items ->
  dated_from (toordinal start) items.
Proof.
  intros H V E. unfold stock_items in E.
  destruct (fetched_stock P k start) as [sd | x] eqn:F; [| discriminate].
  injection E as <-. apply fetched_stock_spec in F.
  destruct F as (_ & hist & Hh & Hin).
  intros dt price I. apply in_written in I. destruct (Hin dt price I) as [row Ir].
  destruct (H _ _ _ _ _ _ _ Hh (strptime_strftime start V) Ir) as [Vd Od].
  rewrite midnight_toordinal in Od. auto.
Qed.

Lemma debt_items_dated_from (P : Provider) (k : string) (start : datetime)
    (items : list (datetime * float)) :
  honours_start P ->
  valid_ymd (year start) (month start) (day start) = true ->
  debt_items P k start = Some items ->
  dated_from (toordinal start) items.
Proof.
  intros H V E. unfold debt_items in E.
  destruct (fetched_debt P k start) as [dd | x] eqn:F; [| discriminate].
  injection E as <-. apply fetched_debt_spec in F.
  destruct F as (hist & Hh & Hin).
  intros dt y I. destruct (Hin dt y I) as [row Ir].
  destruct (H _ _ _ _ _ _ _ Hh (strptime_strftime start V) Ir) as [Vd Od].
  rewrite midnight_toordinal in Od. auto.
Qed.

Section Frame.
Context {V A : Type}.
Implicit Types (t : table V) (r : row V) (f : A -> V).

(** A row dated before [bound] is not touched when items dated from [bound]
    on are written, and the latest date of its key stays at or after [bound]. *)
Lemma kept_before_upsert_all f (k : string) (items : list (datetime * A)) t r
    (bound : Z) (D : datetime) :
  strptime (date r) = Some D -> toordinal D < bound ->
  (k = key r -> dated_from bound items) ->
  kept_before r bound t -> kept_before r bound (upsert_all f k items t).
Proof.
  intros SD DB HI [In_r Max].
  destruct (String.eqb_spec k (key r)) as [E | Ne].
  - specialize (HI E). subst k. split.
    + apply in_upsert_all_frame; [exact In_r |].
      intros dt a I. apply matches_false. intros [_ Ed].
      destruct (HI dt a I) as [Vd Od].
      pose proof (strptime_strftime dt Vd) as R. rewrite <- Ed, SD in R.
      injection R as ->. rewrite midnight_toordinal in DB. lia.
    + intros L Ld ML SL.
      apply select_max_date_upsert_all in ML.
      destruct ML as [ML | (dt & a & I & ->)]; [eapply Max; eassumption |].
      destruct (HI dt a I) as [Vd Od].
      rewrite (strptime_strftime dt Vd) in SL. injection SL as <-.
      rewrite midnight_toordinal. exact Od.
  - assert (R : filter (of_key (key r)) (rows (upsert_all f k items t))
                = filter (of_key (key r)) (rows t))
      by (apply rows_of_key_upsert_all_other; congruence).
    split.
    + eapply in_rows_of_key; [exact R | reflexivity | exact In_r].
    + intros L Ld ML. rewrite (select_max_date_rows_of_key _ _ _ R) in ML.
      apply Max, ML.
Qed.

Lemma kept_before_appended f (fetch : datetime -> option (list (datetime * A)))
    (k : string) t t' r (bound : Z) (D : datetime) :
  (forall start items,
      valid_ymd (year start) (month start) (day start) = true ->
      fetch start = Some items -> dated_from (toordinal start) items) ->
  strptime (date r) = Some D -> toordinal D < bound ->
  appended f fetch k t t' ->
  kept_before r bound t -> kept_before r bound t'.
Proof.
  intros HF SD DB [-> | (L & Ld & start & items & ML & SL & AD & F & ->)] K;
    [exact K |].
  apply (kept_before_upsert_all f k items t r bound D SD DB); [| exact K].
  intros ->. destruct K as [_ Max]. specialize (Max L Ld ML SL).
  apply add_days_spec in AD. destruct AD as (Vs & Os & _).
  intros dt a I. destruct (HF start items Vs F dt a I) as [Vd Od].
  split; [exact Vd | lia].
Qed.
End Frame.

(** ** Requests sent during a run *)

Lemma grows_refl (w : World) : grows w w.
Proof. exists []. rewrite app_nil_r. reflexivity. Qed.

Lemma grows_trans (w1 w2 w3 : World) : grows w1 w2 -> grows w2 w3 -> grows w1 w3.
Proof.
  intros [n1 E1] [n2 E2]. exists (n1 ++ n2). rewrite E2, E1, app_assoc. reflexivity.
Qed.

Lemma requested_grows_l (w0 w1 w2 : World) (req : request) :
  grows w0 w1 -> requested w1 w2 req -> requested w0 w2 req.
Proof.
  intros [n1 E1] (n2 & E2 & I). exists (n1 ++ n2). split.
  - rewrite E2, E1, app_assoc. reflexivity.
  - apply in_or_app. auto.
Qed.

Lemma requested_grows_r (w0 w1 w2 : World) (req : request) :
  requested w0 w1 req -> grows w1 w2 -> requested w0 w2 req.
Proof.
  intros (n1 & E1 & I) [n2 E2]. exists (n1 ++ n2). split.
  - rewrite E2, E1, app_assoc. reflexivity.
  - apply in_or_app. auto.
Qed.

Lemma for_each_grows {A : Type} (body : A -> M unit) (l : list A) :
  (forall x w, grows w (fst (body x w))) ->
  forall w, grows w (fst (for_each l body w)).
Proof.
  intros Hb w.
  apply (for_each_invariant (fun w0 => grows w w0) body l); [| apply grows_refl].
  intros x w0 _ G. eapply grows_trans; [exact G | apply Hb].
Qed.

(** In a loop that ends normally, an entry of the key [k] is reached in a
    state where the property [I], kept by the entries of the other keys, still
    holds; the request it fires is among those of the loop. *)
Lemma for_each_requested (body : entry -> M unit) (I : World -> Prop)
    (k : string) (req : request) (l : list entry) :
  (forall x w, grows w (fst (body x w))) ->
  (forall x w, name x <> k -> I w -> I (fst (body x w))) ->
  (forall x w w2, name x = k -> I w -> body x w = (w2, Ok tt) -> requested w w2 req) ->
  forall e w w', In e l -> name e = k -> I w ->
    for_each l body w = (w', Ok tt) -> requested w w' req.
Proof.
  intros Hg Hi Hf e. induction l as [| x l IH]; intros w w' In_e Ne Iw E;
    [destruct In_e |].
  simpl in E. unfold bind in E.
  destruct (body x w) as [w1 [[] | err]] eqn:B; [| discriminate].
  pose proof (for_each_grows body l Hg w1) as G. rewrite E in G. simpl in G.
  destruct (String.eqb_spec (name x) k) as [Ex | Nx].
  - eapply requested_grows_r; [| exact G]. eapply Hf; eassumption.
  - destruct In_e as [-> | In_e]; [contradiction |].
    specialize (Hg x w) as G1. specialize (Hi x w Nx Iw) as I1.
    rewrite B in G1, I1. simpl in G1, I1.
    eapply requested_grows_l; [exact G1 |]. eapply IH; eassumption.
Qed.

Lemma update_missing_stock_grows (P : Provider) (e : entry) (w : World) :
  grows w (fst (update_missing_stock P e w)).
Proof.
  rewrite update_missing_stock_eq.
  destruct (truthy _) as [L |]; [| apply grows_refl].
  destruct (strptime L) as [Ld |]; [| apply grows_refl].
  destruct (add_days Ld 1) as [start | x]; [| apply grows_refl].
  cbv zeta. destruct (fetched_stock P (name e) start); simpl; eexists; reflexivity.
Qed.

Lemma update_missing_debt_grows (P : Provider) (e : entry) (w : World) :
  grows w (fst (update_missing_debt P e w)).
Proof.
  rewrite update_missing_debt_eq.
  destruct (truthy _) as [L |]; [| apply grows_refl].
  destruct (strptime L) as [Ld |]; [| apply grows_refl].
  destruct (add_days Ld 1) as [start | x]; [| apply grows_refl].
  cbv zeta. destruct (fetched_debt P (name e) start); simpl; eexists; reflexivity.
Qed.

Lemma appended_other_key {V A : Type} (f : A -> V)
    (fetch : datetime -> option (list (datetime * A))) (k k' : string)
    (t t' : table V) :
  k' <> k -> appended f fetch k t t' ->
  filter (of_key k') (rows t') = filter (of_key k') (rows t).
Proof.
  intros Ne [-> | (L & Ld & start & items & _ & _ & _ & _ & ->)]; [reflexivity |].
  apply rows_of_key_upsert_all_other, Ne.
Qed.

Lemma update_missing_stock_fires (P : Provider) (e : entry) (w w2 : World)
    (L : string) (Ld : datetime) :
  select_max_date (stocks w) (name e) = Some L -> strptime L = Some Ld ->
  update_missing_stock P e w = (w2, Ok tt) ->
  exists start,
    add_days Ld 1 = Ok start
    /\ requested w w2 (name e, strftime start, strftime (now P)).
Proof.
  intros ML SL. rewrite update_missing_stock_eq, ML, (truthy_parsed L Ld SL), SL.
  destruct (add_days Ld 1) as [start | x]; [| discriminate].
  cbv zeta. destruct (fetched_stock P (name e) start); [| discriminate].
  intros E. injection E as <-. exists start. split; [reflexivity |].
  exists [(name e, strftime start, strftime (now P))]. simpl. auto.
Qed.

Lemma update_missing_debt_fires (P : Provider) (e : entry) (w w2 : World)
    (L : string) (Ld : datetime) :
  select_max_date (national_debt w) (name e) = Some L -> strptime L = Some Ld ->
  update_missing_debt P e w = (w2, Ok tt) ->
  exists start,
    add_days Ld 1 = Ok start
    /\ requested w w2 (proxy_symbol (name e), strftime start, strftime (now P)).
Proof.
  intros ML SL. rewrite update_missing_debt_eq, ML, (truthy_parsed L Ld SL), SL.
  destruct (add_days Ld 1) as [start | x]; [| discriminate].
  cbv zeta. destruct (fetched_debt P (name e) start); [| discriminate].
  intros E. injection E as <-. exists start. split; [reflexivity |].
  exists [(proxy_symbol (name e), strftime start, strftime (now P))]. simpl. auto.
Qed.

Lemma add_days_is_shift_day (d d' : datetime) (n : Z) :
  add_days d n = Ok d' -> d' = shift_day d n.
Proof.
  unfold add_days, shift_day.
  destruct ((0 <? toordinal d + n) && (toordinal d + n <=? _MAXORDINAL));
    [| discriminate].
  destruct (_ord2ymd (toordinal d + n)) as [[y m] dd]. congruence.
Qed.

Lemma update_missing_stock_keeps_latest (P : Provider) (x : entry) (w : World)
    (k L : string) :
  name x <> k ->
  select_max_date (stocks w) k = Some L ->
  select_max_date (stocks (fst (update_missing_stock P x w))) k = Some L.
Proof.
  intros Ne ML. destruct (update_missing_stock_appended P x w) as (A & _ & _).
  rewrite (select_max_date_rows_of_key (stocks w) _ k); [exact ML |].
  eapply appended_other_key; [| exact A]. congruence.
Qed.

Lemma update_missing_debt_keeps_latest (P : Provider) (x : entry) (w : World)
    (k L : string) :
  name x <> k ->
  select_max_date (national_debt w) k = Some L ->
  select_max_date (national_debt (fst (update_missing_debt P x w))) k = Some L.
Proof.
  intros Ne ML. destruct (update_missing_debt_appended P x w) as (A & _ & _).
  rewrite (select_max_date_rows_of_key (national_debt w) _ k); [exact ML |].
  eapply appended_other_key; [| exact A]. congruence.
Qed.

(** A run that ends normally has asked the provider, for every tracked stock
    with a latest date, for the series from the day after that date. *)
Lemma update_missing_data_requests_stock (P : Provider) (w w' : World) (e : entry)
    (L : string) (Ld : datetime) :
  update_missing_data_conn P w = (w', Ok tt) ->
  In e (tracked (cfg_stocks (toml_file w))) ->
  select_max_date (stocks w) (name e) = Some L -> strptime L = Some Ld ->
  requested w w' (name e, strftime (shift_day Ld 1), strftime (now P)).
Proof.
  rewrite update_missing_data_loops. unfold bind. intros E In_e ML SL.
  destruct (for_each (tracked (cfg_stocks (toml_file w))) (update_missing_stock P) w)
    as [ws [[] | x]] eqn:LS; [| discriminate].
  pose proof (for_each_grows (update_missing_debt P)
                (tracked (cfg_national_debt (toml_file w)))
                (update_missing_debt_grows P) ws) as G.
  rewrite E in G. simpl in G.
  eapply requested_grows_r; [| exact G].
  eapply (for_each_requested (update_missing_stock P)
            (fun w0 => select_max_date (stocks w0) (name e) = Some L) (name e));
    try eassumption; try reflexivity.
  - apply update_missing_stock_grows.
  - intros x w0 Nx I0. apply update_missing_stock_keeps_latest; assumption.
  - intros x w0 w2 Ex I0 B. rewrite <- Ex in I0 |- *.
    destruct (update_missing_stock_fires P x w0 w2 L Ld I0 SL B) as (start & A & R).
    apply add_days_is_shift_day in A. subst start. exact R.
Qed.

Lemma update_missing_data_requests_debt (P : Provider) (w w' : World) (e : entry)
    (L : string) (Ld : datetime) :
  update_missing_data_conn P w = (w', Ok tt) ->
  In e (tracked (cfg_national_debt (toml_file w))) ->
  select_max_date (national_debt w) (name e) = Some L -> strptime L = Some Ld ->
  requested w w' (proxy_symbol (name e), strftime (shift_day Ld 1), strftime (now P)).
Proof.
  rewrite update_missing_data_loops. unfold bind. intros E In_e ML SL.
  pose proof (for_each_grows (update_missing_stock P)
                (tracked (cfg_stocks (toml_file w)))
                (update_missing_stock_grows P) w) as G.
  pose proof (for_each_invariant
                (fun w0 => national_debt w0 = national_debt w)
                (update_missing_stock P) (tracked (cfg_stocks (toml_file w)))) as K.
  specialize (K ltac:(intros x w0 _ H0;
                      destruct (update_missing_stock_appended P x w0) as (_ & -> & _);
                      exact H0) w eq_refl).
  destruct (for_each (tracked (cfg_stocks (toml_file w))) (update_missing_stock P) w)
    as [ws [[] | x]] eqn:LS; [| discriminate].
  simpl in G, K.
  eapply requested_grows_l; [exact G |].
  eapply (for_each_requested (update_missing_debt P)
            (fun w0 => select_max_date (national_debt w0) (name e) = Some L) (name e));
    try eassumption; try reflexivity.
  - apply update_missing_debt_grows.
  - intros x w0 Nx I0. apply update_missing_debt_keeps_latest; assumption.
  - intros x w0 w2 Ex I0 B. rewrite <- Ex in I0 |- *.
    destruct (update_missing_debt_fires P x w0 w2 L Ld I0 SL B) as (start & A & R).
    apply add_days_is_shift_day in A. subst start. exact R.
  - simpl. rewrite K. exact ML.
Qed.

(** ** Incremental append: the rows before the latest date *)

Lemma kept_before_initial {V : Type} (t : table V) (r : row V) (L : string)
    (Ld : datetime) :
  In r (rows t) -> select_max_date t (key r) = Some L -> strptime L = Some Ld ->
  kept_before r (toordinal Ld) t.
Proof.
  intros I ML SL. split; [exact I |].
  intros L' Ld' ML' SL'. rewrite ML in ML'. injection ML' as <-.
  rewrite SL in SL'. injection SL' as <-. lia.
Qed.

Lemma append_keeps_earlier_rows (P : Provider) (w : World)
    (e : entry) (L : string) (Ld : datetime) :
  honours_start P ->
  strptime L = Some Ld ->
  (In e (tracked (cfg_stocks (toml_file w))) ->
   select_max_date (stocks w) (name e) = Some L ->
   (snd (update_missing_data_conn P w) = Ok tt ->
    requested w (fst (update_missing_data_conn P w))
              (name e, strftime (shift_day Ld 1), strftime (now P)))
   /\ forall r D,
        In r (rows (stocks w)) -> key r = name e ->
        strptime (date r) = Some D -> toordinal D < toordinal Ld ->
        In r (rows (stocks (fst (update_missing_data_conn P w)))))
  /\ (In e (tracked (cfg_national_debt (toml_file w))) ->
      select_max_date (national_debt w) (name e) = Some L ->
      (snd (update_missing_data_conn P w) = Ok tt ->
       requested w (fst (update_missing_data_conn P w))
                 (proxy_symbol (name e), strftime (shift_day Ld 1), strftime (now P)))
      /\ forall r D,
           In r (rows (national_debt w)) -> key r = name e ->
           strptime (date r) = Some D -> toordinal D < toordinal Ld ->
           In r (rows (national_debt (fst (update_missing_data_conn P w))))).
Proof.
  intros H SL. split; intros In_e ML; split.
  - intros Ok_run. eapply update_missing_data_requests_stock; try eassumption.
    destruct (update_missing_data_conn P w) as [w' res]. simpl in *. congruence.
  - intros r D In_r Kr SD DB.
    destruct (update_missing_data_invariant P w
                (kept_before r (toordinal Ld)) (fun _ => True)) as ([I _] & _).
    + intros x t t' _ A. eapply kept_before_appended; try eassumption.
      intros start items. apply stock_items_dated_from, H.
    + auto.
    + eapply kept_before_initial; try eassumption. rewrite Kr. exact ML.
    + exact Logic.I.
    + exact I.
  - intros Ok_run. eapply update_missing_data_requests_debt; try eassumption.
    destruct (update_missing_data_conn P w) as [w' res]. simpl in *. congruence.
  - intros r D In_r Kr SD DB.
    destruct (update_missing_data_invariant P w
                (fun _ => True) (kept_before r (toordinal Ld))) as (_ & [I _] & _).
    + auto.
    + intros x t t' _ A. eapply kept_before_appended; try eassumption.
      intros start items. apply debt_items_dated_from, H.
    + exact Logic.I.
    + eapply kept_before_initial; try eassumption. rewrite Kr. exact ML.
    + exact I.
Qed.

(** C4: for a tracked key with a latest stored date, a run of incremental
    append that ends normally has requested the series from the day after
    that date; and however the run ends, every row of the key dated strictly
    before that date is still stored, with the rowid and values it had.  Both
    hold on the connection of the run and on the files once the run has
    returned. *)
Theorem C4_incremental_append_keeps_earlier_rows (P : Provider) (w : World)
    (run : M unit) (e : entry) (L : string) (Ld : datetime) :
  In run (views (update_missing_data_conn P)) ->
  honours_start P ->
  strptime L = Some Ld ->
  (In e (tracked (cfg_stocks (toml_file w))) ->
   select_max_date (stocks w) (name e) = Some L ->
   (snd (run w) = Ok tt ->
    requested w (fst (run w))
              (name e, strftime (shift_day Ld 1), strftime (now P)))
   /\ forall r D,
        In r (rows (stocks w)) -> key r = name e ->
        strptime (date r) = Some D -> toordinal D < toordinal Ld ->
        In r (rows (stocks (fst (run w)))))
  /\ (In e (tracked (cfg_national_debt (toml_file w))) ->
      select_max_date (national_debt w) (name e) = Some L ->
      (snd (run w) = Ok tt ->
       requested w (fst (run w))
                 (proxy_symbol (name e), strftime (shift_day Ld 1), strftime (now P)))
      /\ forall r D,
           In r (rows (national_debt w)) -> key r = name e ->
           strptime (date r) = Some D -> toordinal D < toordinal Ld ->
           In r (rows (national_debt (fst (run w))))).
Proof.
  intros R H SL. destruct (append_keeps_earlier_rows P w e L Ld H SL) as [CS CD].
  destruct R as [<- | [<- | []]]; [split; assumption |].
  rewrite with_connection_eq. simpl.
  split; intros In_e ML; split.
  - intros Ok_run. exact (proj1 (CS In_e ML) Ok_run).
  - intros r D In_r _ _ _. exact In_r.
  - intros Ok_run. exact (proj1 (CD In_e ML) Ok_run).
  - intros r D In_r _ _ _. exact In_r.
Qed.

(** ** Tables that hold the same rows *)

Section SameRows.
Context {V : Type}.
Implicit Types (t : table V) (r : row V) (k d : string) (v : V).

Lemma same_rows_refl t : same_rows t t.
Proof. apply Permutation_refl. Qed.

Lemma same_rows_sym t t' : same_rows t t' -> same_rows t' t.
Proof. apply Permutation_sym. Qed.

Lemma same_rows_trans t1 t2 t3 : same_rows t1 t2 -> same_rows t2 t3 -> same_rows t1 t3.
Proof. apply Permutation_trans. Qed.

Lemma keys_of_content (l : list (row V)) :
  map (fun r => (key r, date r)) l = map fst (map content l).
Proof. rewrite map_map. reflexivity. Qed.

Lemma same_rows_unique t t' :
  same_rows t t' -> unique_key_date t -> unique_key_date t'.
Proof.
  unfold same_rows, unique_key_date. rewrite !keys_of_content. intros S.
  apply Permutation_NoDup, Permutation_map, S.
Qed.

Lemma same_rows_holds t t' k d v : same_rows t t' -> holds t k d v -> holds t' k d v.
Proof. unfold holds. intros S. apply Permutation_in, S. Qed.

Lemma in_dates_of_content t k s :
  In s (dates_of t k) <-> exists v, In (k, s, v) (map content (rows t)).
Proof.
  rewrite in_dates_of. split.
  - intros (r & I & <- & <-). exists (cols r). apply in_map_iff. exists r. auto.
  - intros (v & I). apply in_map_iff in I. destruct I as (r & E & I).
    injection E as E1 E2 E3. eauto.
Qed.

Lemma same_rows_select_max_date t t' k :
  same_rows t t' -> select_max_date t k = select_max_date t' k.
Proof.
  intros S. unfold select_max_date. apply sql_max_ext. intros s.
  rewrite !in_dates_of_content. split; intros (v & I); exists v.
  - eapply Permutation_in; [exact S | exact I].
  - eapply Permutation_in; [apply Permutation_sym, S | exact I].
Qed.

(** Writing a row that is already stored with the same values leaves the
    same rows. *)
Lemma same_rows_insert_held t k d v :
  unique_key_date t -> holds t k d v -> same_rows (insert_or_replace t k d v) t.
Proof.
  unfold unique_key_date, holds, same_rows, insert_or_replace. simpl.
  generalize (next_id t) as i. intros i.
  induction (rows t) as [| a l IH]; simpl; intros N H; [destruct H |].
  inversion N as [| ? ? Hn N']; subst.
  destruct (matches k d a) eqn:Ma; simpl.
  - apply matches_true in Ma. destruct Ma as [<- <-].
    rewrite (filter_all _ l).
    + assert (E : content a = (key a, date a, v)).
      { destruct H as [E | I]; [exact E |].
        exfalso. apply Hn. apply in_map_iff in I. destruct I as (x & Ex & Ix).
        apply in_map_iff. exists x. injection Ex as -> -> _. auto. }
      rewrite E, map_app. simpl.
      apply Permutation_sym, Permutation_cons_append.
    + intros x Hx. apply negb_true_iff. apply (unique_no_other_match a l Hn x Hx).
  - constructor. apply IH; [exact N' |].
    destruct H as [E | I]; [| exact I].
    exfalso. apply matches_false in Ma. apply Ma.
    unfold content in E. injection E as -> -> _. auto.
Qed.

Lemma same_rows_upsert_all_held {A : Type} (f : A -> V) k
    (items : list (datetime * A)) t :
  unique_key_date t ->
  (forall dt a, In (dt, a) items -> holds t k (strftime dt) (f a)) ->
  same_rows (upsert_all f k items t) t.
Proof.
  revert t. induction items as [| [dt a] items IH]; simpl; intros t U H;
    [apply same_rows_refl |].
  assert (S : same_rows (insert_or_replace t k (strftime dt) (f a)) t)
    by (apply same_rows_insert_held; auto).
  eapply same_rows_trans; [| exact S].
  apply IH.
  - apply unique_insert_or_replace, U.
  - intros dt' a' I. eapply same_rows_holds; [apply same_rows_sym, S |]. auto.
Qed.

(** When the provider has nothing new, an iteration leaves the same rows. *)
Lemma same_rows_appended {A : Type} (f : A -> V)
    (fetch : datetime -> option (list (datetime * A))) k t1 t t' :
  nothing_new f fetch k t1 ->
  appended f fetch k t t' ->
  same_rows t t1 /\ unique_key_date t ->
  same_rows t' t1 /\ unique_key_date t'.
Proof.
  intros NN [-> | (L & Ld & start & items & ML & SL & AD & F & ->)] [S U];
    [auto |].
  rewrite (same_rows_select_max_date _ _ k S) in ML.
  assert (S' : same_rows (upsert_all f k items t) t).
  { apply same_rows_upsert_all_held; [exact U |].
    intros dt a I. eapply same_rows_holds; [apply same_rows_sym, S |].
    eapply NN; eassumption. }
  split.
  - eapply same_rows_trans; eassumption.
  - apply unique_upsert_all, U.
Qed.

Lemma equal_appended {A : Type} (f : A -> V)
    (fetch : datetime -> option (list (datetime * A))) k t1 t t' :
  nothing_returned fetch k t1 ->
  appended f fetch k t t' ->
  t = t1 -> t' = t1.
Proof.
  intros NR [-> | (L & Ld & start & items & ML & SL & AD & F & ->)] ->;
    [reflexivity |].
  rewrite (NR L Ld start items ML SL AD F). reflexivity.
Qed.

Lemma unique_appended {A : Type} (f : A -> V)
    (fetch : datetime -> option (list (datetime * A))) k t t' :
  appended f fetch k t t' -> unique_key_date t -> unique_key_date t'.
Proof.
  intros [-> | (L & Ld & start & items & _ & _ & _ & _ & ->)] U; [exact U |].
  apply unique_upsert_all, U.
Qed.
End SameRows.

(** ** Incremental append twice *)

(** On its connection, a run for which the provider has nothing new leaves
    the rows it found. *)
Lemma append_with_nothing_new (P : Provider) (w : World) :
  unique_key_date (stocks w) -> unique_key_date (national_debt w) ->
  let w' := fst (update_missing_data_conn P w) in
  ((forall e, In e (tracked (cfg_stocks (toml_file w))) ->
              nothing_new stock_cols_of (stock_items P (name e)) (name e) (stocks w)) ->
   (forall e, In e (tracked (cfg_national_debt (toml_file w))) ->
              nothing_new (fun y => y) (debt_items P (name e)) (name e)
                          (national_debt w)) ->
   same_rows (stocks w') (stocks w)
   /\ same_rows (national_debt w') (national_debt w)
   /\ toml_file w' = toml_file w)
  /\ ((forall e, In e (tracked (cfg_stocks (toml_file w))) ->
                 nothing_returned (stock_items P (name e)) (name e) (stocks w)) ->
      (forall e, In e (tracked (cfg_national_debt (toml_file w))) ->
                 nothing_returned (debt_items P (name e)) (name e) (national_debt w)) ->
      stocks w' = stocks w /\ national_debt w' = national_debt w).
Proof.
  intros US UD w'. split.
  - intros NS ND.
    destruct (update_missing_data_invariant P w
                (fun t => same_rows t (stocks w) /\ unique_key_date t)
                (fun t => same_rows t (national_debt w) /\ unique_key_date t))
      as ([A _] & [B _] & C).
    + intros e t t' In_e. apply same_rows_appended, NS, In_e.
    + intros e t t' In_e. apply same_rows_appended, ND, In_e.
    + split; [apply same_rows_refl | exact US].
    + split; [apply same_rows_refl | exact UD].
    + auto.
  - intros NS ND.
    destruct (update_missing_data_invariant P w
                (fun t => t = stocks w) (fun t => t = national_debt w))
      as (A & B & _); auto.
    + intros e t t' In_e. apply equal_appended, NS, In_e.
    + intros e t t' In_e. apply equal_appended, ND, In_e.
Qed.

(** C6: run incremental append, then run it again.  Each run closes its
    connection without a commit, so after the second run the files hold what
    they held after the first, which is what they held before it, whatever
    the provider returns.  On its connection, the second run starts from
    that store; when the provider has nothing new for it (every bar it
    returns for a tracked key, asked from the day after the key's latest
    stored date, is already stored with the same values) each table holds at
    the end of the run exactly the rows it held at its start: none added,
    none removed, none changed in value; and when the provider returns empty
    series the tables are identical. *)
Theorem C6_incremental_append_twice (P1 P2 : Provider) (w0 : World) :
  let w1 := fst (update_missing_data P1 w0) in
  let w2 := fst (update_missing_data P2 w1) in
  let c2 := fst (update_missing_data_conn P2 w1) in
  (stocks w2 = stocks w1 /\ national_debt w2 = national_debt w1
   /\ toml_file w2 = toml_file w1)
  /\ (stocks w1 = stocks w0 /\ national_debt w1 = national_debt w0)
  /\ (unique_key_date (stocks w1) -> unique_key_date (national_debt w1) ->
      ((forall e, In e (tracked (cfg_stocks (toml_file w1))) ->
                  nothing_new stock_cols_of (stock_items P2 (name e)) (name e)
                              (stocks w1)) ->
       (forall e, In e (tracked (cfg_national_debt (toml_file w1))) ->
                  nothing_new (fun y => y) (debt_items P2 (name e)) (name e)
                              (national_debt w1)) ->
       same_rows (stocks c2) (stocks w1)
       /\ same_rows (national_debt c2) (national_debt w1))
      /\ ((forall e, In e (tracked (cfg_stocks (toml_file w1))) ->
                     nothing_returned (stock_items P2 (name e)) (name e) (stocks w1)) ->
          (forall e, In e (tracked (cfg_national_debt (toml_file w1))) ->
                     nothing_returned (debt_items P2 (name e)) (name e)
                                      (national_debt w1)) ->
          stocks c2 = stocks w1 /\ national_debt c2 = national_debt w1)).
Proof.
  intros w1 w2 c2. split; [| split].
  - unfold w2, update_missing_data.
    destruct (with_connection_tables (update_missing_data_conn P2) w1) as [-> ->].
    rewrite (proj1 (with_connection_kept (update_missing_data_conn P2) w1)).
    split; [reflexivity |]. split; [reflexivity |].
    destruct (update_missing_data_invariant P2 w1 (fun _ => True) (fun _ => True))
      as (_ & _ & T); auto.
  - unfold w1, update_missing_data. apply with_connection_tables.
  - intros US UD.
    destruct (append_with_nothing_new P2 w1 US UD) as [A B]. split.
    + intros NS ND. destruct (A NS ND) as (A1 & A2 & _). auto.
    + exact B.
Qed.

Example append_twice_asks_again :
  requests (fst (update_missing_data quiet_provider
                   (fst (update_missing_data sample_provider sample_world))))
  = [("AAPL", "2023-01-05", "2023-01-06"); ("^TNX", "2023-01-05", "2023-01-06");
     ("AAPL", "2023-01-05", "2023-01-06"); ("^TNX", "2023-01-05", "2023-01-06")].
Proof. vm_compute. reflexivity. Qed.

(** ** ISO dates compare as texts the way they compare as days *)

Lemma days_before_year_succ (y : Z) :
  _days_before_year (y + 1)
  = _days_before_year y + 365 + (if _is_leap y then 1 else 0).
Proof.
  unfold _days_before_year, _is_leap. cbv zeta.
  replace (y + 1 - 1) with (y - 1 + 1) by ring.
  destruct (Z.eqb_spec (y mod 4) 0) as [E4 | E4];
    destruct (Z.eqb_spec (y mod 100) 0) as [E100 | E100];
    destruct (Z.eqb_spec (y mod 400) 0) as [E400 | E400];
    simpl; Z.div_mod_to_equations; lia.
Qed.

Lemma days_before_year_mono (y1 y2 : Z) :
  y1 <= y2 -> _days_before_year y1 <= _days_before_year y2.
Proof.
  intros H. replace y2 with (y1 + (y2 - y1)) by ring.
  assert (N : 0 <= y2 - y1) by lia. revert N.
  generalize (y2 - y1) as n. intros n N. pattern n.
  apply natlike_ind; [| | exact N].
  - rewrite Z.add_0_r. lia.
  - intros x Hx IH. replace (y1 + Z.succ x) with (y1 + x + 1) by lia.
    rewrite days_before_year_succ. destruct (_is_leap (y1 + x)); lia.
Qed.

Lemma days_before_month_next (y m1 m2 d1 : Z) :
  valid_ymd y m1 d1 = true -> m1 < m2 <= 12 ->
  _days_before_month y m1 + d1 <= _days_before_month y m2.
Proof.
  unfold valid_ymd, _days_before_month, _days_in_month. intros V Hm.
  repeat (apply andb_prop in V; destruct V as [V ?]).
  assert (C1 : m1 = 1 \/ m1 = 2 \/ m1 = 3 \/ m1 = 4 \/ m1 = 5 \/ m1 = 6 \/ m1 = 7
               \/ m1 = 8 \/ m1 = 9 \/ m1 = 10 \/ m1 = 11) by lia.
  assert (C2 : m2 = 2 \/ m2 = 3 \/ m2 = 4 \/ m2 = 5 \/ m2 = 6 \/ m2 = 7
               \/ m2 = 8 \/ m2 = 9 \/ m2 = 10 \/ m2 = 11 \/ m2 = 12) by lia.
  destruct (_is_leap y);
    repeat (destruct C1 as [-> | C1]); try subst m1;
    cbv beta iota delta [_DAYS_BEFORE_MONTH _DAYS_IN_MONTH Z.eqb Z.ltb Z.compare
                         Pos.compare Pos.compare_cont Pos.eqb andb] in *;
    rewrite ?Z.leb_le in *;
    repeat (destruct C2 as [-> | C2]); try subst m2;
    cbv beta iota delta [_DAYS_BEFORE_MONTH Z.ltb Z.compare
                         Pos.compare Pos.compare_cont andb];
    lia.
Qed.

(** The order of calendar days: year, then month, then day. *)
Lemma ymd2ord_lt (y1 m1 d1 y2 m2 d2 : Z) :
  valid_ymd y1 m1 d1 = true -> valid_ymd y2 m2 d2 = true ->
  y1 < y2 \/ (y1 = y2 /\ (m1 < m2 \/ (m1 = m2 /\ d1 < d2))) ->
  _ymd2ord y1 m1 d1 < _ymd2ord y2 m2 d2.
Proof.
  intros V1 V2 H. unfold _ymd2ord.
  pose proof (days_before_month_day _ _ _ V1) as B1.
  pose proof (days_before_month_day _ _ _ V2) as B2.
  destruct H as [Hy | [-> [Hm | [-> Hd]]]].
  - pose proof (days_before_year_succ y1) as S.
    pose proof (days_before_year_mono (y1 + 1) y2 ltac:(lia)) as M.
    destruct (_is_leap y1); lia.
  - pose proof (valid_ymd_ranges _ _ _ V2) as (_ & Hm2 & _).
    pose proof (days_before_month_next y2 m1 m2 d1 V1 ltac:(lia)) as N.
    pose proof (valid_ymd_ranges _ _ _ V2) as (_ & _ & Hd2). lia.
  - lia.
Qed.

Lemma compare_digits (p q a b : Z) :
  0 <= a <= 9 -> 0 <= b <= 9 ->
  lexc (p ?= q) (a ?= b) = (10 * p + a ?= 10 * q + b).
Proof.
  intros Ha Hb. symmetry. unfold lexc.
  destruct (Z.compare_spec p q) as [-> | Hpq | Hpq].
  - destruct (Z.compare_spec a b) as [-> | Hab | Hab].
    + apply Z.compare_refl.
    + apply Z.compare_lt_iff. lia.
    + apply Z.compare_gt_iff. lia.
  - apply Z.compare_lt_iff. lia.
  - apply Z.compare_gt_iff. lia.
Qed.

Lemma ascii_compare_digit (a b : Z) :
  0 <= a <= 9 -> 0 <= b <= 9 -> Ascii.compare (digit a) (digit b) = (a ?= b).
Proof.
  intros Ha Hb. unfold Ascii.compare, digit.
  rewrite !N_ascii_embedding by lia.
  rewrite Z2N.inj_compare by lia.
  apply Z.add_compare_mono_l.
Qed.

Lemma lexc_assoc (a b c : comparison) : lexc a (lexc b c) = lexc (lexc a b) c.
Proof. destruct a; reflexivity. Qed.

Lemma lexc_Eq_r (a : comparison) : lexc a Eq = a.
Proof. destruct a; reflexivity. Qed.

Lemma compare_cons (c c' : ascii) (s s' : string) :
  String.compare (String c s) (String c' s')
  = lexc (Ascii.compare c c') (String.compare s s').
Proof. reflexivity. Qed.

Lemma mod10_digit (x : Z) : 0 <= x mod 10 <= 9.
Proof. pose proof (Z.mod_pos_bound x 10 ltac:(lia)). lia. Qed.

Lemma lexc_two_digits (m m' : Z) (R : comparison) :
  0 <= m <= 99 -> 0 <= m' <= 99 ->
  lexc (m / 10 mod 10 ?= m' / 10 mod 10) (lexc (m mod 10 ?= m' mod 10) R)
  = lexc (m ?= m') R.
Proof.
  intros H H'. rewrite lexc_assoc, compare_digits by apply mod10_digit.
  replace (10 * (m / 10 mod 10) + m mod 10) with m by (Z.div_mod_to_equations; lia).
  replace (10 * (m' / 10 mod 10) + m' mod 10) with m' by (Z.div_mod_to_equations; lia).
  reflexivity.
Qed.

Lemma lexc_four_digits (y y' : Z) (R : comparison) :
  0 <= y <= 9999 -> 0 <= y' <= 9999 ->
  lexc (y / 1000 mod 10 ?= y' / 1000 mod 10)
    (lexc (y / 100 mod 10 ?= y' / 100 mod 10)
       (lexc (y / 10 mod 10 ?= y' / 10 mod 10) (lexc (y mod 10 ?= y' mod 10) R)))
  = lexc (y ?= y') R.
Proof.
  intros H H'. rewrite !lexc_assoc, !compare_digits by apply mod10_digit.
  replace (10 * (10 * (10 * (y / 1000 mod 10) + y / 100 mod 10) + y / 10 mod 10)
           + y mod 10) with y by (Z.div_mod_to_equations; lia).
  replace (10 * (10 * (10 * (y' / 1000 mod 10) + y' / 100 mod 10) + y' / 10 mod 10)
           + y' mod 10) with y' by (Z.div_mod_to_equations; lia).
  reflexivity.
Qed.

Lemma compare_strftime (a b : datetime) :
  valid_ymd (year a) (month a) (day a) = true ->
  valid_ymd (year b) (month b) (day b) = true ->
  String.compare (strftime a) (strftime b)
  = lexc (year a ?= year b) (lexc (month a ?= month b) (day a ?= day b)).
Proof.
  intros Va Vb.
  pose proof (valid_ymd_ranges _ _ _ Va) as (Hya & Hma & Hda).
  pose proof (valid_ymd_ranges _ _ _ Vb) as (Hyb & Hmb & Hdb).
  unfold strftime, fmt_md. rewrite !compare_cons.
  rewrite !ascii_compare_digit by apply mod10_digit.
  rewrite lexc_four_digits by lia.
  change (Ascii.compare "-" "-") with Eq. cbn [lexc].
  rewrite lexc_two_digits by lia. cbn [lexc].
  rewrite lexc_two_digits by lia.
  change (String.compare "" "") with Eq. rewrite lexc_Eq_r. reflexivity.
Qed.

Lemma strftime_same_day (a b : datetime) :
  year a = year b -> month a = month b -> day a = day b -> strftime a = strftime b.
Proof. unfold strftime. intros -> -> ->. reflexivity. Qed.

(** Two different ISO dates in text order are days in that order. *)
Lemma iso_text_order (a b : datetime) :
  valid_ymd (year a) (month a) (day a) = true ->
  valid_ymd (year b) (month b) (day b) = true ->
  String.leb (strftime a) (strftime b) = true ->
  strftime a <> strftime b ->
  toordinal a < toordinal b.
Proof.
  intros Va Vb L N. unfold String.leb in L. rewrite compare_strftime in L by assumption.
  unfold toordinal. apply ymd2ord_lt; try assumption.
  unfold lexc in L.
  destruct (Z.compare_spec (year a) (year b)) as [Ey | Hy | Hy];
    [| left; exact Hy | discriminate].
  right. split; [exact Ey |].
  destruct (Z.compare_spec (month a) (month b)) as [Em | Hm | Hm];
    [| left; exact Hm | discriminate].
  right. split; [exact Em |].
  destruct (Z.compare_spec (day a) (day b)) as [Ed | Hd | Hd];
    [| exact Hd | discriminate].
  exfalso. apply N. apply strftime_same_day; assumption.
Qed.

(** ** Destructive refresh: one iteration *)

Lemma refresh_stock_eq (P : Provider) (e : entry) (w : World) :
  refresh_stock P e w =
  match select_max_date (stocks w) (name e) with
  | None => _process_stock_data e (capture_stock P) w
  | Some L =>
      match strptime L with
      | None => (w, Raise ValueError)
      | Some _ =>
          _process_stock_data (mk_entry (name e) L (end_date e)) (capture_stock P)
            (set_stocks (delete_where (stocks w) (name e) L) w)
      end
  end.
Proof.
  unfold refresh_stock, process_stock_entry, bind.
  rewrite update_stock_preprocess_eq.
  destruct (select_max_date (stocks w) (name e)) as [L |]; [| reflexivity].
  destruct (strptime L); reflexivity.
Qed.

Lemma refresh_debt_eq (P : Provider) (e : entry) (w : World) :
  refresh_debt P e w =
  match select_max_date (national_debt w) (name e) with
  | None => _process_national_debt_data e (capture_national_debt P) w
  | Some L =>
      match strptime L with
      | None => (w, Raise ValueError)
      | Some _ =>
          _process_national_debt_data (mk_entry (name e) L (end_date e))
            (capture_national_debt P)
            (set_national_debt (delete_where (national_debt w) (name e) L) w)
      end
  end.
Proof.
  unfold refresh_debt, process_debt_entry, bind.
  rewrite update_debt_preprocess_eq.
  destruct (select_max_date (national_debt w) (name e)) as [L |]; [| reflexivity].
  destruct (strptime L); reflexivity.
Qed.

Lemma refresh_stock_refreshed (P : Provider) (e : entry) (w : World) :
  refreshed stock_cols_of (stock_items P (name e)) (name e) (start_date e)
            (stocks w) (stocks (fst (refresh_stock P e w)))
  /\ national_debt (fst (refresh_stock P e w)) = national_debt w
  /\ toml_file (fst (refresh_stock P e w)) = toml_file w.
Proof.
  rewrite refresh_stock_eq. unfold refreshed.
  destruct (select_max_date (stocks w) (name e)) as [L |].
  - destruct (strptime L) as [Ld |] eqn:SL; [| simpl; auto].
    rewrite process_stock_data_eq. simpl name. simpl start_date. rewrite SL.
    cbv zeta.
    destruct (fetched_stock P (name e) Ld) as [sd | x] eqn:F; simpl.
    + split; [| auto]. right. exists Ld. split; [reflexivity |]. right.
      exists (written (Stock_data sd)). unfold stock_items. rewrite F.
      apply fetched_stock_spec in F. destruct F as [-> _]. auto.
    + split; [| auto]. right. exists Ld. auto.
  - rewrite process_stock_data_eq.
    destruct (strptime (start_date e)) as [start |] eqn:SS; [| simpl; auto].
    cbv zeta.
    destruct (fetched_stock P (name e) start) as [sd | x] eqn:F; simpl; [| auto].
    split; [| auto]. right. exists start, (written (Stock_data sd)).
    unfold stock_items. rewrite F.
    apply fetched_stock_spec in F. destruct F as [-> _]. auto.
Qed.

Lemma refresh_debt_refreshed (P : Provider) (e : entry) (w : World) :
  refreshed (fun y => y) (debt_items P (name e)) (name e) (start_date e)
            (national_debt w) (national_debt (fst (refresh_debt P e w)))
  /\ stocks (fst (refresh_debt P e w)) = stocks w
  /\ toml_file (fst (refresh_debt P e w)) = toml_file w.
Proof.
  rewrite refresh_debt_eq. unfold refreshed.
  destruct (select_max_date (national_debt w) (name e)) as [L |].
  - destruct (strptime L) as [Ld |] eqn:SL; [| simpl; auto].
    rewrite process_national_debt_data_eq. simpl name. simpl start_date. rewrite SL.
    cbv zeta.
    destruct (fetched_debt P (name e) Ld) as [dd | x] eqn:F; simpl.
    + split; [| auto]. right. exists Ld. split; [reflexivity |]. right.
      exists (NationDebt_data dd). unfold debt_items. rewrite F. auto.
    + split; [| auto]. right. exists Ld. auto.
  - rewrite process_national_debt_data_eq.
    destruct (strptime (start_date e)) as [start |] eqn:SS; [| simpl; auto].
    cbv zeta.
    destruct (fetched_debt P (name e) start) as [dd | x] eqn:F; simpl; [| auto].
    split; [| auto]. right. exists start, (NationDebt_data dd).
    unfold debt_items. rewrite F. auto.
Qed.

Lemma process_stock_data_grows (P : Provider) (e : entry) (w : World) :
  grows w (fst (_process_stock_data e (capture_stock P) w)).
Proof.
  rewrite process_stock_data_eq.
  destruct (strptime (start_date e)) as [start |]; [| apply grows_refl].
  cbv zeta. destruct (fetched_stock P (name e) start); simpl; eexists; reflexivity.
Qed.

Lemma process_national_debt_data_grows (P : Provider) (e : entry) (w : World) :
  grows w (fst (_process_national_debt_data e (capture_national_debt P) w)).
Proof.
  rewrite process_national_debt_data_eq.
  destruct (strptime (start_date e)) as [start |]; [| apply grows_refl].
  cbv zeta. destruct (fetched_debt P (name e) start); simpl; eexists; reflexivity.
Qed.





Lemma update_data_loops (P : Provider) (w : World) :
  update_data_conn P w
  = (for_each (tracked (cfg_stocks (toml_file w))) (refresh_stock P) ;;;
     for_each (tracked (cfg_national_debt (toml_file w))) (refresh_debt P)) w.
Proof.
  unfold update_data_conn, process_toml_config, bind, get, refresh_stock, refresh_debt.
  destruct (cfg_stocks (toml_file w)), (cfg_national_debt (toml_file w)); reflexivity.
Qed.

Section Refresh.
Context {V A : Type}.
Implicit Types (t : table V) (r : row V) (f : A -> V).

Lemma refreshed_other_key f (fetch : datetime -> option (list (datetime * A)))
    (k cfg_start k' : string) t t' :
  k' <> k -> refreshed f fetch k cfg_start t t' ->
  filter (of_key k') (rows t') = filter (of_key k') (rows t).
Proof.
  intros Ne. unfold refreshed.
  destruct (select_max_date t k) as [L |].
  - intros [-> | (Ld & _ & [-> | (items & _ & ->)])].
    + reflexivity.
    + apply rows_of_key_delete_other, Ne.
    + rewrite rows_of_key_upsert_all_other by exact Ne.
      apply rows_of_key_delete_other, Ne.
  - intros [-> | (start & items & _ & _ & ->)]; [reflexivity |].
    apply rows_of_key_upsert_all_other, Ne.
Qed.

End Refresh.


(** ** Destructive refresh: a run *)







Section LatestRow.
Context {V : Type}.
Implicit Types (t : table V) (r : row V).


End LatestRow.

(** ** The statements at the sample data *)

Lemma honours_start_sample : honours_start sample_provider.
Proof.
  intros symbol start_str end_str hist start dt row Hh Sp I.
  assert (E : hist
              = filter (fun '(dt, _) => toordinal start <=? toordinal dt) sample_bars).
  { cbv beta iota delta [sample_provider history] in Hh.
    rewrite Sp in Hh. congruence. }
  rewrite E in I. clear E Hh.
  apply filter_In in I. destruct I as [I O]. apply Z.leb_le in O.
  split; [| exact O].
  destruct I as [E | [E | [E | []]]]; injection E as <- _; reflexivity.
Qed.

Lemma unique_sample_stocks : unique_key_date (stocks sample_world).
Proof.
  repeat apply unique_insert_or_replace. constructor.
Qed.

Lemma unique_sample_debt : unique_key_date (national_debt sample_world).
Proof.
  repeat apply unique_insert_or_replace. constructor.
Qed.

Lemma C2_witness :
  unique_key_date (@empty_table float)
  /\ map cols (select_row
                 (apply_upserts empty_table
                    [("US", "2023-01-03", nan); ("US", "2023-01-04", one);
                     ("US", "2023-01-03", one)])
                 "US" "2023-01-03") = [one].
Proof.
  split; [constructor |].
  exact (proj2 (proj2 (C2_upsert_keeps_pairs_unique_last_write_wins
                         empty_table
                         [("US", "2023-01-03", nan); ("US", "2023-01-04", one);
                          ("US", "2023-01-03", one)]
                         (NoDup_nil _)) "US" "2023-01-03")).
Defined.


Lemma C10_witness :
  select_dates_asc (stocks sample_world) "AAPL"
  = select_dates_asc (national_debt sample_world) "US"
  /\ _get_missing_date_ranges_stock "AAPL" sample_world
     = _get_missing_date_ranges_debt "US" sample_world.
Proof.
  split; [reflexivity |].
  apply (C10_stock_and_debt_gap_detection_agree sample_world "AAPL" "US").
  reflexivity.
Defined.

Lemma C4_witness :
  In (update_missing_data sample_provider) (views (update_missing_data_conn sample_provider))
  /\ honours_start sample_provider
  /\ strptime "2023-01-04" = Some (mk_datetime 2023 1 4 0 0 0 0)
  /\ requested sample_world (fst (update_missing_data sample_provider sample_world))
               ("AAPL", "2023-01-05", "2023-01-06")
  /\ In (mk_row 2 "AAPL" "2023-01-02" sample_cols)
        (rows (stocks (fst (update_missing_data sample_provider sample_world)))).
Proof.
  assert (R : In (update_missing_data sample_provider)
                 (views (update_missing_data_conn sample_provider)))
    by (right; left; reflexivity).
  split; [exact R |].
  split; [exact honours_start_sample |]. split; [reflexivity |].
  destruct (C4_incremental_append_keeps_earlier_rows sample_provider sample_world
              (update_missing_data sample_provider)
              (mk_entry "AAPL" "2023-01-01" None) "2023-01-04"
              (mk_datetime 2023 1 4 0 0 0 0) R honours_start_sample eq_refl)
    as [T _].
  destruct (T (or_introl eq_refl) eq_refl) as [T1 T2]. split.
  - exact (T1 eq_refl).
  - apply (T2 (mk_row 2 "AAPL" "2023-01-02" sample_cols)
              (mk_datetime 2023 1 2 0 0 0 0)).
    + simpl. auto.
    + reflexivity.
    + reflexivity.
    + reflexivity.
Defined.

Lemma unique_caught_up :
  unique_key_date (stocks caught_up_world)
  /\ unique_key_date (national_debt caught_up_world).
Proof.
  split; apply unique_insert_or_replace;
    [exact unique_sample_stocks | exact unique_sample_debt].
Qed.

Lemma quiet_stock_returns_nothing (e : entry) :
  In e (tracked (cfg_stocks (toml_file caught_up_world))) ->
  nothing_returned (stock_items quiet_provider (name e)) (name e)
    (stocks caught_up_world).
Proof.
  intros [<- | []].
  intros L Ld start items ML SL AD F.
  vm_compute in ML. injection ML as <-.
  vm_compute in SL. injection SL as <-.
  vm_compute in AD. injection AD as <-.
  vm_compute in F. injection F as <-. reflexivity.
Qed.

Lemma quiet_debt_returns_nothing (e : entry) :
  In e (tracked (cfg_national_debt (toml_file caught_up_world))) ->
  nothing_returned (debt_items quiet_provider (name e)) (name e)
    (national_debt caught_up_world).
Proof.
  intros [<- | []].
  intros L Ld start items ML SL AD F.
  vm_compute in ML. injection ML as <-.
  vm_compute in SL. injection SL as <-.
  vm_compute in AD. injection AD as <-.
  vm_compute in F. injection F as <-. reflexivity.
Qed.

Lemma C6_witness :
  let w1 := fst (update_missing_data sample_provider caught_up_world) in
  let c2 := fst (update_missing_data_conn quiet_provider w1) in
  stocks w1 = stocks caught_up_world
  /\ stocks c2 = stocks w1 /\ national_debt c2 = national_debt w1.
Proof.
  cbv zeta.
  destruct (C6_incremental_append_twice sample_provider quiet_provider caught_up_world)
    as (_ & [E1 E2] & T).
  split; [exact E1 |].
  assert (Ec : toml_file (fst (update_missing_data sample_provider caught_up_world))
               = toml_file caught_up_world) by (vm_compute; reflexivity).
  apply T.
  - rewrite E1. exact (proj1 unique_caught_up).
  - rewrite E2. exact (proj2 unique_caught_up).
  - rewrite Ec, E1. exact quiet_stock_returns_nothing.
  - rewrite Ec, E2. exact quiet_debt_returns_nothing.
Defined.

(** * Further properties of the runs *)

(** ** What the loops of [capture_data] and [update_data] may do *)

Lemma capture_stock_entry_eq (P : Provider) (e : entry) (w : World) :
  capture_stock_entry P e w = _process_stock_data e (capture_stock P) w.
Proof.
  unfold capture_stock_entry, process_stock_entry, bind, ret. reflexivity.
Qed.

Lemma capture_debt_entry_eq (P : Provider) (e : entry) (w : World) :
  capture_debt_entry P e w = _process_national_debt_data e (capture_national_debt P) w.
Proof.
  unfold capture_debt_entry, process_debt_entry, bind, ret. reflexivity.
Qed.

Lemma capture_data_loops (P : Provider) (w : World) :
  capture_data_conn P w
  = (for_each (tracked (cfg_stocks (toml_file w))) (capture_stock_entry P) ;;;
     for_each (tracked (cfg_national_debt (toml_file w))) (capture_debt_entry P)) w.
Proof.
  unfold capture_data_conn, process_toml_config, bind, get,
    capture_stock_entry, capture_debt_entry.
  destruct (cfg_stocks (toml_file w)), (cfg_national_debt (toml_file w)); reflexivity.
Qed.

Lemma capture_stock_entry_captured (P : Provider) (e : entry) (w : World) :
  captured stock_cols_of (stock_items P (name e)) (name e) (start_date e)
           (stocks w) (stocks (fst (capture_stock_entry P e w)))
  /\ national_debt (fst (capture_stock_entry P e w)) = national_debt w
  /\ toml_file (fst (capture_stock_entry P e w)) = toml_file w.
Proof.
  rewrite capture_stock_entry_eq, process_stock_data_eq. unfold captured.
  destruct (strptime (start_date e)) as [start |] eqn:SS; [| simpl; auto].
  cbv zeta.
  destruct (fetched_stock P (name e) start) as [sd | x] eqn:F; simpl; [| auto].
  split; [| auto]. right. exists start, (written (Stock_data sd)).
  unfold stock_items. rewrite F.
  apply fetched_stock_spec in F. destruct F as [-> _]. auto.
Qed.

Lemma capture_debt_entry_captured (P : Provider) (e : entry) (w : World) :
  captured (fun y => y) (debt_items P (name e)) (name e) (start_date e)
           (national_debt w) (national_debt (fst (capture_debt_entry P e w)))
  /\ stocks (fst (capture_debt_entry P e w)) = stocks w
  /\ toml_file (fst (capture_debt_entry P e w)) = toml_file w.
Proof.
  rewrite capture_debt_entry_eq, process_national_debt_data_eq. unfold captured.
  destruct (strptime (start_date e)) as [start |] eqn:SS; [| simpl; auto].
  cbv zeta.
  destruct (fetched_debt P (name e) start) as [dd | x] eqn:F; simpl; [| auto].
  split; [| auto]. right. exists start, (NationDebt_data dd).
  unfold debt_items. rewrite F. auto.
Qed.

(** A run made of a loop over the tracked stocks that leaves [national_debt]
    alone, then a loop over the tracked nations that leaves [stocks] alone:
    a property of the two tables kept by every iteration holds at the end. *)
Lemma two_loops_invariant (w : World) (body_s body_d : entry -> M unit)
    (RS : entry -> table stock_cols -> table stock_cols -> Prop)
    (RD : entry -> table float -> table float -> Prop)
    (IS : table stock_cols -> Prop) (ID : table float -> Prop) :
  (forall e w0, RS e (stocks w0) (stocks (fst (body_s e w0)))
                /\ national_debt (fst (body_s e w0)) = national_debt w0
                /\ toml_file (fst (body_s e w0)) = toml_file w0) ->
  (forall e w0, RD e (national_debt w0) (national_debt (fst (body_d e w0)))
                /\ stocks (fst (body_d e w0)) = stocks w0
                /\ toml_file (fst (body_d e w0)) = toml_file w0) ->
  (forall e t t', In e (tracked (cfg_stocks (toml_file w))) ->
                  RS e t t' -> IS t -> IS t') ->
  (forall e t t', In e (tracked (cfg_national_debt (toml_file w))) ->
                  RD e t t' -> ID t -> ID t') ->
  IS (stocks w) -> ID (national_debt w) ->
  let w' := fst ((for_each (tracked (cfg_stocks (toml_file w))) body_s ;;;
                  for_each (tracked (cfg_national_debt (toml_file w))) body_d) w) in
  IS (stocks w') /\ ID (national_debt w') /\ toml_file w' = toml_file w.
Proof.
  intros BS BD HS HD IS0 ID0.
  set (I := fun w0 : World =>
              IS (stocks w0) /\ ID (national_debt w0) /\ toml_file w0 = toml_file w).
  assert (I0 : I w) by (unfold I; auto).
  cbv zeta. unfold bind.
  assert (LS : I (fst (for_each (tracked (cfg_stocks (toml_file w))) body_s w))).
  { apply for_each_invariant; [| exact I0]. intros e w0 In_e (H1 & H2 & H3).
    destruct (BS e w0) as (A1 & A2 & A3).
    unfold I. rewrite A2, A3. split; [| auto]. eapply HS; eassumption. }
  destruct (for_each (tracked (cfg_stocks (toml_file w))) body_s w)
    as [w1 [u | x]]; simpl in LS; [| exact LS].
  apply for_each_invariant; [| exact LS]. intros e w0 In_e (H1 & H2 & H3).
  destruct (BD e w0) as (A1 & A2 & A3).
  unfold I. rewrite A2, A3. split; [auto |]. split; [| auto].
  eapply HD; eassumption.
Qed.

Lemma capture_data_invariant (P : Provider) (w : World)
    (IS : table stock_cols -> Prop) (ID : table float -> Prop) :
  (forall e t t', In e (tracked (cfg_stocks (toml_file w))) ->
                  captured stock_cols_of (stock_items P (name e)) (name e)
                           (start_date e) t t' ->
                  IS t -> IS t') ->
  (forall e t t', In e (tracked (cfg_national_debt (toml_file w))) ->
                  captured (fun y => y) (debt_items P (name e)) (name e)
                           (start_date e) t t' ->
                  ID t -> ID t') ->
  IS (stocks w) -> ID (national_debt w) ->
  IS (stocks (fst (capture_data_conn P w)))
  /\ ID (national_debt (fst (capture_data_conn P w)))
  /\ toml_file (fst (capture_data_conn P w)) = toml_file w.
Proof.
  intros HS HD IS0 ID0. rewrite capture_data_loops.
  apply (two_loops_invariant w (capture_stock_entry P) (capture_debt_entry P)
           (fun e => captured stock_cols_of (stock_items P (name e)) (name e)
                              (start_date e))
           (fun e => captured (fun y => y) (debt_items P (name e)) (name e)
                              (start_date e)));
    auto using capture_stock_entry_captured, capture_debt_entry_captured.
Qed.

Lemma update_data_invariant (P : Provider) (w : World)
    (IS : table stock_cols -> Prop) (ID : table float -> Prop) :
  (forall e t t', In e (tracked (cfg_stocks (toml_file w))) ->
                  refreshed stock_cols_of (stock_items P (name e)) (name e)
                            (start_date e) t t' ->
                  IS t -> IS t') ->
  (forall e t t', In e (tracked (cfg_national_debt (toml_file w))) ->
                  refreshed (fun y => y) (debt_items P (name e)) (name e)
                            (start_date e) t t' ->
                  ID t -> ID t') ->
  IS (stocks w) -> ID (national_debt w) ->
  IS (stocks (fst (update_data_conn P w)))
  /\ ID (national_debt (fst (update_data_conn P w)))
  /\ toml_file (fst (update_data_conn P w)) = toml_file w.
Proof.
  intros HS HD IS0 ID0. rewrite update_data_loops.
  apply (two_loops_invariant w (refresh_stock P) (refresh_debt P)
           (fun e => refreshed stock_cols_of (stock_items P (name e)) (name e)
                               (start_date e))
           (fun e => refreshed (fun y => y) (debt_items P (name e)) (name e)
                               (start_date e)));
    auto using refresh_stock_refreshed, refresh_debt_refreshed.
Qed.

Lemma captured_other_key {V A : Type} (f : A -> V)
    (fetch : datetime -> option (list (datetime * A))) (k cfg_start k' : string)
    (t t' : table V) :
  k' <> k -> captured f fetch k cfg_start t t' ->
  filter (of_key k') (rows t') = filter (of_key k') (rows t).
Proof.
  intros Ne [-> | (start & items & _ & _ & ->)]; [reflexivity |].
  apply rows_of_key_upsert_all_other, Ne.
Qed.

(** ** Keys that are not tracked, and the configuration *)

(** X1: none of the three runs (full capture, destructive refresh, incremental
    append) touches the rows of a key that is not tracked in the list of its
    table, and none changes the configuration; this holds on the connection
    of the run and on the files once the run has returned. *)
Theorem X1_runs_leave_untracked_keys_alone (P : Provider) (w : World) (run : M unit)
    (k : string) :
  In run (runs P) ->
  (~ In k (map name (tracked (cfg_stocks (toml_file w)))) ->
   rows_of (stocks (fst (run w))) k = rows_of (stocks w) k)
  /\ (~ In k (map name (tracked (cfg_national_debt (toml_file w)))) ->
      rows_of (national_debt (fst (run w))) k = rows_of (national_debt w) k)
  /\ toml_file (fst (run w)) = toml_file w.
Proof.
  unfold rows_of.
  set (IS := fun t : table stock_cols =>
               ~ In k (map name (tracked (cfg_stocks (toml_file w)))) ->
               filter (of_key k) (rows t) = filter (of_key k) (rows (stocks w))).
  set (ID := fun t : table float =>
               ~ In k (map name (tracked (cfg_national_debt (toml_file w)))) ->
               filter (of_key k) (rows t) = filter (of_key k) (rows (national_debt w))).
  assert (Ne : forall e l, In e l -> ~ In k (map name l) -> k <> name e).
  { intros e l In_e N E. apply N. rewrite E. apply in_map, In_e. }
  assert (C : forall m,
             In m [capture_data_conn P; update_data_conn P; update_missing_data_conn P] ->
             IS (stocks (fst (m w))) /\ ID (national_debt (fst (m w)))
             /\ toml_file (fst (m w)) = toml_file w).
  { intros m [<- | [<- | [<- | []]]].
    - apply (capture_data_invariant P w IS ID); unfold IS, ID; auto.
      + intros e t t' In_e C I N. rewrite <- (I N).
        eapply captured_other_key; [| exact C]. eapply Ne; eassumption.
      + intros e t t' In_e C I N. rewrite <- (I N).
        eapply captured_other_key; [| exact C]. eapply Ne; eassumption.
    - apply (update_data_invariant P w IS ID); unfold IS, ID; auto.
      + intros e t t' In_e C I N. rewrite <- (I N).
        eapply refreshed_other_key; [| exact C]. eapply Ne; eassumption.
      + intros e t t' In_e C I N. rewrite <- (I N).
        eapply refreshed_other_key; [| exact C]. eapply Ne; eassumption.
    - apply (update_missing_data_invariant P w IS ID); unfold IS, ID; auto.
      + intros e t t' In_e C I N. rewrite <- (I N).
        eapply appended_other_key; [| exact C]. eapply Ne; eassumption.
      + intros e t t' In_e C I N. rewrite <- (I N).
        eapply appended_other_key; [| exact C]. eapply Ne; eassumption. }
  intros R. apply in_flat_map in R. destruct R as (m & Im & [<- | [<- | []]]).
  - apply C, Im.
  - destruct (C m Im) as (_ & _ & T).
    destruct (with_connection_tables m w) as [-> ->].
    rewrite (proj1 (with_connection_kept m w)). unfold IS, ID. auto.
Qed.

Lemma X1_witness :
  In (update_data_conn sample_provider) (runs sample_provider)
  /\ rows_of (stocks (fst (update_data_conn sample_provider legacy_world))) "TSLA"
     = [mk_row 4 "TSLA" "2022-12-30" sample_cols].
Proof.
  assert (R : In (update_data_conn sample_provider) (runs sample_provider))
    by (simpl; auto).
  split; [exact R |].
  destruct (X1_runs_leave_untracked_keys_alone sample_provider legacy_world
              (update_data_conn sample_provider) "TSLA" R) as (S & _).
  rewrite S; [reflexivity |].
  vm_compute. intros [E | []]. discriminate E.
Defined.

(** ** Dates are never dropped by a run that only writes *)

Lemma in_upsert_all {V A : Type} (f : A -> V) (k : string)
    (items : list (datetime * A)) (t : table V) (r : row V) :
  In r (rows (upsert_all f k items t)) ->
  In r (rows t)
  \/ (key r = k /\ exists dt a, In (dt, a) items /\ date r = strftime dt).
Proof.
  revert t. induction items as [| [dt a] items IH]; simpl; intros t I; [auto |].
  apply IH in I. destruct I as [I | (K & dt' & a' & I & E)].
  - apply in_insert_or_replace in I. destruct I as [[I _] | ->]; [auto |].
    right. simpl. eauto 7.
  - right. eauto 7.
Qed.

Lemma dates_kept_upsert_all {V A : Type} (f : A -> V) (k : string)
    (items : list (datetime * A)) (t : table V) (k' s : string) :
  In s (dates_of t k') -> In s (dates_of (upsert_all f k items t) k').
Proof.
  intros I. destruct (String.eqb_spec k' k) as [-> | Ne].
  - apply in_dates_of_upsert_all. auto.
  - unfold dates_of. rewrite rows_of_key_upsert_all_other by exact Ne. exact I.
Qed.

Lemma dates_kept_appended {V A : Type} (f : A -> V)
    (fetch : datetime -> option (list (datetime * A))) (k : string) (t t' : table V)
    (k' s : string) :
  appended f fetch k t t' -> In s (dates_of t k') -> In s (dates_of t' k').
Proof.
  intros [-> | (L & Ld & start & items & _ & _ & _ & _ & ->)]; [auto |].
  apply dates_kept_upsert_all.
Qed.

Lemma dates_kept_captured {V A : Type} (f : A -> V)
    (fetch : datetime -> option (list (datetime * A))) (k cfg_start : string)
    (t t' : table V) (k' s : string) :
  captured f fetch k cfg_start t t' -> In s (dates_of t k') -> In s (dates_of t' k').
Proof.
  intros [-> | (start & items & _ & _ & ->)]; [auto |].
  apply dates_kept_upsert_all.
Qed.

(** When no date of a key is dropped, its latest date does not move back. *)
Lemma latest_not_before {V : Type} (t t' : table V) (k L : string) :
  (forall s, In s (dates_of t k) -> In s (dates_of t' k)) ->
  select_max_date t k = Some L ->
  exists L', select_max_date t' k = Some L' /\ String.leb L L' = true.
Proof.
  unfold select_max_date. intros K ML.
  apply sql_max_spec in ML. destruct ML as [I _]. apply K in I.
  destruct (sql_max (dates_of t' k)) as [L' |] eqn:M.
  - exists L'. split; [reflexivity |]. apply sql_max_spec in M. apply M, I.
  - apply sql_max_None in M. rewrite M in I. destruct I.
Qed.

(** X2: full capture and incremental append never drop a stored date: every
    (key, date) pair stored before the run is stored after it, however the
    run ends, and so the latest date of a key (the maximum of its date texts)
    never moves back; this holds on the connection of the run and on the
    files once the run has returned. *)
Theorem X2_writing_runs_keep_every_date (P : Provider) (w : World) (run : M unit) :
  In run (writing_runs P) ->
  let w' := fst (run w) in
  (forall k s, In s (dates_of (stocks w) k) -> In s (dates_of (stocks w') k))
  /\ (forall k s, In s (dates_of (national_debt w) k) ->
                  In s (dates_of (national_debt w') k))
  /\ (forall k L, select_max_date (stocks w) k = Some L ->
                  exists L', select_max_date (stocks w') k = Some L'
                             /\ String.leb L L' = true)
  /\ (forall k L, select_max_date (national_debt w) k = Some L ->
                  exists L', select_max_date (national_debt w') k = Some L'
                             /\ String.leb L L' = true).
Proof.
  intros R. cbv zeta.
  set (IS := fun t : table stock_cols =>
               forall k s, In s (dates_of (stocks w) k) -> In s (dates_of t k)).
  set (ID := fun t : table float =>
               forall k s, In s (dates_of (national_debt w) k) -> In s (dates_of t k)).
  assert (K : IS (stocks (fst (run w))) /\ ID (national_debt (fst (run w)))
              /\ toml_file (fst (run w)) = toml_file w).
  { assert (C : forall m,
               In m [capture_data_conn P; update_missing_data_conn P] ->
               IS (stocks (fst (m w))) /\ ID (national_debt (fst (m w)))
               /\ toml_file (fst (m w)) = toml_file w).
    { intros m [<- | [<- | []]].
      - apply (capture_data_invariant P w IS ID); unfold IS, ID; auto;
          intros e t t' _ C I k s Hs; eapply dates_kept_captured; eauto.
      - apply (update_missing_data_invariant P w IS ID); unfold IS, ID; auto;
          intros e t t' _ C I k s Hs; eapply dates_kept_appended; eauto. }
    apply in_flat_map in R. destruct R as (m & Im & [<- | [<- | []]]).
    - apply C, Im.
    - destruct (C m Im) as (_ & _ & T).
      destruct (with_connection_tables m w) as [-> ->].
      rewrite (proj1 (with_connection_kept m w)). unfold IS, ID. auto. }
  destruct K as (KS & KD & _). unfold IS in KS. unfold ID in KD.
  split; [exact KS |]. split; [exact KD |]. split; intros k L ML.
  - apply (latest_not_before (stocks w) _ k L); [intros s; apply KS | exact ML].
  - apply (latest_not_before (national_debt w) _ k L); [intros s; apply KD | exact ML].
Qed.

Lemma X2_witness :
  In (update_missing_data_conn sample_provider) (writing_runs sample_provider)
  /\ In "2023-01-04"
        (dates_of (stocks (fst (update_missing_data_conn sample_provider sample_world)))
                  "AAPL").
Proof.
  assert (R : In (update_missing_data_conn sample_provider) (writing_runs sample_provider))
    by (simpl; auto).
  split; [exact R |].
  destruct (X2_writing_runs_keep_every_date sample_provider sample_world
              (update_missing_data_conn sample_provider) R) as (S & _).
  apply S. vm_compute. auto.
Defined.

(** ** A well-formed store stays well-formed *)

Lemma strftime_valid_inj (a b : datetime) :
  valid_ymd (year a) (month a) (day a) = true ->
  valid_ymd (year b) (month b) (day b) = true ->
  strftime a = strftime b -> toordinal a = toordinal b.
Proof.
  intros Va Vb E.
  pose proof (strptime_strftime a Va) as Ra.
  rewrite E, (strptime_strftime b Vb) in Ra.
  injection Ra as Ey Em Ed. unfold toordinal. congruence.
Qed.

Lemma iso_upsert_all {V A : Type} (f : A -> V) (k : string)
    (items : list (datetime * A)) (t : table V) (n : Z) :
  dated_from n items -> iso_table t -> iso_table (upsert_all f k items t).
Proof.
  intros D Iso r I. apply in_upsert_all in I.
  destruct I as [I | (_ & dt & a & I & E)]; [apply Iso, I |].
  exists dt. split; [apply (D dt a I) | exact E].
Qed.

Lemma iso_delete_where {V : Type} (t : table V) (k d : string) :
  iso_table t -> iso_table (delete_where t k d).
Proof. intros Iso r I. apply in_delete_where in I. apply Iso, I. Qed.

Section WellFormed.
Context {V A : Type}.
Variables (f : A -> V) (fetch : datetime -> option (list (datetime * A))).
Hypothesis fetch_dated : forall start items,
  valid_ymd (year start) (month start) (day start) = true ->
  fetch start = Some items -> dated_from (toordinal start) items.

Lemma iso_appended (k : string) (t t' : table V) :
  appended f fetch k t t' -> iso_table t -> iso_table t'.
Proof.
  intros [-> | (L & Ld & start & items & _ & _ & AD & F & ->)] Iso; [exact Iso |].
  apply add_days_spec in AD. destruct AD as (Vs & _).
  eapply iso_upsert_all; [eapply fetch_dated; eassumption | exact Iso].
Qed.

Lemma iso_captured (k cfg_start : string) (t t' : table V) :
  captured f fetch k cfg_start t t' -> iso_table t -> iso_table t'.
Proof.
  intros [-> | (start & items & SS & F & ->)] Iso; [exact Iso |].
  apply strptime_valid in SS. destruct SS as (Vs & _).
  eapply iso_upsert_all; [eapply fetch_dated; eassumption | exact Iso].
Qed.

Lemma iso_refreshed (k cfg_start : string) (t t' : table V) :
  refreshed f fetch k cfg_start t t' -> iso_table t -> iso_table t'.
Proof.
  unfold refreshed. intros R Iso.
  destruct (select_max_date t k) as [L |].
  - destruct R as [-> | (Ld & SL & [-> | (items & F & ->)])];
      [exact Iso | apply iso_delete_where, Iso |].
    apply strptime_valid in SL. destruct SL as (Vs & _).
    eapply iso_upsert_all; [eapply fetch_dated; eassumption |].
    apply iso_delete_where, Iso.
  - destruct R as [-> | (start & items & SS & F & ->)]; [exact Iso |].
    apply strptime_valid in SS. destruct SS as (Vs & _).
    eapply iso_upsert_all; [eapply fetch_dated; eassumption | exact Iso].
Qed.

Lemma unique_captured (k cfg_start : string) (t t' : table V) :
  captured f fetch k cfg_start t t' -> unique_key_date t -> unique_key_date t'.
Proof.
  intros [-> | (start & items & _ & _ & ->)] U; [exact U |].
  apply unique_upsert_all, U.
Qed.

Lemma unique_refreshed (k cfg_start : string) (t t' : table V) :
  refreshed f fetch k cfg_start t t' -> unique_key_date t -> unique_key_date t'.
Proof.
  unfold refreshed. intros R U.
  destruct (select_max_date t k) as [L |].
  - destruct R as [-> | (Ld & _ & [-> | (items & _ & ->)])];
      [exact U | apply unique_delete_where, U |].
    apply unique_upsert_all, unique_delete_where, U.
  - destruct R as [-> | (start & items & _ & _ & ->)]; [exact U |].
    apply unique_upsert_all, U.
Qed.

(** On a table of ISO dates the latest date of a key parses, and every row of
    the key is dated on or before it. *)
Lemma iso_latest (t : table V) (k L : string) :
  iso_table t -> select_max_date t k = Some L ->
  exists Ld, strptime L = Some Ld
    /\ forall r, In r (rows t) -> key r = k ->
         exists D, valid_ymd (year D) (month D) (day D) = true
                   /\ date r = strftime D /\ toordinal D <= toordinal Ld.
Proof.
  intros Iso ML. unfold select_max_date in ML. apply sql_max_spec in ML.
  destruct ML as [I U]. apply in_dates_of in I. destruct I as (r0 & I0 & K0 & D0).
  destruct (Iso r0 I0) as (dl & Vl & El). rewrite D0 in El.
  exists (mk_datetime (year dl) (month dl) (day dl) 0 0 0 0). split.
  - rewrite El. apply strptime_strftime, Vl.
  - intros r I K. destruct (Iso r I) as (d & Vd & Ed).
    exists d. split; [exact Vd |]. split; [exact Ed |].
    rewrite midnight_toordinal.
    destruct (String.eqb_spec (strftime d) (strftime dl)) as [E | Ne].
    + rewrite (strftime_valid_inj d dl Vd Vl E). lia.
    + assert (toordinal d < toordinal dl); [| lia].
      apply iso_text_order; try assumption.
      rewrite <- Ed, <- El. apply U. apply in_dates_of. eauto.
Qed.

(** On a table of ISO dates an iteration of incremental append keeps every
    row: what it writes is dated after the latest date of the key. *)
Lemma rows_kept_appended (k : string) (t t' : table V) (r : row V) :
  iso_table t -> appended f fetch k t t' -> In r (rows t) -> In r (rows t').
Proof.
  intros Iso [-> | (L & Ld & start & items & ML & SL & AD & F & ->)] I; [exact I |].
  apply in_upsert_all_frame; [exact I |].
  intros dt a Ia. apply matches_false. intros [Kr Er].
  destruct (iso_latest t k L Iso ML) as (Ld' & SL' & Le).
  rewrite SL in SL'. injection SL' as <-.
  destruct (Le r I Kr) as (D & VD & ED & OD).
  apply add_days_spec in AD. destruct AD as (Vs & Os & _).
  destruct (fetch_dated start items Vs F dt a Ia) as [Vdt Odt].
  assert (E : strftime D = strftime dt) by congruence.
  apply strftime_valid_inj in E; [lia | exact VD | exact Vdt].
Qed.
End WellFormed.

Lemma stock_fetch_dated (P : Provider) (k : string) :
  honours_start P ->
  forall start items,
    valid_ymd (year start) (month start) (day start) = true ->
    stock_items P k start = Some items -> dated_from (toordinal start) items.
Proof. intros H start items. apply stock_items_dated_from, H. Qed.

Lemma debt_fetch_dated (P : Provider) (k : string) :
  honours_start P ->
  forall start items,
    valid_ymd (year start) (month start) (day start) = true ->
    debt_items P k start = Some items -> dated_from (toordinal start) items.
Proof. intros H start items. apply debt_items_dated_from, H. Qed.

(** X3: when the provider returns well-formed bars dated from the requested
    start, each of the three runs keeps the store well-formed: the pairs
    (symbol, date) and (nation, date) stay unique and every date text stays an
    ISO date, however the run ends; this holds on the connection of the run
    and on the files once the run has returned. *)
Theorem X3_runs_keep_the_store_well_formed (P : Provider) (w : World) (run : M unit) :
  honours_start P -> In run (runs P) ->
  well_formed (stocks w) -> well_formed (national_debt w) ->
  well_formed (stocks (fst (run w))) /\ well_formed (national_debt (fst (run w))).
Proof.
  intros H R WS WD.
  assert (K : well_formed (stocks (fst (run w)))
              /\ well_formed (national_debt (fst (run w)))
              /\ toml_file (fst (run w)) = toml_file w); [| tauto].
  assert (C : forall m,
             In m [capture_data_conn P; update_data_conn P; update_missing_data_conn P] ->
             well_formed (stocks (fst (m w)))
             /\ well_formed (national_debt (fst (m w)))
             /\ toml_file (fst (m w)) = toml_file w).
  { intros m [<- | [<- | [<- | []]]].
    - apply (capture_data_invariant P w well_formed well_formed); auto.
      + intros e t t' _ C [U I]. split;
          [eapply unique_captured | eapply iso_captured]; eauto using stock_fetch_dated.
      + intros e t t' _ C [U I]. split;
          [eapply unique_captured | eapply iso_captured]; eauto using debt_fetch_dated.
    - apply (update_data_invariant P w well_formed well_formed); auto.
      + intros e t t' _ C [U I]. split;
          [eapply unique_refreshed | eapply iso_refreshed];
          eauto using stock_fetch_dated.
      + intros e t t' _ C [U I]. split;
          [eapply unique_refreshed | eapply iso_refreshed];
          eauto using debt_fetch_dated.
    - apply (update_missing_data_invariant P w well_formed well_formed); auto.
      + intros e t t' _ C [U I]. split;
          [eapply unique_appended | eapply iso_appended]; eauto using stock_fetch_dated.
      + intros e t t' _ C [U I]. split;
          [eapply unique_appended | eapply iso_appended]; eauto using debt_fetch_dated. }
  apply in_flat_map in R. destruct R as (m & Im & [<- | [<- | []]]).
  - apply C, Im.
  - destruct (C m Im) as (_ & _ & T).
    destruct (with_connection_tables m w) as [-> ->].
    rewrite (proj1 (with_connection_kept m w)). auto.
Qed.

Lemma iso_sample_stocks : iso_table (stocks sample_world).
Proof.
  assert (E : map date (rows (stocks sample_world))
              = ["2023-01-01"; "2023-01-02"; "2023-01-04"])
    by (vm_compute; reflexivity).
  intros r I. apply (in_map date) in I. rewrite E in I.
  destruct I as [<- | [<- | [<- | []]]];
    [exists (mk_datetime 2023 1 1 0 0 0 0) | exists (mk_datetime 2023 1 2 0 0 0 0)
     | exists (mk_datetime 2023 1 4 0 0 0 0)]; split; reflexivity.
Qed.

Lemma iso_sample_debt : iso_table (national_debt sample_world).
Proof.
  assert (E : map date (rows (national_debt sample_world))
              = ["2023-01-01"; "2023-01-02"; "2023-01-04"])
    by (vm_compute; reflexivity).
  intros r I. apply (in_map date) in I. rewrite E in I.
  destruct I as [<- | [<- | [<- | []]]];
    [exists (mk_datetime 2023 1 1 0 0 0 0) | exists (mk_datetime 2023 1 2 0 0 0 0)
     | exists (mk_datetime 2023 1 4 0 0 0 0)]; split; reflexivity.
Qed.

Lemma X3_witness :
  honours_start sample_provider
  /\ In (update_data_conn sample_provider) (runs sample_provider)
  /\ well_formed (stocks sample_world) /\ well_formed (national_debt sample_world)
  /\ well_formed (stocks (fst (update_data_conn sample_provider sample_world))).
Proof.
  assert (R : In (update_data_conn sample_provider) (runs sample_provider))
    by (simpl; auto).
  assert (WS : well_formed (stocks sample_world))
    by (split; [exact unique_sample_stocks | exact iso_sample_stocks]).
  assert (WD : well_formed (national_debt sample_world))
    by (split; [exact unique_sample_debt | exact iso_sample_debt]).
  split; [exact honours_start_sample |]. split; [exact R |].
  split; [exact WS |]. split; [exact WD |].
  exact (proj1 (X3_runs_keep_the_store_well_formed sample_provider sample_world
                  (update_data_conn sample_provider) honours_start_sample R WS WD)).
Defined.

(** ** Incremental append only appends *)

(** X4: on a store whose dates are ISO dates, and with a provider that returns
    bars dated from the requested start, incremental append is append-only:
    every row stored before the run is stored after it with the rowid and the
    values it had, whatever the keys tracked and however the run ends; this
    holds on the connection of the run and on the files once the run has
    returned. *)
Theorem X4_incremental_append_is_append_only (P : Provider) (w : World)
    (run : M unit) :
  In run (views (update_missing_data_conn P)) ->
  honours_start P -> iso_table (stocks w) -> iso_table (national_debt w) ->
  let w' := fst (run w) in
  (forall r, In r (rows (stocks w)) -> In r (rows (stocks w')))
  /\ (forall r, In r (rows (national_debt w)) -> In r (rows (national_debt w'))).
Proof.
  intros [<- | [<- | []]] H IsoS IsoD; cbv zeta;
    [| destruct (with_connection_tables (update_missing_data_conn P) w) as [-> ->];
       auto].
  destruct (update_missing_data_invariant P w
              (fun t => iso_table t /\ forall r, In r (rows (stocks w)) -> In r (rows t))
              (fun t => iso_table t
                        /\ forall r, In r (rows (national_debt w)) -> In r (rows t)))
    as ((_ & A) & (_ & B) & _); auto.
  - intros e t t' _ C [I K]. split.
    + eapply iso_appended; eauto using stock_fetch_dated.
    + intros r Ir. eapply rows_kept_appended; eauto using stock_fetch_dated.
  - intros e t t' _ C [I K]. split.
    + eapply iso_appended; eauto using debt_fetch_dated.
    + intros r Ir. eapply rows_kept_appended; eauto using debt_fetch_dated.
Qed.

Lemma X4_witness :
  honours_start sample_provider
  /\ iso_table (stocks sample_world) /\ iso_table (national_debt sample_world)
  /\ In (mk_row 3 "AAPL" "2023-01-04" sample_cols)
        (rows (stocks (fst (update_missing_data_conn sample_provider sample_world)))).
Proof.
  split; [exact honours_start_sample |].
  split; [exact iso_sample_stocks |]. split; [exact iso_sample_debt |].
  apply (proj1 (X4_incremental_append_is_append_only sample_provider sample_world
                  (update_missing_data_conn sample_provider) (or_introl eq_refl)
                  honours_start_sample iso_sample_stocks iso_sample_debt)).
  vm_compute. auto.
Defined.

(** ** A bar whose volume is not a number *)

Lemma dict_of_frame_raise {R B : Type} (value : R -> result B)
    (pre post : list (datetime * R)) (dt : datetime) (row : R)
    (acc : list (datetime * B)) (x : exn) :
  (forall dt' row', In (dt', row') pre -> exists b, value row' = Ok b) ->
  value row = Raise x ->
  dict_of_frame value (pre ++ (dt, row) :: post) acc = Raise x.
Proof.
  intros Hpre Hrow. revert acc.
  induction pre as [| [dt' row'] pre IH]; intros acc; simpl.
  - rewrite Hrow. reflexivity.
  - destruct (Hpre dt' row' (or_introl eq_refl)) as [b ->].
    apply IH. intros dt0 row0 I. apply (Hpre dt0 row0). right. exact I.
Qed.

Lemma process_stock_data_bad_volume (P : Provider) (e : entry) (w : World)
    (start : datetime) (pre post : list (datetime * HistRow)) (dt : datetime)
    (row : HistRow) (v : pyvalue) (x : exn) :
  strptime (start_date e) = Some start ->
  history P (name e) (strftime start) (strftime (now P)) = Ok (pre ++ (dt, row) :: post) ->
  info_get_trailingPE P (name e) = Ok v ->
  (isinstance_int_float v = true -> exists pe_ratio, float_of v = Ok pe_ratio) ->
  (forall dt' row', In (dt', row') pre ->
                    exists volume, int_of_cell (Volume row') = Ok volume) ->
  int_of_cell (Volume row) = Raise x ->
  _process_stock_data e (capture_stock P) w
  = (add_request (name e, strftime start, strftime (now P)) w, Raise x).
Proof.
  intros SS Hh Hi Hv Hpre Hrow.
  rewrite process_stock_data_eq, SS. cbv zeta.
  unfold fetched_stock. rewrite capture_stock_unfold, Hh, Hi. simpl.
  assert (Epe : exists pe_ratio, pe_of_info v = Ok pe_ratio).
  { unfold pe_of_info. destruct (isinstance_int_float v) eqn:U.
    - destruct (Hv eq_refl) as [pe_ratio F]. exists pe_ratio.
      destruct v; simpl in *; try discriminate; exact F.
    - exists nan. destruct v; simpl in *; try discriminate; reflexivity. }
  destruct Epe as [pe_ratio ->].
  rewrite (dict_of_frame_raise _ pre post dt row [] x); [reflexivity | |].
  - intros dt' row' I. destruct (Hpre dt' row' I) as [volume Ev].
    unfold price_of_row. rewrite Ev. eauto.
  - unfold price_of_row. rewrite Hrow. reflexivity.
Qed.

(** X5: a bar whose Volume cell is NaN makes the capture of its entry fail
    with [ValueError] (from [int(row["Volume"])]), and one whose Volume cell
    is infinite with [OverflowError]: the price history was requested and
    answered, the bars before that one converted, and no row of the answer
    is written, not even for the bars before it. *)
Theorem X5_bar_without_volume_fails_the_entry (P : Provider) (e : entry) (w : World)
    (start : datetime) (pre post : list (datetime * HistRow)) (dt : datetime)
    (row : HistRow) (v : pyvalue) :
  strptime (start_date e) = Some start ->
  history P (name e) (strftime start) (strftime (now P)) = Ok (pre ++ (dt, row) :: post) ->
  info_get_trailingPE P (name e) = Ok v ->
  (isinstance_int_float v = true -> exists pe_ratio, float_of v = Ok pe_ratio) ->
  (forall dt' row', In (dt', row') pre ->
                    exists volume, int_of_cell (Volume row') = Ok volume) ->
  let w1 := add_request (name e, strftime start, strftime (now P)) w in
  (Volume row = CellFloat nan ->
   _process_stock_data e (capture_stock P) w = (w1, Raise ValueError))
  /\ (forall s, Volume row = CellFloat (S754_infinity s) ->
                _process_stock_data e (capture_stock P) w = (w1, Raise OverflowError)).
Proof.
  intros SS Hh Hi Hv Hpre. cbv zeta. split.
  - intros Ev. eapply process_stock_data_bad_volume; eauto. rewrite Ev. reflexivity.
  - intros s Ev. eapply process_stock_data_bad_volume; eauto. rewrite Ev. reflexivity.
Qed.

Lemma X5_witness :
  strptime "2023-01-01" = Some (mk_datetime 2023 1 1 0 0 0 0)
  /\ _process_stock_data (mk_entry "MSFT" "2023-01-01" None)
       (capture_stock halted_provider) empty_key_world
     = (add_request ("MSFT", "2023-01-01", "2023-01-06") empty_key_world,
        Raise ValueError).
Proof.
  split; [reflexivity |].
  apply (proj1 (X5_bar_without_volume_fails_the_entry halted_provider
                  (mk_entry "MSFT" "2023-01-01" None) empty_key_world
                  (mk_datetime 2023 1 1 0 0 0 0) [bar 2023 1 3] [bar 2023 1 5]
                  (mk_datetime 2023 1 4 0 0 0 0) halted_row PyNone
                  eq_refl eq_refl eq_refl
                  (fun U => False_ind _ (Bool.diff_false_true U))
                  (fun dt' row' I =>
                     match I with
                     | or_introl E =>
                         ex_intro _ 100
                           (f_equal (fun b => int_of_cell (Volume (snd b))) (eq_sym E))
                     | or_intror F => False_ind _ F
                     end))).
  reflexivity.
Defined.

Example capture_data_halted :
  capture_data_conn halted_provider empty_key_world
  = (add_request ("MSFT", "2023-01-01", "2023-01-06") empty_key_world,
     Raise ValueError).
Proof. vm_compute. reflexivity. Qed.

(** ** Tracked keys without rows *)

Lemma for_each_skip {A : Type} (body : A -> M unit) (l : list A) (w : World) :
  (forall a, In a l -> body a w = (w, Ok tt)) -> for_each l body w = (w, Ok tt).
Proof.
  induction l as [| a l IH]; intros H; simpl; [reflexivity |].
  unfold bind. rewrite (H a (or_introl eq_refl)). apply IH.
  intros b I. apply H. right. exact I.
Qed.

(** X7: when no tracked key has a stored date that incremental append takes
    for one (no row at all, as on a fresh database, or the empty text only),
    the run does nothing: no history is requested, no row is written, on the
    connection or in the file, and it ends normally. *)
Theorem X7_incremental_append_without_rows_does_nothing (P : Provider) (w : World)
    (run : M unit) :
  In run (views (update_missing_data_conn P)) ->
  (forall e, In e (tracked (cfg_stocks (toml_file w))) ->
             truthy (select_max_date (stocks w) (name e)) = None) ->
  (forall e, In e (tracked (cfg_national_debt (toml_file w))) ->
             truthy (select_max_date (national_debt w) (name e)) = None) ->
  run w = (w, Ok tt).
Proof.
  intros R HS HD.
  assert (C : update_missing_data_conn P w = (w, Ok tt)).
  { rewrite update_missing_data_loops. unfold bind.
    rewrite for_each_skip.
    - apply for_each_skip. intros e I.
      rewrite update_missing_debt_eq, (HD e I). reflexivity.
    - intros e I. rewrite update_missing_stock_eq, (HS e I). reflexivity. }
  destruct R as [<- | [<- | []]]; [exact C | apply with_connection_idle, C].
Qed.

Lemma X7_witness :
  In (update_missing_data sample_provider) (views (update_missing_data_conn sample_provider))
  /\ update_missing_data sample_provider create_database = (create_database, Ok tt).
Proof.
  assert (R : In (update_missing_data sample_provider)
                 (views (update_missing_data_conn sample_provider)))
    by (right; left; reflexivity).
  split; [exact R |].
  apply (X7_incremental_append_without_rows_does_nothing sample_provider
           create_database (update_missing_data sample_provider) R).
  - intros e _. reflexivity.
  - intros e _. reflexivity.
Defined.

Lemma no_rows_after_captured {V A : Type} (f : A -> V)
    (fetch : datetime -> option (list (datetime * A))) (k cfg_start k' : string)
    (t t' : table V) :
  k' <> k -> captured f fetch k cfg_start t t' ->
  select_max_date t k' = None -> select_max_date t' k' = None.
Proof.
  intros Ne C N. rewrite <- N. apply select_max_date_rows_of_key.
  eapply captured_other_key; eauto.
Qed.

Lemma refresh_stock_loop_no_rows (P : Provider) (l : list entry) :
  NoDup (map name l) ->
  forall w,
    (forall e, In e l -> select_max_date (stocks w) (name e) = None) ->
    for_each l (refresh_stock P) w = for_each l (capture_stock_entry P) w.
Proof.
  induction l as [| a l IH]; intros N w H; simpl; [reflexivity |].
  inversion N as [| ? ? Na Nl]; subst.
  assert (E : refresh_stock P a w = capture_stock_entry P a w).
  { rewrite refresh_stock_eq, (H a (or_introl eq_refl)), capture_stock_entry_eq.
    reflexivity. }
  unfold bind. rewrite E.
  destruct (capture_stock_entry_captured P a w) as (C & _).
  destruct (capture_stock_entry P a w) as [w1 [u | x]]; [| reflexivity].
  simpl in C. apply IH; [exact Nl |]. intros e I.
  eapply no_rows_after_captured; [| exact C | apply H; right; exact I].
  intros Eq. apply Na. rewrite <- Eq. apply in_map, I.
Qed.

Lemma refresh_debt_loop_no_rows (P : Provider) (l : list entry) :
  NoDup (map name l) ->
  forall w,
    (forall e, In e l -> select_max_date (national_debt w) (name e) = None) ->
    for_each l (refresh_debt P) w = for_each l (capture_debt_entry P) w.
Proof.
  induction l as [| a l IH]; intros N w H; simpl; [reflexivity |].
  inversion N as [| ? ? Na Nl]; subst.
  assert (E : refresh_debt P a w = capture_debt_entry P a w).
  { rewrite refresh_debt_eq, (H a (or_introl eq_refl)), capture_debt_entry_eq.
    reflexivity. }
  unfold bind. rewrite E.
  destruct (capture_debt_entry_captured P a w) as (C & _).
  destruct (capture_debt_entry P a w) as [w1 [u | x]]; [| reflexivity].
  simpl in C. apply IH; [exact Nl |]. intros e I.
  eapply no_rows_after_captured; [| exact C | apply H; right; exact I].
  intros Eq. apply Na. rewrite <- Eq. apply in_map, I.
Qed.

Lemma refresh_without_rows (P : Provider) (w : World) :
  NoDup (map name (tracked (cfg_stocks (toml_file w)))) ->
  NoDup (map name (tracked (cfg_national_debt (toml_file w)))) ->
  (forall e, In e (tracked (cfg_stocks (toml_file w))) ->
             select_max_date (stocks w) (name e) = None) ->
  (forall e, In e (tracked (cfg_national_debt (toml_file w))) ->
             select_max_date (national_debt w) (name e) = None) ->
  update_data_conn P w = capture_data_conn P w.
Proof.
  intros NS ND HS HD. rewrite update_data_loops, capture_data_loops. unfold bind.
  rewrite (refresh_stock_loop_no_rows P _ NS w HS).
  pose proof (for_each_invariant (fun w0 => national_debt w0 = national_debt w)
                (capture_stock_entry P) (tracked (cfg_stocks (toml_file w)))) as K.
  specialize (K ltac:(intros e w0 _ E;
                      destruct (capture_stock_entry_captured P e w0) as (_ & -> & _);
                      exact E) w eq_refl).
  destruct (for_each (tracked (cfg_stocks (toml_file w))) (capture_stock_entry P) w)
    as [w1 [u | x]]; [| reflexivity].
  simpl in K. apply refresh_debt_loop_no_rows; [exact ND |].
  intros e I. rewrite K. apply HD, I.
Qed.

(** X8: when the tracked keys of each list are distinct and none of them has
    a stored row, destructive refresh is a full capture: the same requests,
    the same rows, the same outcome, on the connection and on the files. *)
Theorem X8_refresh_without_rows_is_a_capture (P : Provider) (w : World) :
  NoDup (map name (tracked (cfg_stocks (toml_file w)))) ->
  NoDup (map name (tracked (cfg_national_debt (toml_file w)))) ->
  (forall e, In e (tracked (cfg_stocks (toml_file w))) ->
             select_max_date (stocks w) (name e) = None) ->
  (forall e, In e (tracked (cfg_national_debt (toml_file w))) ->
             select_max_date (national_debt w) (name e) = None) ->
  update_data_conn P w = capture_data_conn P w
  /\ update_data P w = capture_data P w.
Proof.
  intros NS ND HS HD. pose proof (refresh_without_rows P w NS ND HS HD) as C.
  split; [exact C |]. unfold update_data, capture_data.
  rewrite !with_connection_eq, C. reflexivity.
Qed.

Lemma X8_witness :
  update_data sample_provider empty_key_world
  = capture_data sample_provider empty_key_world.
Proof.
  apply X8_refresh_without_rows_is_a_capture.
  - vm_compute. repeat constructor. intros [].
  - vm_compute. constructor.
  - intros e _. reflexivity.
  - intros e _. reflexivity.
Defined.

(** ** Gap detection on a store of ISO dates *)

Lemma in_insert_sorted (s : string) (l : list string) (x : string) :
  In x (insert_sorted s l) <-> x = s \/ In x l.
Proof.
  induction l as [| a r IH]; simpl.
  - intuition congruence.
  - destruct (String.ltb s a); simpl; [| rewrite IH]; intuition congruence.
Qed.

Lemma in_sort_asc (l : list string) (x : string) : In x (sort_asc l) <-> In x l.
Proof.
  unfold sort_asc.
  assert (G : forall acc, In x (fold_left (fun acc s => insert_sorted s acc) l acc)
                          <-> In x l \/ In x acc).
  { induction l as [| a r IH]; simpl; intros acc; [tauto |].
    rewrite IH, in_insert_sorted. intuition congruence. }
  rewrite G. simpl. tauto.
Qed.

Lemma ascending_insert_sorted (s : string) (l : list string) :
  ascending (fun a b => String.leb a b = true) l ->
  ascending (fun a b => String.leb a b = true) (insert_sorted s l).
Proof.
  induction l as [| a r IH]; simpl; [intros _; split; [intros b [] | exact I] |].
  intros [Ha Hr]. destruct (String.ltb s a) eqn:C; simpl.
  - split; [| split; assumption].
    apply ltb_leb_true in C.
    intros b [<- | Ib]; [exact C |]. eapply leb_trans; [exact C | apply Ha, Ib].
  - split; [| apply IH, Hr].
    intros b Ib. apply in_insert_sorted in Ib.
    destruct Ib as [-> | Ib]; [apply ltb_leb, C | apply Ha, Ib].
Qed.

Lemma ascending_sort_asc (l : list string) :
  ascending (fun a b => String.leb a b = true) (sort_asc l).
Proof.
  unfold sort_asc.
  assert (G : forall acc, ascending (fun a b => String.leb a b = true) acc ->
                          ascending (fun a b => String.leb a b = true)
                            (fold_left (fun acc s => insert_sorted s acc) l acc)).
  { induction l as [| a r IH]; simpl; intros acc H; [exact H |].
    apply IH, ascending_insert_sorted, H. }
  apply G. exact I.
Qed.

(** In an ascending list of days, the days strictly between two consecutive
    elements are the days that are not in the list and lie strictly between
    two of its elements. *)
Lemma gap_between_consecutive (os : list Z) (n : Z) :
  ascending Z.le os ->
  (exists a b, In (a, b) (consecutive os) /\ a < n < b)
  <-> (~ In n os /\ exists lo hi, In lo os /\ In hi os /\ lo < n < hi).
Proof.
  induction os as [| a os IH]; [simpl; intros _; split |].
  - intros (a & b & [] & _).
  - intros (_ & lo & hi & [] & _).
  - destruct os as [| b rest].
    + simpl. intros _. split.
      * intros (x & y & [] & _).
      * intros (_ & lo & hi & [<- | []] & [<- | []] & B). lia.
    + intros [Ha Hr]. specialize (IH Hr).
      assert (Hab : a <= b) by (apply Ha; left; reflexivity).
      assert (Hb : forall x, In x (b :: rest) -> b <= x).
      { intros x [<- | Ix]; [lia | apply (proj1 Hr), Ix]. }
      change (consecutive (a :: b :: rest)) with ((a, b) :: consecutive (b :: rest)).
      split.
      * intros (x & y & [E | Ixy] & B).
        -- injection E as <- <-. split.
           ++ intros [E | Ix]; [lia |]. apply Hb in Ix. lia.
           ++ exists a, b. split; [left; reflexivity |].
              split; [right; left; reflexivity | exact B].
        -- destruct (proj1 IH (ex_intro _ x (ex_intro _ y (conj Ixy B))))
             as (Nn & lo & hi & Ilo & Ihi & B').
           split.
           ++ intros [E | Ix]; [| exact (Nn Ix)]. apply Hb in Ilo. lia.
           ++ exists lo, hi. split; [right; exact Ilo |].
              split; [right; exact Ihi | exact B'].
      * intros (Nn & lo & hi & Ilo & Ihi & B).
        destruct (Z.lt_trichotomy n b) as [Lt | [E | Gt]].
        -- exists a, b. split; [left; reflexivity |].
           destruct Ilo as [<- | Ilo]; [lia |]. apply Hb in Ilo. lia.
        -- exfalso. apply Nn. right. left. auto.
        -- destruct (proj2 IH) as (x & y & Ixy & B').
           ++ split; [intros Ix; apply Nn; right; exact Ix |].
              exists b, hi. split; [left; reflexivity |].
              split; [| lia].
              destruct Ihi as [<- | Ihi]; [lia | exact Ihi].
           ++ exists x, y. split; [right; exact Ixy | exact B'].
Qed.

Lemma consecutive_map {A B : Type} (g : A -> B) (l : list A) :
  consecutive (map g l) = map (fun '(a, b) => (g a, g b)) (consecutive l).
Proof.
  induction l as [| a l IH]; [reflexivity |].
  destruct l as [| b rest]; [reflexivity |].
  change (map g (a :: b :: rest)) with (g a :: g b :: map g rest).
  change (consecutive (g a :: g b :: map g rest))
    with ((g a, g b) :: consecutive (map g (b :: rest))).
  rewrite IH. reflexivity.
Qed.

Lemma in_consecutive {A : Type} (l : list A) (a b : A) :
  In (a, b) (consecutive l) -> In a l /\ In b l.
Proof.
  induction l as [| x l IH]; [intros [] |].
  destruct l as [| y rest]; [intros [] |].
  change (consecutive (x :: y :: rest)) with ((x, y) :: consecutive (y :: rest)).
  intros [E | I].
  - injection E as <- <-. split; [left | right; left]; reflexivity.
  - apply IH in I. destruct I. split; right; assumption.
Qed.

Lemma shift_day_spec (d : datetime) (n : Z) :
  1 <= toordinal d + n <= _MAXORDINAL ->
  valid_ymd (year (shift_day d n)) (month (shift_day d n)) (day (shift_day d n)) = true
  /\ toordinal (shift_day d n) = toordinal d + n.
Proof.
  intros B. pose proof (add_days_shift_day d n B) as E.
  apply add_days_spec in E. tauto.
Qed.

Lemma strptime_strftime_ord (D : datetime) :
  valid_ymd (year D) (month D) (day D) = true ->
  exists D', strptime (strftime D) = Some D' /\ toordinal D' = toordinal D.
Proof.
  intros V. eexists. split; [apply strptime_strftime, V | apply midnight_toordinal].
Qed.

(** The days in the ranges that gap detection computes from a list of
    well-formed dates. *)
Lemma reported_calendar_gaps (dates : list datetime) (n : Z) :
  (forall D, In D dates -> valid_ymd (year D) (month D) (day D) = true) ->
  reported (calendar_gaps dates) n
  <-> exists a b, In (a, b) (consecutive (map toordinal dates)) /\ a < n < b.
Proof.
  intros Val. rewrite consecutive_map. unfold reported, calendar_gaps. split.
  - intros (range & I & ds & de & Ss & Se & B).
    apply in_flat_map in I. destruct I as ([A B'] & Ic & Ir).
    destruct (in_consecutive _ _ _ Ic) as [IA IB].
    pose proof (toordinal_bounds A (Val A IA)) as BA.
    pose proof (toordinal_bounds B' (Val B' IB)) as BB.
    destruct (1 <? toordinal B' - toordinal A) eqn:G; [| destruct Ir].
    apply Z.ltb_lt in G. destruct Ir as [<- | []]. simpl in Ss, Se.
    destruct (shift_day_spec A 1 ltac:(lia)) as [V1 O1].
    destruct (shift_day_spec B' (-1) ltac:(lia)) as [V2 O2].
    destruct (strptime_strftime_ord _ V1) as (d1 & S1 & E1).
    destruct (strptime_strftime_ord _ V2) as (d2 & S2 & E2).
    rewrite S1 in Ss. injection Ss as <-. rewrite S2 in Se. injection Se as <-.
    exists (toordinal A), (toordinal B'). split; [| lia].
    apply in_map_iff. exists (A, B'). split; [reflexivity | exact Ic].
  - intros (a & b & I & B). apply in_map_iff in I.
    destruct I as ([A B'] & E & Ic). injection E as <- <-.
    destruct (in_consecutive _ _ _ Ic) as [IA IB].
    pose proof (toordinal_bounds A (Val A IA)) as BA.
    pose proof (toordinal_bounds B' (Val B' IB)) as BB.
    destruct (shift_day_spec A 1 ltac:(lia)) as [V1 O1].
    destruct (shift_day_spec B' (-1) ltac:(lia)) as [V2 O2].
    destruct (strptime_strftime_ord _ V1) as (d1 & S1 & E1).
    destruct (strptime_strftime_ord _ V2) as (d2 & S2 & E2).
    exists (strftime (shift_day A 1), strftime (shift_day B' (-1))). split.
    + apply in_flat_map. exists (A, B'). split; [exact Ic |].
      assert (G : (1 <? toordinal B' - toordinal A) = true) by (apply Z.ltb_lt; lia).
      rewrite G. left. reflexivity.
    + exists d1, d2. simpl. split; [exact S1 |]. split; [exact S2 | lia].
Qed.

(** The date texts of a store of ISO dates parse, each to the day it names. *)
Lemma parse_iso_rows (l : list string) :
  (forall s, In s l -> iso_date s) ->
  exists dates,
    parse_rows l = Ok dates
    /\ Forall2 (fun s D => s = strftime D
                           /\ valid_ymd (year D) (month D) (day D) = true) l dates.
Proof.
  unfold parse_rows. induction l as [| s l IH]; intros H.
  - exists []. split; [reflexivity | constructor].
  - destruct IH as (dates & E & F); [intros x Ix; apply H; right; exact Ix |].
    destruct (H s (or_introl eq_refl)) as (d & Vd & Ed).
    exists (mk_datetime (year d) (month d) (day d) 0 0 0 0 :: dates). split.
    + simpl. rewrite Ed, (strptime_strftime d Vd). simpl. rewrite E. reflexivity.
    + constructor; [| exact F]. split; [exact Ed | exact Vd].
Qed.

Lemma iso_leb_le (a b : datetime) :
  valid_ymd (year a) (month a) (day a) = true ->
  valid_ymd (year b) (month b) (day b) = true ->
  String.leb (strftime a) (strftime b) = true -> toordinal a <= toordinal b.
Proof.
  intros Va Vb L.
  destruct (String.eqb_spec (strftime a) (strftime b)) as [E | Ne].
  - rewrite (strftime_valid_inj a b Va Vb E). lia.
  - pose proof (iso_text_order a b Va Vb L Ne). lia.
Qed.

Lemma ascending_days (l : list string) (dates : list datetime) :
  Forall2 (fun s D => s = strftime D
                      /\ valid_ymd (year D) (month D) (day D) = true) l dates ->
  ascending (fun a b => String.leb a b = true) l ->
  ascending Z.le (map toordinal dates).
Proof.
  induction 1 as [| s D l dates [Es Vs] F IH]; simpl; [auto |].
  intros [Ha Hr]. split; [| apply IH, Hr].
  intros o Io. apply in_map_iff in Io. destruct Io as (D' & <- & ID').
  assert (X : exists s', In s' l /\ s' = strftime D'
                         /\ valid_ymd (year D') (month D') (day D') = true).
  { clear - F ID'. induction F as [| s1 D1 l1 dates1 R1 F1 IH1]; [destruct ID' |].
    destruct ID' as [<- | ID'].
    - exists s1. split; [left; reflexivity | exact R1].
    - destruct (IH1 ID') as (s' & I' & R'). exists s'. split; [right; exact I' | exact R']. }
  destruct X as (s' & I' & E' & V').
  apply iso_leb_le; try assumption. rewrite <- Es, <- E'. apply Ha, I'.
Qed.

Lemma Forall2_in_left {A B : Type} (R : A -> B -> Prop) (l : list A) (m : list B) (a : A) :
  Forall2 R l m -> In a l -> exists b, In b m /\ R a b.
Proof.
  induction 1 as [| x y l m Rxy F IH]; [intros [] |].
  intros [<- | I]; [exists y; split; [left; reflexivity | exact Rxy] |].
  destruct (IH I) as (b & Ib & Rb). exists b. split; [right; exact Ib | exact Rb].
Qed.

Lemma Forall2_in_right {A B : Type} (R : A -> B -> Prop) (l : list A) (m : list B) (b : B) :
  Forall2 R l m -> In b m -> exists a, In a l /\ R a b.
Proof.
  induction 1 as [| x y l m Rxy F IH]; [intros [] |].
  intros [<- | I]; [exists x; split; [left; reflexivity | exact Rxy] |].
  destruct (IH I) as (a & Ia & Ra). exists a. split; [right; exact Ia | exact Ra].
Qed.

(** On a table of ISO dates the dates of a key parse, and the ranges computed
    from them hold the missing days of the key and no other day. *)
Lemma iso_gaps {V : Type} (t : table V) (k : string) :
  iso_table t ->
  exists dates,
    parse_rows (select_dates_asc t k) = Ok dates
    /\ forall n, reported (calendar_gaps dates) n <-> missing_day t k n.
Proof.
  intros Iso. unfold select_dates_asc.
  destruct (parse_iso_rows (sort_asc (dates_of t k))) as (dates & E & F).
  { intros s I. apply in_sort_asc, in_dates_of in I.
    destruct I as (r & Ir & _ & <-). apply Iso, Ir. }
  exists dates. split; [exact E |].
  assert (Val : forall D, In D dates -> valid_ymd (year D) (month D) (day D) = true).
  { intros D ID. destruct (Forall2_in_right _ _ _ D F ID) as (s & _ & _ & VD). exact VD. }
  assert (Asc : ascending Z.le (map toordinal dates))
    by (eapply ascending_days; [exact F | apply ascending_sort_asc]).
  assert (St : forall m, stored_day t k m <-> In m (map toordinal dates)).
  { intros m. split.
    - intros (r & D & Ir & Kr & SD & <-).
      assert (Is : In (date r) (sort_asc (dates_of t k)))
        by (apply in_sort_asc, in_dates_of; eauto).
      destruct (Forall2_in_left _ _ _ _ F Is) as (D' & ID' & ED' & VD').
      rewrite ED', (strptime_strftime D' VD') in SD. injection SD as <-.
      rewrite midnight_toordinal. apply in_map, ID'.
    - intros Im. apply in_map_iff in Im. destruct Im as (D' & <- & ID').
      destruct (Forall2_in_right _ _ _ D' F ID') as (s & Is & Es & VD').
      apply in_sort_asc, in_dates_of in Is. destruct Is as (r & Ir & Kr & Er).
      destruct (strptime_strftime_ord D' VD') as (D1 & S1 & O1).
      exists r, D1. repeat split; try assumption. rewrite Er, Es. exact S1. }
  intros n. rewrite (reported_calendar_gaps dates n Val).
  rewrite (gap_between_consecutive _ n Asc). unfold missing_day.
  rewrite St. split.
  - intros (Nn & lo & hi & Ilo & Ihi & B). split; [exact Nn |].
    exists lo, hi. rewrite !St. auto.
  - intros (Nn & lo & hi & Ilo & Ihi & B). split; [exact Nn |].
    exists lo, hi. rewrite <- !St. auto.
Qed.

Lemma missing_date_ranges_stock_eq (w : World) (symbol : string)
    (dates : list datetime) :
  parse_rows (select_dates_asc (stocks w) symbol) = Ok dates ->
  _get_missing_date_ranges_stock symbol w = (w, Ok (calendar_gaps dates)).
Proof.
  intros E. unfold _get_missing_date_ranges_stock, bind, get, lift_result, ret.
  destruct (select_dates_asc (stocks w) symbol) as [| s rows] eqn:R.
  - injection E as <-. reflexivity.
  - fold (parse_rows (s :: rows)). rewrite E.
    pose proof (missing_ranges_loop [] dates [] (parse_rows_Forall _ _ E)) as L.
    simpl in L. rewrite L. reflexivity.
Qed.

Lemma missing_date_ranges_debt_eq (w : World) (nation : string)
    (dates : list datetime) :
  parse_rows (select_dates_asc (national_debt w) nation) = Ok dates ->
  _get_missing_date_ranges_debt nation w = (w, Ok (calendar_gaps dates)).
Proof.
  intros E. unfold _get_missing_date_ranges_debt, bind, get, lift_result, ret.
  destruct (select_dates_asc (national_debt w) nation) as [| s rows] eqn:R.
  - injection E as <-. reflexivity.
  - fold (parse_rows (s :: rows)). rewrite E.
    pose proof (missing_ranges_loop [] dates [] (parse_rows_Forall _ _ E)) as L.
    simpl in L. f_equal. exact L.
Qed.

(** X9: on a table of ISO dates gap detection does not fail and only reads,
    and the ranges it returns hold exactly the missing days of the key: a
    calendar day lies in one of the ranges if and only if it is not stored for
    the key and lies strictly between two days that are.  The same holds of
    the routine for stocks and of the routine for national debt. *)
Theorem X9_gap_detection_reports_the_missing_days (w : World) (k : string) :
  (iso_table (stocks w) ->
   exists ranges,
     _get_missing_date_ranges_stock k w = (w, Ok ranges)
     /\ forall n, reported ranges n <-> missing_day (stocks w) k n)
  /\ (iso_table (national_debt w) ->
      exists ranges,
        _get_missing_date_ranges_debt k w = (w, Ok ranges)
        /\ forall n, reported ranges n <-> missing_day (national_debt w) k n).
Proof.
  split; intros Iso.
  - destruct (iso_gaps (stocks w) k Iso) as (dates & E & G).
    exists (calendar_gaps dates). split; [| exact G].
    apply missing_date_ranges_stock_eq, E.
  - destruct (iso_gaps (national_debt w) k Iso) as (dates & E & G).
    exists (calendar_gaps dates). split; [| exact G].
    apply missing_date_ranges_debt_eq, E.
Qed.

Example gap_detection_sample :
  _get_missing_date_ranges_debt "US" sample_world
  = (sample_world, Ok [("2023-01-03", "2023-01-03")]).
Proof. vm_compute. reflexivity. Qed.

(** ** The list of tracked stocks after an add *)

Lemma add_stock_cons (stock sd ed : string) (a : entry) (r : list entry) :
  add_stock stock sd ed (a :: r)
  = if same_stock stock a then mk_entry (name a) sd (Some ed) :: r
    else a :: add_stock stock sd ed r.
Proof.
  unfold add_stock, same_stock. simpl.
  destruct (upper (name a) =? upper stock)%string; [reflexivity |].
  destruct (update_existing stock sd ed r); reflexivity.
Qed.

Lemma add_stock_nil (stock sd ed : string) :
  add_stock stock sd ed [] = [mk_entry (upper stock) sd (Some ed)].
Proof. reflexivity. Qed.

Lemma same_stock_upper (stock sd : string) (ed : option string) :
  same_stock stock (mk_entry (upper stock) sd ed) = true.
Proof. unfold same_stock. simpl. rewrite upper_idem. apply String.eqb_refl. Qed.

Lemma find_stock_add_same (stock sd ed : string) (l : list entry) :
  exists e, find_stock stock (add_stock stock sd ed l) = Some e
            /\ start_date e = sd /\ end_date e = Some ed.
Proof.
  unfold find_stock. induction l as [| a r IH].
  - rewrite add_stock_nil. simpl. rewrite same_stock_upper. eauto.
  - rewrite add_stock_cons. destruct (same_stock stock a) eqn:S; simpl.
    + unfold same_stock in *. simpl. rewrite S. eauto.
    + rewrite S. exact IH.
Qed.

Lemma find_stock_add_other (stock other sd ed : string) (l : list entry) :
  upper other <> upper stock ->
  find_stock other (add_stock stock sd ed l) = find_stock other l.
Proof.
  intros Ne. unfold find_stock. induction l as [| a r IH].
  - rewrite add_stock_nil. simpl. unfold same_stock. simpl. rewrite upper_idem.
    destruct (String.eqb_spec (upper stock) (upper other)); [congruence | reflexivity].
  - rewrite add_stock_cons. destruct (same_stock stock a) eqn:S; simpl.
    + unfold same_stock in *. simpl. apply String.eqb_eq in S. rewrite S.
      destruct (String.eqb_spec (upper stock) (upper other)); [congruence | reflexivity].
    + rewrite IH. reflexivity.
Qed.

Lemma add_stock_again (stock stock' sd ed sd' ed' : string) (l : list entry) :
  upper stock' = upper stock ->
  add_stock stock' sd' ed' (add_stock stock sd ed l) = add_stock stock' sd' ed' l.
Proof.
  intros E.
  assert (S : forall a, same_stock stock' a = same_stock stock a)
    by (intros a; unfold same_stock; rewrite E; reflexivity).
  induction l as [| a r IH].
  - rewrite !add_stock_nil, add_stock_cons, S, same_stock_upper. simpl.
    rewrite E. reflexivity.
  - rewrite !add_stock_cons, S. destruct (same_stock stock a) eqn:Sa.
    + rewrite add_stock_cons, S. unfold same_stock in *. simpl. rewrite Sa.
      reflexivity.
    + rewrite add_stock_cons, S, Sa, IH. reflexivity.
Qed.

Lemma in_add_stock_names (stock sd ed : string) (l : list entry) (x : string) :
  In x (map (fun e => upper (name e)) (add_stock stock sd ed l)) ->
  In x (map (fun e => upper (name e)) l) \/ x = upper stock.
Proof.
  induction l as [| a r IH].
  - rewrite add_stock_nil. simpl. rewrite upper_idem. intros [<- | []]. auto.
  - rewrite add_stock_cons. destruct (same_stock stock a); simpl.
    + auto.
    + intros [<- | I]; [auto |]. apply IH in I. tauto.
Qed.

Lemma distinct_add_stock (stock sd ed : string) (l : list entry) :
  distinct_stocks l -> distinct_stocks (add_stock stock sd ed l).
Proof.
  unfold distinct_stocks. induction l as [| a r IH]; intros N.
  - rewrite add_stock_nil. simpl. constructor; [intros [] | constructor].
  - rewrite add_stock_cons. destruct (same_stock stock a) eqn:S; simpl.
    + exact N.
    + simpl in N. inversion N as [| ? ? Na Nr]; subst.
      constructor; [| apply IH, Nr].
      intros I. apply in_add_stock_names in I. destruct I as [I | E]; [auto |].
      unfold same_stock in S. apply String.eqb_neq in S. auto.
Qed.

Lemma length_add_stock (stock sd ed : string) (l : list entry) :
  List.length (add_stock stock sd ed l)
  = (List.length l + (if existsb (same_stock stock) l then 0 else 1))%nat.
Proof.
  induction l as [| a r IH]; [reflexivity |].
  rewrite add_stock_cons. simpl. destruct (same_stock stock a); simpl.
  - rewrite Nat.add_0_r. reflexivity.
  - rewrite IH. reflexivity.
Qed.

Lemma add_command_toml (P : Provider) (stock sd : string) (start : datetime)
    (w : World) :
  strptime sd = Some start ->
  toml_file (fst (add_command P stock sd w))
  = mk_config (Some (add_stock stock sd (strftime (now P))
                       (tracked (cfg_stocks (toml_file w)))))
              (cfg_national_debt (toml_file w)).
Proof.
  intros S. unfold add_command. rewrite S. unfold bind, get, modify.
  set (w1 := set_toml _ w).
  pose proof (capture_data_file_toml P w1) as T.
  destruct (capture_data P w1) as [w2 [u | x]]; simpl in *; rewrite T; reflexivity.
Qed.

(** X10: when the start date parses, the configuration that add leaves,
    whether or not the capture that follows succeeds, tracks the stock with
    the given start date and today as end date (the first entry found for the
    symbol, case ignored, carries them); the entry found for any other symbol
    is the one found before, the list gains one entry if none matched and none
    otherwise, and the list of nations is the one it was. *)
Theorem X10_add_tracks_the_stock (P : Provider) (stock sd : string) (start : datetime)
    (w : World) :
  strptime sd = Some start ->
  let l := tracked (cfg_stocks (toml_file w)) in
  let c' := toml_file (fst (add_command P stock sd w)) in
  (exists e, find_stock stock (tracked (cfg_stocks c')) = Some e
             /\ start_date e = sd /\ end_date e = Some (strftime (now P)))
  /\ (forall other, upper other <> upper stock ->
                    find_stock other (tracked (cfg_stocks c')) = find_stock other l)
  /\ List.length (tracked (cfg_stocks c'))
     = (List.length l + (if existsb (same_stock stock) l then 0 else 1))%nat
  /\ cfg_national_debt c' = cfg_national_debt (toml_file w).
Proof.
  intros S. cbv zeta. rewrite (add_command_toml P stock sd start w S). simpl.
  split; [apply find_stock_add_same |].
  split; [intros other Ne; apply find_stock_add_other, Ne |].
  split; [apply length_add_stock | reflexivity].
Qed.

Lemma X10_witness :
  strptime "2024-01-01" = Some (mk_datetime 2024 1 1 0 0 0 0)
  /\ find_stock "msft"
       (tracked (cfg_stocks (toml_file (fst (add_command sample_provider "msft"
                                               "2024-01-01" sample_world)))))
     = find_stock "MSFT"
         (tracked (cfg_stocks (toml_file (fst (add_command sample_provider "msft"
                                                 "2024-01-01" sample_world)))))
  /\ find_stock "AAPL"
       (tracked (cfg_stocks (toml_file (fst (add_command sample_provider "msft"
                                               "2024-01-01" sample_world)))))
     = Some (mk_entry "AAPL" "2023-01-01" None).
Proof.
  split; [reflexivity |]. split; [vm_compute; reflexivity |].
  destruct (X10_add_tracks_the_stock sample_provider "msft" "2024-01-01"
              (mk_datetime 2024 1 1 0 0 0 0) sample_world eq_refl) as (_ & O & _).
  rewrite (O "AAPL"); [reflexivity |]. vm_compute. discriminate.
Defined.

(** X11: an add never makes two entries name the same stock (case ignored)
    when no two did, and the later of two adds of a stock wins: adding the
    stock again, in whatever case, leaves the configuration that the second
    add alone would have left. *)
Theorem X11_add_again (P : Provider) (stock stock' sd sd' : string)
    (start start' : datetime) (w : World) :
  strptime sd = Some start -> strptime sd' = Some start' ->
  upper stock' = upper stock ->
  let w1 := fst (add_command P stock sd w) in
  toml_file (fst (add_command P stock' sd' w1))
  = toml_file (fst (add_command P stock' sd' w))
  /\ (distinct_stocks (tracked (cfg_stocks (toml_file w))) ->
      distinct_stocks (tracked (cfg_stocks (toml_file w1)))).
Proof.
  intros S S' E. cbv zeta.
  rewrite (add_command_toml P stock' sd' start' _ S').
  rewrite (add_command_toml P stock' sd' start' w S').
  rewrite (add_command_toml P stock sd start w S). simpl.
  split; [| apply distinct_add_stock].
  rewrite (add_stock_again _ _ _ _ _ _ _ E). reflexivity.
Qed.

Lemma X11_witness :
  toml_file (fst (add_command sample_provider "aapl" "2022-06-01"
                    (fst (add_command sample_provider "AAPL" "2024-01-01" sample_world))))
  = toml_file (fst (add_command sample_provider "aapl" "2022-06-01" sample_world)).
Proof.
  exact (proj1 (X11_add_again sample_provider "AAPL" "aapl" "2024-01-01" "2022-06-01"
                  (mk_datetime 2024 1 1 0 0 0 0) (mk_datetime 2022 6 1 0 0 0 0)
                  sample_world eq_refl eq_refl eq_refl)).
Defined.

(** ** How an add ends *)

Lemma for_each_reaches {A : Type} (body : A -> M unit) (l : list A) :
  (forall x w, grows w (fst (body x w))) ->
  forall e w w', In e l -> for_each l body w = (w', Ok tt) ->
    exists w1 w2, grows w w1 /\ body e w1 = (w2, Ok tt) /\ grows w2 w'.
Proof.
  intros Hg e. induction l as [| x l IH]; intros w w' I E; [destruct I |].
  simpl in E. unfold bind in E.
  destruct (body x w) as [w1 [[] | err]] eqn:B; [| discriminate].
  destruct I as [-> | I].
  - exists w, w1. split; [apply grows_refl |]. split; [exact B |].
    pose proof (for_each_grows body l Hg w1) as G. rewrite E in G. exact G.
  - destruct (IH w1 w' I E) as (w2 & w3 & G1 & B2 & G2). exists w2, w3.
    split; [| auto]. eapply grows_trans; [| exact G1].
    specialize (Hg x w). rewrite B in Hg. exact Hg.
Qed.

Lemma capture_stock_entry_grows (P : Provider) (e : entry) (w : World) :
  grows w (fst (capture_stock_entry P e w)).
Proof. rewrite capture_stock_entry_eq. apply process_stock_data_grows. Qed.

Lemma capture_debt_entry_grows (P : Provider) (e : entry) (w : World) :
  grows w (fst (capture_debt_entry P e w)).
Proof. rewrite capture_debt_entry_eq. apply process_national_debt_data_grows. Qed.

Lemma capture_stock_entry_fires (P : Provider) (e : entry) (w w2 : World) :
  capture_stock_entry P e w = (w2, Ok tt) ->
  exists start, strptime (start_date e) = Some start
                /\ requested w w2 (name e, strftime start, strftime (now P)).
Proof.
  rewrite capture_stock_entry_eq, process_stock_data_eq.
  destruct (strptime (start_date e)) as [start |]; [| discriminate].
  cbv zeta. destruct (fetched_stock P (name e) start); [| discriminate].
  intros E. injection E as <-. exists start. split; [reflexivity |].
  exists [(name e, strftime start, strftime (now P))]. simpl. auto.
Qed.

Lemma capture_data_requests_stock (P : Provider) (w w' : World) (e : entry) :
  capture_data_conn P w = (w', Ok tt) ->
  In e (tracked (cfg_stocks (toml_file w))) ->
  exists start, strptime (start_date e) = Some start
                /\ requested w w' (name e, strftime start, strftime (now P)).
Proof.
  rewrite capture_data_loops. unfold bind. intros E I.
  destruct (for_each (tracked (cfg_stocks (toml_file w))) (capture_stock_entry P) w)
    as [w1 [[] | x]] eqn:L; [| discriminate].
  destruct (for_each_reaches _ _ (capture_stock_entry_grows P) e w w1 I L)
    as (w2 & w3 & G1 & B & G2).
  destruct (capture_stock_entry_fires P e w2 w3 B) as (start & S & R).
  exists start. split; [exact S |].
  eapply requested_grows_l; [exact G1 |]. eapply requested_grows_r; [exact R |].
  eapply grows_trans; [exact G2 |].
  pose proof (for_each_grows _ (tracked (cfg_national_debt (toml_file w)))
                (capture_debt_entry_grows P) w1) as G3.
  rewrite E in G3. exact G3.
Qed.

(** X12: add ends in [sys.exit(1)] or normally, never with another exception;
    with a start date that does not parse it exits before anything is
    written or requested; and when it ends normally the provider has been
    asked for the stock, under the name of its entry, from the given start
    date to today. *)
Theorem X12_how_add_ends (P : Provider) (stock sd : string) (w : World) :
  let w' := fst (add_command P stock sd w) in
  (forall x, snd (add_command P stock sd w) = Raise x -> x = SystemExit)
  /\ (strptime sd = None -> add_command P stock sd w = (w, Raise SystemExit))
  /\ (snd (add_command P stock sd w) = Ok tt ->
      exists e start,
        find_stock stock (tracked (cfg_stocks (toml_file w'))) = Some e
        /\ strptime sd = Some start
        /\ requested w w' (name e, strftime start, strftime (now P))).
Proof.
  cbv zeta. split; [| split].
  - intros x. unfold add_command.
    destruct (strptime sd); [| simpl; congruence].
    unfold bind, get, modify.
    match goal with |- context [capture_data P ?w1] =>
      destruct (capture_data P w1) as [w2 [u | y]] end; simpl; congruence.
  - intros S. unfold add_command. rewrite S. reflexivity.
  - intros R.
    destruct (strptime sd) as [start |] eqn:S;
      [| unfold add_command in R; rewrite S in R; discriminate R].
    destruct (find_stock_add_same stock sd (strftime (now P))
                (tracked (cfg_stocks (toml_file w)))) as (e & F & Es & _).
    exists e, start. rewrite (add_command_toml P stock sd start w S). simpl.
    split; [exact F |]. split; [reflexivity |].
    unfold add_command in *. rewrite S in *. unfold bind, get, modify in *.
    set (w1 := set_toml _ w) in *.
    assert (I : In e (tracked (cfg_stocks (toml_file w1)))).
    { apply find_some in F. exact (proj1 F). }
    pose proof (capture_data_requests_stock P w1) as C.
    unfold capture_data in *. rewrite with_connection_eq in *.
    destruct (capture_data_conn P w1) as [w2 [[] | y]]; [| discriminate R].
    destruct (C w2 e eq_refl I) as (start' & S' & Rq).
    rewrite Es, S in S'. injection S' as <-. exact Rq.
Qed.

Example add_command_bad_date :
  add_command sample_provider "MSFT" "01/02/2024" sample_world
  = (sample_world, Raise SystemExit).
Proof. reflexivity. Qed.

(** ** The requests of a full capture *)

Lemma for_each_requests (body : entry -> M unit) (req : entry -> option request)
    (l : list entry) :
  (forall e w w2, body e w = (w2, Ok tt) ->
                  exists r, req e = Some r /\ requests w2 = requests w ++ [r]) ->
  forall w w', for_each l body w = (w', Ok tt) ->
    exists rs, requests w' = requests w ++ rs /\ map Some rs = map req l.
Proof.
  intros H. induction l as [| x l IH]; intros w w' E; simpl in E.
  - injection E as <-. exists []. rewrite app_nil_r. auto.
  - unfold bind in E. destruct (body x w) as [w1 [[] | err]] eqn:B; [| discriminate].
    destruct (H x w w1 B) as (r & R & Q). destruct (IH w1 w' E) as (rs & Q' & M).
    exists (r :: rs). split.
    + rewrite Q', Q, <- app_assoc. reflexivity.
    + simpl. rewrite R, M. reflexivity.
Qed.

Lemma capture_stock_entry_request (P : Provider) (e : entry) (w w2 : World) :
  capture_stock_entry P e w = (w2, Ok tt) ->
  exists r, request_of P (name e) e = Some r /\ requests w2 = requests w ++ [r].
Proof.
  rewrite capture_stock_entry_eq, process_stock_data_eq. unfold request_of.
  destruct (strptime (start_date e)) as [start |]; [| discriminate].
  cbv zeta. destruct (fetched_stock P (name e) start); [| discriminate].
  intros E. injection E as <-. eexists. split; reflexivity.
Qed.

Lemma capture_debt_entry_request (P : Provider) (e : entry) (w w2 : World) :
  capture_debt_entry P e w = (w2, Ok tt) ->
  exists r, request_of P (proxy_symbol (name e)) e = Some r
            /\ requests w2 = requests w ++ [r].
Proof.
  rewrite capture_debt_entry_eq, process_national_debt_data_eq. unfold request_of.
  destruct (strptime (start_date e)) as [start |]; [| discriminate].
  cbv zeta. destruct (fetched_debt P (name e) start); [| discriminate].
  intros E. injection E as <-. eexists. split; reflexivity.
Qed.

Lemma capture_data_requests (P : Provider) (w : World) :
  snd (capture_data_conn P w) = Ok tt ->
  exists rs rd,
    requests (fst (capture_data_conn P w)) = requests w ++ rs ++ rd
    /\ map Some rs
       = map (fun e => request_of P (name e) e) (tracked (cfg_stocks (toml_file w)))
    /\ map Some rd
       = map (fun e => request_of P (proxy_symbol (name e)) e)
             (tracked (cfg_national_debt (toml_file w))).
Proof.
  rewrite capture_data_loops. unfold bind.
  pose proof (for_each_requests (capture_stock_entry P)
                (fun e => request_of P (name e) e)
                (tracked (cfg_stocks (toml_file w)))
                (capture_stock_entry_request P) w) as HS.
  destruct (for_each (tracked (cfg_stocks (toml_file w))) (capture_stock_entry P) w)
    as [w1 [[] | x]]; [| intros E; discriminate E].
  destruct (HS w1 eq_refl) as (rs & Qs & Ms).
  pose proof (for_each_requests (capture_debt_entry P)
                (fun e => request_of P (proxy_symbol (name e)) e)
                (tracked (cfg_national_debt (toml_file w)))
                (capture_debt_entry_request P) w1) as HD.
  destruct (for_each (tracked (cfg_national_debt (toml_file w))) (capture_debt_entry P) w1)
    as [w2 [[] | x]]; [| intros E; discriminate E].
  destruct (HD w2 eq_refl) as (rd & Qd & Md).
  intros _. exists rs, rd. simpl. rewrite Qd, Qs, <- app_assoc. auto.
Qed.

(** X13: a full capture that ends normally has asked the provider for exactly
    one price history for each tracked entry, in the order of the
    configuration, the stocks first: for a stock under its name, for a nation
    under its proxy symbol, each from the start date of the entry to today;
    the end date of the entry is not used.  This is so of the run on its
    connection and of [capture_data] as a whole. *)
Theorem X13_one_request_for_each_entry (P : Provider) (w : World) (run : M unit) :
  In run (views (capture_data_conn P)) ->
  snd (run w) = Ok tt ->
  exists rs rd,
    requests (fst (run w)) = requests w ++ rs ++ rd
    /\ map Some rs
       = map (fun e => request_of P (name e) e) (tracked (cfg_stocks (toml_file w)))
    /\ map Some rd
       = map (fun e => request_of P (proxy_symbol (name e)) e)
             (tracked (cfg_national_debt (toml_file w))).
Proof.
  intros [<- | [<- | []]]; [apply capture_data_requests |].
  rewrite with_connection_eq. simpl. apply capture_data_requests.
Qed.

Lemma X13_witness :
  In (capture_data sample_provider) (views (capture_data_conn sample_provider))
  /\ requests (fst (capture_data sample_provider sample_world))
     = [("AAPL", "2023-01-01", "2023-01-06"); ("^TNX", "2023-01-01", "2023-01-06")].
Proof.
  assert (R : In (capture_data sample_provider) (views (capture_data_conn sample_provider)))
    by (right; left; reflexivity).
  split; [exact R |].
  assert (E : snd (capture_data sample_provider sample_world) = Ok tt)
    by (vm_compute; reflexivity).
  destruct (X13_one_request_for_each_entry sample_provider sample_world
              (capture_data sample_provider) R E)
    as (rs & rd & Q & Ms & Md).
  rewrite Q.
  destruct rs as [| r1 [| r2 rs]]; try discriminate Ms.
  destruct rd as [| d1 [| d2 rd]]; try discriminate Md.
  injection Ms as ->. injection Md as ->. reflexivity.
Defined.

(** ** Nations and their series *)

Lemma proxy_symbol_TNX (nation : string) : proxy_symbol nation = "^TNX".
Proof.
  unfold proxy_symbol, TREASURY_SYMBOLS. simpl.
  destruct (nation =? "US")%string; [reflexivity |].
  destruct (nation =? "USA")%string; [reflexivity |].
  destruct (nation =? "United States")%string; reflexivity.
Qed.

(** X15: the nation code does not select the series: whatever the code, the
    provider is asked for the one symbol that the table of proxies and its
    default name, and the capture for a nation is the capture for any other. *)
Theorem X15_every_nation_shares_one_series (P : Provider) (nation nation' : string)
    (start : datetime) (w : World) :
  proxy_symbol nation = "^TNX"
  /\ capture_national_debt P nation start w = capture_national_debt P nation' start w.
Proof.
  split; [apply proxy_symbol_TNX |].
  unfold capture_national_debt. rewrite !proxy_symbol_TNX. reflexivity.
Qed.

(** ** A refresh that is answered with no bar *)

Lemma for_each_pivot_ok (body : entry -> M unit) (I1 I2 : World -> Prop)
    (e : entry) (l : list entry) :
  NoDup (map name l) ->
  (forall x w, name x <> name e -> I1 w -> I1 (fst (body x w))) ->
  (forall x w w2, name x = name e -> I1 w -> body x w = (w2, Ok tt) -> I2 w2) ->
  (forall x w, name x <> name e -> I2 w -> I2 (fst (body x w))) ->
  forall w w', In e l -> I1 w -> for_each l body w = (w', Ok tt) -> I2 w'.
Proof.
  intros N H1 Hk H2. induction l as [| x l IH]; intros w w' I Iw E; [destruct I |].
  simpl in N. inversion N as [| ? ? Nx Nl]; subst.
  simpl in E. unfold bind in E.
  destruct (body x w) as [w1 [[] | err]] eqn:B; [| discriminate].
  destruct (String.eqb_spec (name x) (name e)) as [Ex | Nx'].
  - assert (J : I2 w1) by (eapply Hk; eauto).
    pose proof (for_each_invariant I2 body l) as F.
    assert (K : forall y w0, In y l -> I2 w0 -> I2 (fst (body y w0))).
    { intros y w0 Iy. apply H2. intros Ey. apply Nx. rewrite Ex, <- Ey.
      apply in_map, Iy. }
    specialize (F K w1 J). rewrite E in F. exact F.
  - destruct I as [-> | I]; [contradiction |].
    apply (IH Nl w1 w' I); [| exact E].
    specialize (H1 x w Nx' Iw). rewrite B in H1. exact H1.
Qed.

Lemma filter_filter_comm {A : Type} (p q : A -> bool) (l : list A) :
  filter p (filter q l) = filter q (filter p l).
Proof.
  induction l as [| a l IH]; [reflexivity |]. simpl.
  destruct (p a) eqn:Pa, (q a) eqn:Qa; simpl; rewrite ?Pa, ?Qa, IH; reflexivity.
Qed.

Lemma rows_of_delete_where {V : Type} (t : table V) (k d k' : string) :
  rows_of (delete_where t k d) k'
  = filter (fun r => negb (matches k d r)) (rows_of t k').
Proof. unfold rows_of, delete_where. simpl. apply filter_filter_comm. Qed.

Lemma rows_of_delete_where_ext {V : Type} (t t' : table V) (k d k' : string) :
  rows_of t' k' = rows_of t k' ->
  rows_of (delete_where t' k d) k' = rows_of (delete_where t k d) k'.
Proof. intros E. rewrite !rows_of_delete_where, E. reflexivity. Qed.

Lemma not_in_dates_of_deleted {V : Type} (t t' : table V) (k L : string) :
  rows_of t' k = rows_of (delete_where t k L) k -> ~ In L (dates_of t' k).
Proof.
  unfold dates_of. fold (rows_of t' k). intros -> I.
  apply in_map_iff in I. destruct I as (r & D & I).
  unfold rows_of in I. apply filter_In in I. destruct I as [I K].
  apply in_delete_where in I. destruct I as [_ M]. apply matches_false in M.
  apply M. split; [apply String.eqb_eq, K | exact D].
Qed.

Lemma fetched_stock_no_bar (P : Provider) (k : string) (start : datetime) (sd : Stock) :
  history P k (strftime start) (strftime (now P)) = Ok [] ->
  fetched_stock P k start = Ok sd -> Stock_name sd = k /\ Stock_data sd = [].
Proof.
  intros H F. apply fetched_stock_spec in F.
  destruct F as (N & hist & Hh & I). split; [exact N |].
  rewrite H in Hh. injection Hh as <-.
  destruct (Stock_data sd) as [| [dt price] rest]; [reflexivity |].
  destruct (I dt price (or_introl eq_refl)) as (row & []).
Qed.

Lemma fetched_debt_no_bar (P : Provider) (k : string) (start : datetime)
    (dd : NationDebt) :
  history P (proxy_symbol k) (strftime start) (strftime (now P)) = Ok [] ->
  fetched_debt P k start = Ok dd -> NationDebt_data dd = [].
Proof.
  intros H F. apply fetched_debt_spec in F.
  destruct F as (hist & Hh & I).
  rewrite H in Hh. injection Hh as <-.
  destruct (NationDebt_data dd) as [| [dt y] rest]; [reflexivity |].
  destruct (I dt y (or_introl eq_refl)) as (row & []).
Qed.

Lemma refresh_stock_no_bar (P : Provider) (x : entry) (w w2 : World) (L : string)
    (Ld : datetime) :
  select_max_date (stocks w) (name x) = Some L -> strptime L = Some Ld ->
  history P (name x) (strftime Ld) (strftime (now P)) = Ok [] ->
  refresh_stock P x w = (w2, Ok tt) ->
  stocks w2 = delete_where (stocks w) (name x) L.
Proof.
  intros ML SL H. rewrite refresh_stock_eq, ML, SL, process_stock_data_eq.
  simpl name. simpl start_date. rewrite SL. cbv zeta.
  destruct (fetched_stock P (name x) Ld) as [sd | y] eqn:F; [| discriminate].
  destruct (fetched_stock_no_bar P _ _ _ H F) as [_ E]. rewrite E.
  intros Q. injection Q as <-. reflexivity.
Qed.

Lemma refresh_debt_no_bar (P : Provider) (x : entry) (w w2 : World) (L : string)
    (Ld : datetime) :
  select_max_date (national_debt w) (name x) = Some L -> strptime L = Some Ld ->
  history P (proxy_symbol (name x)) (strftime Ld) (strftime (now P)) = Ok [] ->
  refresh_debt P x w = (w2, Ok tt) ->
  national_debt w2 = delete_where (national_debt w) (name x) L.
Proof.
  intros ML SL H. rewrite refresh_debt_eq, ML, SL, process_national_debt_data_eq.
  simpl name. simpl start_date. rewrite SL. cbv zeta.
  destruct (fetched_debt P (name x) Ld) as [dd | y] eqn:F; [| discriminate].
  rewrite (fetched_debt_no_bar P _ _ _ H F).
  intros Q. injection Q as <-. reflexivity.
Qed.

(** ** Destructive refresh: what is written *)











(** At the sample data: on the connection the row of 2023-01-04 has been
    written again, under a new rowid, and the row of 2023-01-05 added; the
    file holds the three rows it held. *)
Example refresh_at_the_sample :
  map (fun r => (id r, date r))
      (rows_of (stocks (fst (update_data_conn sample_provider sample_world))) "AAPL")
  = [(1, "2023-01-01"); (2, "2023-01-02"); (4, "2023-01-04"); (5, "2023-01-05")]
  /\ map (fun r => (id r, date r))
         (rows_of (stocks (fst (update_data sample_provider sample_world))) "AAPL")
     = [(1, "2023-01-01"); (2, "2023-01-02"); (3, "2023-01-04")].
Proof. vm_compute. split; reflexivity. Qed.

(** X16: when the provider answers the request of a destructive refresh for
    a key with no bar at all, the row at the latest date of the key has been
    deleted on the connection of the run and nothing has been written in its
    place: when the run ends normally (the tracked keys being distinct) the
    rows of the key are there the rows it had without that one, and the
    former latest date is no longer among its dates.  [update_data] closes
    that connection without a commit: in the file the row at the latest date
    is still stored. *)
Theorem X16_refresh_answered_with_no_bar (P : Provider) (w : World) (e : entry)
    (L : string) (Ld : datetime) :
  snd (update_data_conn P w) = Ok tt -> strptime L = Some Ld ->
  (NoDup (map name (tracked (cfg_stocks (toml_file w)))) ->
   In e (tracked (cfg_stocks (toml_file w))) ->
   select_max_date (stocks w) (name e) = Some L ->
   history P (name e) (strftime Ld) (strftime (now P)) = Ok [] ->
   rows_of (stocks (fst (update_data_conn P w))) (name e)
   = rows_of (delete_where (stocks w) (name e) L) (name e)
   /\ ~ In L (dates_of (stocks (fst (update_data_conn P w))) (name e))
   /\ In L (dates_of (stocks (fst (update_data P w))) (name e)))
  /\ (NoDup (map name (tracked (cfg_national_debt (toml_file w)))) ->
      In e (tracked (cfg_national_debt (toml_file w))) ->
      select_max_date (national_debt w) (name e) = Some L ->
      history P (proxy_symbol (name e)) (strftime Ld) (strftime (now P)) = Ok [] ->
      rows_of (national_debt (fst (update_data_conn P w))) (name e)
      = rows_of (delete_where (national_debt w) (name e) L) (name e)
      /\ ~ In L (dates_of (national_debt (fst (update_data_conn P w))) (name e))
      /\ In L (dates_of (national_debt (fst (update_data P w))) (name e))).
Proof.
  intros R SL.
  assert (Latest : forall (V : Type) (t : table V) k,
             select_max_date t k = Some L -> In L (dates_of t k)).
  { intros V t k ML. unfold select_max_date in ML. apply sql_max_spec in ML.
    exact (proj1 ML). }
  destruct (with_connection_tables (update_data_conn P) w) as [Fs Fd].
  fold (update_data P) in Fs, Fd.
  revert R. rewrite update_data_loops. unfold bind. intros R.
  pose proof (for_each_invariant (fun w0 => national_debt w0 = national_debt w)
                (refresh_stock P) (tracked (cfg_stocks (toml_file w)))) as KD.
  specialize (KD ltac:(intros x w0 _ E;
                       destruct (refresh_stock_refreshed P x w0) as (_ & -> & _);
                       exact E) w eq_refl).
  pose proof (for_each_pivot_ok (refresh_stock P)
                (fun w0 => rows_of (stocks w0) (name e) = rows_of (stocks w) (name e))
                (fun w0 => rows_of (stocks w0) (name e)
                           = rows_of (delete_where (stocks w) (name e) L) (name e))
                e (tracked (cfg_stocks (toml_file w)))) as PS.
  destruct (for_each (tracked (cfg_stocks (toml_file w))) (refresh_stock P) w)
    as [w1 [[] | x]] eqn:LS; [| discriminate R].
  simpl in KD.
  pose proof (for_each_invariant (fun w0 => stocks w0 = stocks w1)
                (refresh_debt P) (tracked (cfg_national_debt (toml_file w)))) as KS.
  specialize (KS ltac:(intros x w0 _ E;
                       destruct (refresh_debt_refreshed P x w0) as (_ & -> & _);
                       exact E) w1 eq_refl).
  pose proof (for_each_pivot_ok (refresh_debt P)
                (fun w0 => rows_of (national_debt w0) (name e)
                           = rows_of (national_debt w) (name e))
                (fun w0 => rows_of (national_debt w0) (name e)
                           = rows_of (delete_where (national_debt w) (name e) L) (name e))
                e (tracked (cfg_national_debt (toml_file w)))) as PD.
  destruct (for_each (tracked (cfg_national_debt (toml_file w))) (refresh_debt P) w1)
    as [w2 [[] | x]] eqn:LD; [| discriminate R].
  simpl in KS. simpl fst. split.
  - intros N I ML H.
    assert (G : rows_of (stocks w1) (name e)
                = rows_of (delete_where (stocks w) (name e) L) (name e)).
    { apply (PS N) with (w := w); [| | | exact I | reflexivity | exact LS].
      - intros x w0 Nx E. rewrite <- E.
        destruct (refresh_stock_refreshed P x w0) as (C & _).
        eapply refreshed_other_key; [| exact C]. congruence.
      - intros x w0 w3 Ex E B.
        assert (ML0 : select_max_date (stocks w0) (name x) = Some L).
        { rewrite Ex, <- ML. apply select_max_date_rows_of_key, E. }
        rewrite <- Ex in H.
        rewrite (refresh_stock_no_bar P x w0 w3 L Ld ML0 SL H B), Ex.
        apply rows_of_delete_where_ext, E.
      - intros x w0 Nx E. rewrite <- E.
        destruct (refresh_stock_refreshed P x w0) as (C & _).
        eapply refreshed_other_key; [| exact C]. congruence. }
    rewrite KS. split; [exact G |].
    split; [eapply not_in_dates_of_deleted, G |]. rewrite Fs. apply Latest, ML.
  - intros N I ML H.
    assert (G : rows_of (national_debt w2) (name e)
                = rows_of (delete_where (national_debt w) (name e) L) (name e)).
    { apply (PD N) with (w := w1); [| | | exact I | rewrite KD; reflexivity | exact LD].
      - intros x w0 Nx E. rewrite <- E.
        destruct (refresh_debt_refreshed P x w0) as (C & _).
        eapply refreshed_other_key; [| exact C]. congruence.
      - intros x w0 w3 Ex E B.
        assert (ML0 : select_max_date (national_debt w0) (name x) = Some L).
        { rewrite Ex, <- ML. apply select_max_date_rows_of_key, E. }
        rewrite <- Ex in H.
        rewrite (refresh_debt_no_bar P x w0 w3 L Ld ML0 SL H B), Ex.
        apply rows_of_delete_where_ext, E.
      - intros x w0 Nx E. rewrite <- E.
        destruct (refresh_debt_refreshed P x w0) as (C & _).
        eapply refreshed_other_key; [| exact C]. congruence. }
    split; [exact G |].
    split; [eapply not_in_dates_of_deleted, G |]. rewrite Fd. apply Latest, ML.
Qed.

Lemma X16_witness :
  snd (update_data_conn silent_provider sample_world) = Ok tt
  /\ strptime "2023-01-04" = Some (mk_datetime 2023 1 4 0 0 0 0)
  /\ map date (rows_of (stocks (fst (update_data_conn silent_provider sample_world))) "AAPL")
     = ["2023-01-01"; "2023-01-02"]
  /\ In "2023-01-04"
        (dates_of (stocks (fst (update_data silent_provider sample_world))) "AAPL").
Proof.
  assert (R : snd (update_data_conn silent_provider sample_world) = Ok tt)
    by (vm_compute; reflexivity).
  split; [exact R |]. split; [reflexivity |].
  destruct (X16_refresh_answered_with_no_bar silent_provider sample_world
              (mk_entry "AAPL" "2023-01-01" None) "2023-01-04"
              (mk_datetime 2023 1 4 0 0 0 0) R eq_refl) as (S & _).
  destruct S as (S & _ & F).
  - vm_compute. repeat constructor. intros [].
  - left. reflexivity.
  - vm_compute. reflexivity.
  - reflexivity.
  - simpl name in S, F. split; [| exact F]. rewrite S. vm_compute. reflexivity.
Defined.

(** ** From the bars of the provider to the rows of the store *)

Lemma dict_set_fresh {B : Type} (k : datetime) (v : B) (d : list (datetime * B)) :
  ~ In k (map fst d) -> dict_set datetime_eqb k v d = d ++ [(k, v)].
Proof.
  induction d as [| [k' v'] d IH]; simpl; intros N; [reflexivity |].
  destruct (datetime_eqb k k') eqn:E.
  - apply datetime_eqb_eq in E. subst. exfalso. apply N. auto.
  - rewrite IH; [reflexivity |]. intros I. apply N. auto.
Qed.

(** The dictionary built from bars with distinct timestamps lists them in
    their order. *)
Lemma dict_of_distinct_rows {R B : Type} (f : R -> B) (hist : list (datetime * R))
    (acc : list (datetime * B)) :
  NoDup (map fst acc ++ map fst hist) ->
  fold_left (fun d '(dt, row) => dict_set datetime_eqb dt (f row) d) hist acc
  = acc ++ map (fun '(dt, row) => (dt, f row)) hist.
Proof.
  revert acc. induction hist as [| [dt row] hist IH]; simpl; intros acc N.
  - rewrite app_nil_r. reflexivity.
  - pose proof (NoDup_remove_2 _ _ _ N) as Nd.
    rewrite dict_set_fresh by (intros I; apply Nd, in_or_app; auto).
    rewrite IH.
    + rewrite <- app_assoc. reflexivity.
    + rewrite map_app, <- app_assoc. exact N.
Qed.

Lemma distinct_timestamps (hist : list (datetime * HistRow)) :
  one_bar_a_day hist -> NoDup (map fst hist).
Proof.
  unfold one_bar_a_day. intros N.
  apply (NoDup_map_inv strftime). rewrite map_map. exact N.
Qed.

Lemma fetched_stock_bars (P : Provider) (k : string) (start : datetime)
    (hist : list (datetime * HistRow)) (sd : Stock) :
  history P k (strftime start) (strftime (now P)) = Ok hist -> one_bar_a_day hist ->
  fetched_stock P k start = Ok sd ->
  Stock_name sd = k
  /\ exists pe_ratio,
       Stock_data sd = map (fun '(dt, row) => (dt, price_or_nan pe_ratio row)) hist
       /\ forall dt row, In (dt, row) hist ->
            price_of_row row pe_ratio = Ok (price_or_nan pe_ratio row).
Proof.
  intros H N F. apply fetched_stock_inv in F.
  destruct F as (hist' & v & pe_ratio & H' & _ & _ & En & D & A).
  rewrite H in H'. injection H' as <-. split; [exact En |].
  exists pe_ratio. split; [| exact A]. rewrite D.
  apply (dict_of_distinct_rows (price_or_nan pe_ratio) hist []).
  apply distinct_timestamps, N.
Qed.

Lemma fetched_debt_bars (P : Provider) (k : string) (start : datetime)
    (hist : list (datetime * HistRow)) (dd : NationDebt) :
  history P (proxy_symbol k) (strftime start) (strftime (now P)) = Ok hist ->
  one_bar_a_day hist ->
  fetched_debt P k start = Ok dd ->
  NationDebt_data dd = map (fun '(dt, row) => (dt, float_of_cell (Close row))) hist.
Proof.
  intros H N.
  unfold fetched_debt, capture_national_debt, ticker_history, bind, modify,
    lift_result, ret.
  rewrite H. simpl. intros E. injection E as <-. simpl.
  apply (dict_of_distinct_rows (fun row => float_of_cell (Close row)) hist []).
  apply distinct_timestamps, N.
Qed.

(** When the items written are of different days, each of them is stored
    with its values once all have been written. *)
Lemma holds_upsert_all {V A : Type} (f : A -> V) (k : string)
    (items : list (datetime * A)) (t : table V) (dt : datetime) (a : A) :
  NoDup (map (fun x => strftime (fst x)) items) -> In (dt, a) items ->
  holds (upsert_all f k items t) k (strftime dt) (f a).
Proof.
  revert t. induction items as [| [dt0 a0] items IH]; intros t N I; [destruct I |].
  simpl in N. inversion N as [| ? ? N0 Nr]; subst. simpl.
  destruct I as [E | I]; [| apply IH; assumption].
  injection E as -> ->. unfold holds. apply in_map_iff.
  exists (mk_row (next_id t) k (strftime dt) (f a)). split; [reflexivity |].
  apply in_upsert_all_frame.
  - apply in_insert_or_replace. right. reflexivity.
  - intros dt' a' I'. apply matches_false. simpl. intros [_ Ed].
    apply N0. apply in_map_iff. exists (dt', a'). split; [simpl; auto | exact I'].
Qed.

(** The columns written for a bar that converted. *)
Lemma bar_cols_of_price (row : HistRow) (pe_ratio : float) :
  price_of_row row pe_ratio = Ok (price_or_nan pe_ratio row) ->
  bar_cols row (if isnan pe_ratio then None else Some pe_ratio)
  = Some (stock_cols_of (price_or_nan pe_ratio row)).
Proof.
  intros E. apply price_of_row_ok in E. destruct E as (volume & Ev & ->).
  unfold bar_cols, stock_cols_of. rewrite Ev. reflexivity.
Qed.

(** X18: when the provider answers the request for an entry with bars of
    different days, a capture of the entry that ends normally has stored
    every bar: for a stock, a row under the name of the entry and the day of
    the bar with the bar's open, close, high and low as floats and its
    volume as an integer, each in its own column, and one P/E for all; for a
    nation, a row under the nation's name with the bar's close as yield. *)
Theorem X18_every_bar_is_stored (P : Provider) (e : entry) (w : World)
    (start : datetime) (hist : list (datetime * HistRow)) :
  strptime (start_date e) = Some start -> one_bar_a_day hist ->
  (history P (name e) (strftime start) (strftime (now P)) = Ok hist ->
   snd (_process_stock_data e (capture_stock P) w) = Ok tt ->
   exists pe,
     forall dt row, In (dt, row) hist ->
       exists cols,
         bar_cols row pe = Some cols
         /\ holds (stocks (fst (_process_stock_data e (capture_stock P) w)))
                  (name e) (strftime dt) cols)
  /\ (history P (proxy_symbol (name e)) (strftime start) (strftime (now P)) = Ok hist ->
      snd (_process_national_debt_data e (capture_national_debt P) w) = Ok tt ->
      forall dt row, In (dt, row) hist ->
        holds (national_debt (fst (_process_national_debt_data e
                                     (capture_national_debt P) w)))
              (name e) (strftime dt) (float_of_cell (Close row))).
Proof.
  intros S N. split; intros H.
  - rewrite process_stock_data_eq, S. cbv zeta.
    destruct (fetched_stock P (name e) start) as [sd | y] eqn:F; [| discriminate].
    simpl snd. intros AB.
    destruct (fetched_stock_bars P _ _ _ _ H N F) as (En & pe_ratio & Ed & A).
    exists (if isnan pe_ratio then None else Some pe_ratio).
    intros dt row I. exists (stock_cols_of (price_or_nan pe_ratio row)).
    split; [apply bar_cols_of_price, (A dt row I) |].
    simpl. rewrite (written_all _ AB), En, Ed.
    apply (holds_upsert_all stock_cols_of (name e) _ (stocks w) dt
             (price_or_nan pe_ratio row)).
    + rewrite map_map.
      rewrite (map_ext _ (fun b => strftime (fst b))); [exact N |].
      intros [dt' row']. reflexivity.
    + apply in_map_iff. exists (dt, row). split; [reflexivity | exact I].
  - rewrite process_national_debt_data_eq, S. cbv zeta.
    destruct (fetched_debt P (name e) start) as [dd | y] eqn:F; [| discriminate].
    intros _ dt row I. simpl. rewrite (fetched_debt_bars P _ _ _ _ H N F).
    apply (holds_upsert_all (fun y => y) (name e) _ (national_debt w) dt
             (float_of_cell (Close row))).
    + rewrite map_map.
      rewrite (map_ext _ (fun b => strftime (fst b))); [exact N |].
      intros [dt' row']. reflexivity.
    + apply in_map_iff. exists (dt, row). split; [reflexivity | exact I].
Qed.

Lemma one_bar_a_day_sample : one_bar_a_day sample_bars.
Proof.
  assert (E : map (fun b => strftime (fst b)) sample_bars
              = ["2023-01-03"; "2023-01-04"; "2023-01-05"]) by reflexivity.
  unfold one_bar_a_day. rewrite E.
  constructor; [intros [D | [D | []]]; discriminate D |].
  constructor; [intros [D | []]; discriminate D |].
  constructor; [intros [] | constructor].
Qed.

Lemma X18_witness :
  strptime "2023-01-01" = Some (mk_datetime 2023 1 1 0 0 0 0)
  /\ one_bar_a_day sample_bars
  /\ holds (national_debt
              (fst (_process_national_debt_data (mk_entry "FR" "2023-01-01" None)
                      (capture_national_debt sample_provider) sample_world)))
           "FR" "2023-01-05" one.
Proof.
  split; [reflexivity |]. split; [exact one_bar_a_day_sample |].
  apply (proj2 (X18_every_bar_is_stored sample_provider
                  (mk_entry "FR" "2023-01-01" None) sample_world
                  (mk_datetime 2023 1 1 0 0 0 0) sample_bars eq_refl
                  one_bar_a_day_sample) eq_refl eq_refl
               (mk_datetime 2023 1 5 0 0 0 0) (snd (bar 2023 1 5))).
  right. right. left. reflexivity.
Defined.

Example sample_bar_cols :
  bar_cols (snd (bar 2023 1 5)) None = Some sample_cols.
Proof. reflexivity. Qed.

(** ** A full capture of what is already stored *)

Lemma apply_upserts_app {V : Type} (t : table V) (a b : list (string * string * V)) :
  apply_upserts t (a ++ b) = apply_upserts (apply_upserts t a) b.
Proof. unfold apply_upserts. apply fold_left_app. Qed.

Lemma upsert_all_apply_upserts {V A : Type} (f : A -> V) (k : string)
    (items : list (datetime * A)) (t : table V) :
  upsert_all f k items t
  = apply_upserts t (map (fun '(dt, a) => (k, strftime dt, f a)) items).
Proof.
  revert t. induction items as [| [dt a] items IH]; intros t; [reflexivity |].
  simpl. apply IH.
Qed.

Lemma content_in_select_row {V : Type} (t : table V) (k d : string) (v : V) :
  In (k, d, v) (map content (rows t)) <-> In v (map cols (select_row t k d)).
Proof.
  unfold select_row. rewrite !in_map_iff. split.
  - intros (r & E & I). unfold content in E. injection E as Ek Ed Ev.
    exists r. split; [exact Ev |]. apply filter_In. split; [exact I |].
    apply matches_true. auto.
  - intros (r & E & I). apply filter_In in I. destruct I as [I M].
    apply matches_true in M. destruct M as [Ek Ed].
    exists r. split; [| exact I]. unfold content. congruence.
Qed.

(** Two tables under [UNIQUE(key, date)] that store the same values for
    every pair hold the same rows. *)
Lemma same_rows_by_select_row {V : Type} (t t' : table V) :
  unique_key_date t -> unique_key_date t' ->
  (forall k d, map cols (select_row t' k d) = map cols (select_row t k d)) ->
  same_rows t' t.
Proof.
  intros U U' H. unfold same_rows.
  apply NoDup_Permutation.
  - apply (NoDup_map_inv fst). rewrite <- keys_of_content. exact U'.
  - apply (NoDup_map_inv fst). rewrite <- keys_of_content. exact U.
  - intros [[k d] v]. rewrite !content_in_select_row, H. tauto.
Qed.

(** A sequence of upserts made a second time changes no stored value. *)
Lemma apply_upserts_twice {V : Type} (ups : list (string * string * V)) (t : table V) :
  unique_key_date t ->
  same_rows (apply_upserts (apply_upserts t ups) ups) (apply_upserts t ups).
Proof.
  intros U. apply same_rows_by_select_row.
  - apply apply_upserts_unique, U.
  - apply apply_upserts_unique, apply_upserts_unique, U.
  - intros k d.
    pose proof (apply_upserts_select_row ups (apply_upserts t ups) k d) as A.
    pose proof (apply_upserts_select_row ups t k d) as B.
    destruct (last_upsert ups k d) as [v |]; congruence.
Qed.

(** The loops of a full capture write what the provider answers and read
    nothing of the tables: from any two states they make the same upserts and
    end the same way. *)
Lemma capture_stock_loop_replay (P : Provider) (l : list entry) (w wa : World) :
  exists ups,
    stocks (fst (for_each l (capture_stock_entry P) w)) = apply_upserts (stocks w) ups
    /\ stocks (fst (for_each l (capture_stock_entry P) wa))
       = apply_upserts (stocks wa) ups
    /\ snd (for_each l (capture_stock_entry P) w)
       = snd (for_each l (capture_stock_entry P) wa).
Proof.
  revert w wa. induction l as [| e l IH]; intros w wa; [exists []; auto |].
  simpl. unfold bind. rewrite !capture_stock_entry_eq, !process_stock_data_eq.
  destruct (strptime (start_date e)) as [start |]; [| exists []; auto].
  cbv zeta.
  destruct (fetched_stock P (name e) start) as [sd | y]; [| exists []; auto].
  set (w1 := set_stocks _ (add_request _ w)).
  set (w2 := set_stocks _ (add_request _ wa)).
  destruct (all_bound (Stock_data sd)) as [[] | y].
  - destruct (IH w1 w2) as (ups & A & B & C).
    exists (map (fun '(dt, a) => (Stock_name sd, strftime dt, stock_cols_of a))
                (written (Stock_data sd)) ++ ups).
    rewrite !apply_upserts_app, <- !upsert_all_apply_upserts.
    rewrite A, B, C. auto.
  - exists (map (fun '(dt, a) => (Stock_name sd, strftime dt, stock_cols_of a))
                (written (Stock_data sd))).
    rewrite <- !upsert_all_apply_upserts. auto.
Qed.

Lemma capture_debt_loop_replay (P : Provider) (l : list entry) (w wa : World) :
  exists ups,
    national_debt (fst (for_each l (capture_debt_entry P) w))
    = apply_upserts (national_debt w) ups
    /\ national_debt (fst (for_each l (capture_debt_entry P) wa))
       = apply_upserts (national_debt wa) ups
    /\ snd (for_each l (capture_debt_entry P) w)
       = snd (for_each l (capture_debt_entry P) wa).
Proof.
  revert w wa. induction l as [| e l IH]; intros w wa; [exists []; auto |].
  simpl. unfold bind. rewrite !capture_debt_entry_eq, !process_national_debt_data_eq.
  destruct (strptime (start_date e)) as [start |]; [| exists []; auto].
  cbv zeta.
  destruct (fetched_debt P (name e) start) as [dd | y]; [| exists []; auto].
  set (w1 := set_national_debt _ (add_request _ w)).
  set (w2 := set_national_debt _ (add_request _ wa)).
  destruct (IH w1 w2) as (ups & A & B & C).
  exists (map (fun '(dt, a) => (name e, strftime dt, a)) (NationDebt_data dd) ++ ups).
  rewrite !apply_upserts_app, <- !upsert_all_apply_upserts.
  rewrite A, B, C. auto.
Qed.

Lemma capture_data_replay (P : Provider) (w wa : World) :
  toml_file wa = toml_file w ->
  exists us ud,
    stocks (fst (capture_data_conn P w)) = apply_upserts (stocks w) us
    /\ stocks (fst (capture_data_conn P wa)) = apply_upserts (stocks wa) us
    /\ national_debt (fst (capture_data_conn P w)) = apply_upserts (national_debt w) ud
    /\ national_debt (fst (capture_data_conn P wa)) = apply_upserts (national_debt wa) ud
    /\ snd (capture_data_conn P w) = snd (capture_data_conn P wa).
Proof.
  intros T. rewrite !capture_data_loops, T. unfold bind.
  set (ls := tracked (cfg_stocks (toml_file w))).
  set (ld := tracked (cfg_national_debt (toml_file w))).
  destruct (capture_stock_loop_replay P ls w wa) as (us & A & B & C).
  assert (KD : forall w0, national_debt (fst (for_each ls (capture_stock_entry P) w0))
                          = national_debt w0).
  { intros w0.
    apply (for_each_invariant (fun w1 => national_debt w1 = national_debt w0)); [| auto].
    intros x w1 _ E. destruct (capture_stock_entry_captured P x w1) as (_ & -> & _).
    exact E. }
  assert (KS : forall w0, stocks (fst (for_each ld (capture_debt_entry P) w0))
                          = stocks w0).
  { intros w0.
    apply (for_each_invariant (fun w1 => stocks w1 = stocks w0)); [| auto].
    intros x w1 _ E. destruct (capture_debt_entry_captured P x w1) as (_ & -> & _).
    exact E. }
  pose proof (KD w) as KDw. pose proof (KD wa) as KDa.
  destruct (for_each ls (capture_stock_entry P) w) as [w1 [[] | x]];
    destruct (for_each ls (capture_stock_entry P) wa) as [wa1 [[] | xa]];
    simpl in A, B, C, KDw, KDa; try discriminate C.
  - destruct (capture_debt_loop_replay P ld w1 wa1) as (ud & A' & B' & C').
    exists us, ud. rewrite !KS, A, B, A', B', KDw, KDa. auto.
  - exists us, []. simpl. rewrite A, B, KDw, KDa. auto.
Qed.

(** When the items fetched for the entry are all stored with the values
    that would be written, an iteration of a capture leaves the same rows. *)
Lemma same_rows_captured {V A : Type} (f : A -> V)
    (fetch : datetime -> option (list (datetime * A))) (k cfg_start : string)
    (t1 t t' : table V) :
  (forall start items,
      strptime cfg_start = Some start -> fetch start = Some items ->
      forall dt a, In (dt, a) items -> holds t1 k (strftime dt) (f a)) ->
  captured f fetch k cfg_start t t' ->
  same_rows t t1 /\ unique_key_date t ->
  same_rows t' t1 /\ unique_key_date t'.
Proof.
  intros NN [-> | (start & items & SS & F & ->)] [S U]; [auto |].
  assert (S' : same_rows (upsert_all f k items t) t).
  { apply same_rows_upsert_all_held; [exact U |].
    intros dt a I. eapply same_rows_holds; [apply same_rows_sym, S |].
    eapply NN; eassumption. }
  split.
  - eapply same_rows_trans; eassumption.
  - apply unique_upsert_all, U.
Qed.

(** X17: a full capture of what is already stored changes no row.  When
    every item that the provider's answers give for the tracked entries is
    stored under the key of its entry and its day with the values that would
    be written, the run leaves on its connection the rows it found, up to
    rowids and order: none added, none removed, none changed in value.  And
    whatever the provider answers, [capture_data] closes its connection
    without a commit: the file holds after it the rows it held, and a second
    call, which starts from them, ends as the first did. *)
Theorem X17_capture_again_changes_no_row (P : Provider) (w : World) :
  (unique_key_date (stocks w) -> unique_key_date (national_debt w) ->
   (forall e start items,
       In e (tracked (cfg_stocks (toml_file w))) ->
       strptime (start_date e) = Some start ->
       stock_items P (name e) start = Some items ->
       forall dt a, In (dt, a) items ->
         holds (stocks w) (name e) (strftime dt) (stock_cols_of a)) ->
   (forall e start items,
       In e (tracked (cfg_national_debt (toml_file w))) ->
       strptime (start_date e) = Some start ->
       debt_items P (name e) start = Some items ->
       forall dt a, In (dt, a) items ->
         holds (national_debt w) (name e) (strftime dt) a) ->
   same_rows (stocks (fst (capture_data_conn P w))) (stocks w)
   /\ same_rows (national_debt (fst (capture_data_conn P w))) (national_debt w))
  /\ (let f1 := fst (capture_data P w) in
      stocks f1 = stocks w /\ national_debt f1 = national_debt w
      /\ snd (capture_data P f1) = snd (capture_data P w)).
Proof.
  split.
  - intros US UD HS HD.
    destruct (capture_data_invariant P w
                (fun t => same_rows t (stocks w) /\ unique_key_date t)
                (fun t => same_rows t (national_debt w) /\ unique_key_date t))
      as ([A _] & [B _] & _).
    + intros e t t' In_e. apply same_rows_captured.
      intros start items. apply HS, In_e.
    + intros e t t' In_e. apply same_rows_captured.
      intros start items. apply HD, In_e.
    + split; [apply same_rows_refl | exact US].
    + split; [apply same_rows_refl | exact UD].
    + auto.
  - cbv zeta. unfold capture_data.
    destruct (with_connection_tables (capture_data_conn P) w) as [Es Ed].
    split; [exact Es |]. split; [exact Ed |].
    rewrite !(proj2 (proj2 (with_connection_kept (capture_data_conn P) _))).
    destruct (capture_data_replay P w (fst (with_connection (capture_data_conn P) w)))
      as (us' & ud' & _ & _ & _ & _ & C').
    + rewrite (proj1 (with_connection_kept (capture_data_conn P) w)).
      apply capture_data_toml.
    + symmetry. exact C'.
Qed.

Lemma X17_witness :
  unique_key_date (stocks stored_world)
  /\ unique_key_date (national_debt stored_world)
  /\ same_rows (stocks (fst (capture_data_conn sample_provider stored_world)))
               (stocks stored_world).
Proof.
  assert (US : unique_key_date (stocks stored_world))
    by (repeat apply unique_insert_or_replace; constructor).
  assert (UD : unique_key_date (national_debt stored_world)) by constructor.
  split; [exact US |]. split; [exact UD |].
  apply (proj1 (X17_capture_again_changes_no_row sample_provider stored_world) US UD).
  - intros e start items [<- | []] SS SI dt a I.
    vm_compute in SS. injection SS as <-.
    vm_compute in SI. injection SI as <-.
    destruct I as [E | [E | [E | []]]]; injection E as <- <-; vm_compute; auto.
  - intros e start items [].
Defined.

(** ** What the runs read of the configuration *)

Lemma same_store_refl (w : World) : same_store w w.
Proof. unfold same_store. auto. Qed.

Lemma for_each_same_store (body : entry -> M unit) (l l' : list entry) :
  (forall e e' w w', target e = target e' -> same_store w w' ->
     same_store (fst (body e w)) (fst (body e' w'))
     /\ snd (body e w) = snd (body e' w')) ->
  map target l = map target l' ->
  forall w w', same_store w w' ->
    same_store (fst (for_each l body w)) (fst (for_each l' body w'))
    /\ snd (for_each l body w) = snd (for_each l' body w').
Proof.
  intros H. revert l'. induction l as [| e l IH]; intros [| e' l'] E w w' S;
    try discriminate E; [simpl; auto |].
  cbn [map] in E. injection E as En Est El.
  assert (Et : target e = target e') by (unfold target; congruence).
  simpl. unfold bind.
  destruct (H e e' w w' Et S) as [S1 R1].
  destruct (body e w) as [w1 [[] | x]]; destruct (body e' w') as [w1' [[] | x']];
    simpl in S1, R1; try discriminate R1.
  - apply IH; assumption.
  - simpl. auto.
Qed.

Lemma process_stock_data_same_store (P : Provider) (e e' : entry) (w w' : World) :
  target e = target e' -> same_store w w' ->
  same_store (fst (_process_stock_data e (capture_stock P) w))
             (fst (_process_stock_data e' (capture_stock P) w'))
  /\ snd (_process_stock_data e (capture_stock P) w)
     = snd (_process_stock_data e' (capture_stock P) w').
Proof.
  unfold target, same_store. intros T (Es & Ed & Er). injection T as En Est.
  rewrite !process_stock_data_eq, <- En, <- Est.
  destruct (strptime (start_date e)) as [start |]; [| simpl; auto].
  cbv zeta. destruct (fetched_stock P (name e) start) as [sd | x]; simpl;
    rewrite ?Es, ?Ed, ?Er; auto.
Qed.

Lemma process_national_debt_data_same_store (P : Provider) (e e' : entry)
    (w w' : World) :
  target e = target e' -> same_store w w' ->
  same_store (fst (_process_national_debt_data e (capture_national_debt P) w))
             (fst (_process_national_debt_data e' (capture_national_debt P) w'))
  /\ snd (_process_national_debt_data e (capture_national_debt P) w)
     = snd (_process_national_debt_data e' (capture_national_debt P) w').
Proof.
  unfold target, same_store. intros T (Es & Ed & Er). injection T as En Est.
  rewrite !process_national_debt_data_eq, <- En, <- Est.
  destruct (strptime (start_date e)) as [start |]; [| simpl; auto].
  cbv zeta. destruct (fetched_debt P (name e) start) as [dd | x]; simpl;
    rewrite ?Es, ?Ed, ?Er; auto.
Qed.

Lemma refresh_stock_same_store (P : Provider) (e e' : entry) (w w' : World) :
  target e = target e' -> same_store w w' ->
  same_store (fst (refresh_stock P e w)) (fst (refresh_stock P e' w'))
  /\ snd (refresh_stock P e w) = snd (refresh_stock P e' w').
Proof.
  intros T S. rewrite !refresh_stock_eq.
  pose proof S as (Es & Ed & Er). pose proof T as T'. injection T' as En Est.
  rewrite <- En, <- Es.
  destruct (select_max_date (stocks w) (name e)) as [L |];
    [| apply process_stock_data_same_store; assumption].
  destruct (strptime L); [| simpl; auto].
  apply process_stock_data_same_store; [reflexivity |].
  unfold same_store. simpl. auto.
Qed.

Lemma refresh_debt_same_store (P : Provider) (e e' : entry) (w w' : World) :
  target e = target e' -> same_store w w' ->
  same_store (fst (refresh_debt P e w)) (fst (refresh_debt P e' w'))
  /\ snd (refresh_debt P e w) = snd (refresh_debt P e' w').
Proof.
  intros T S. rewrite !refresh_debt_eq.
  pose proof S as (Es & Ed & Er). pose proof T as T'. injection T' as En Est.
  rewrite <- En, <- Ed.
  destruct (select_max_date (national_debt w) (name e)) as [L |];
    [| apply process_national_debt_data_same_store; assumption].
  destruct (strptime L); [| simpl; auto].
  apply process_national_debt_data_same_store; [reflexivity |].
  unfold same_store. simpl. auto.
Qed.

Lemma update_missing_stock_same_store (P : Provider) (e e' : entry) (w w' : World) :
  target e = target e' -> same_store w w' ->
  same_store (fst (update_missing_stock P e w)) (fst (update_missing_stock P e' w'))
  /\ snd (update_missing_stock P e w) = snd (update_missing_stock P e' w').
Proof.
  unfold target, same_store. intros T (Es & Ed & Er). injection T as En Est.
  rewrite !update_missing_stock_eq, <- En, <- Es.
  destruct (truthy (select_max_date (stocks w) (name e))) as [L |]; [| simpl; auto].
  destruct (strptime L) as [Ld |]; [| simpl; auto].
  destruct (add_days Ld 1) as [start | x]; [| simpl; auto].
  cbv zeta. destruct (fetched_stock P (name e) start) as [sd | x]; simpl;
    rewrite ?Es, ?Ed, ?Er; auto.
Qed.

Lemma update_missing_debt_same_store (P : Provider) (e e' : entry) (w w' : World) :
  target e = target e' -> same_store w w' ->
  same_store (fst (update_missing_debt P e w)) (fst (update_missing_debt P e' w'))
  /\ snd (update_missing_debt P e w) = snd (update_missing_debt P e' w').
Proof.
  unfold target, same_store. intros T (Es & Ed & Er). injection T as En Est.
  rewrite !update_missing_debt_eq, <- En, <- Ed.
  destruct (truthy (select_max_date (national_debt w) (name e))) as [L |];
    [| simpl; auto].
  destruct (strptime L) as [Ld |]; [| simpl; auto].
  destruct (add_days Ld 1) as [start | x]; [| simpl; auto].
  cbv zeta. destruct (fetched_debt P (name e) start) as [dd | x]; simpl;
    rewrite ?Es, ?Ed, ?Er; auto.
Qed.

Lemma two_loops_same_store (body_s body_d : entry -> M unit)
    (ls ls' ld ld' : list entry) :
  (forall e e' w w', target e = target e' -> same_store w w' ->
     same_store (fst (body_s e w)) (fst (body_s e' w'))
     /\ snd (body_s e w) = snd (body_s e' w')) ->
  (forall e e' w w', target e = target e' -> same_store w w' ->
     same_store (fst (body_d e w)) (fst (body_d e' w'))
     /\ snd (body_d e w) = snd (body_d e' w')) ->
  map target ls = map target ls' -> map target ld = map target ld' ->
  forall w w', same_store w w' ->
    same_store (fst ((for_each ls body_s ;;; for_each ld body_d) w))
               (fst ((for_each ls' body_s ;;; for_each ld' body_d) w'))
    /\ snd ((for_each ls body_s ;;; for_each ld body_d) w)
       = snd ((for_each ls' body_s ;;; for_each ld' body_d) w').
Proof.
  intros HS HD Es Ed w w' S. unfold bind.
  destruct (for_each_same_store body_s ls ls' HS Es w w' S) as [S1 R1].
  destruct (for_each ls body_s w) as [w1 [[] | x]];
    destruct (for_each ls' body_s w') as [w1' [[] | x']];
    simpl in S1, R1; try discriminate R1.
  - apply for_each_same_store; assumption.
  - simpl. auto.
Qed.

(** X14: the three runs read of the configuration the names and the start
    dates of its entries and nothing else: from two states with the same
    tables, under configurations that list the same names with the same start
    dates (whatever the end dates, and whether a list without entries is
    written or left out), a run sends the same requests, leaves the same
    tables and ends the same way; this holds on the connection of the run and
    on the files once the run has returned. *)
Theorem X14_runs_read_names_and_start_dates (P : Provider) (run : M unit)
    (w w' : World) :
  In run (runs P) -> same_targets (toml_file w) (toml_file w') -> same_store w w' ->
  same_store (fst (run w)) (fst (run w')) /\ snd (run w) = snd (run w').
Proof.
  intros R [Ts Td] S.
  assert (C : forall m,
             In m [capture_data_conn P; update_data_conn P; update_missing_data_conn P] ->
             same_store (fst (m w)) (fst (m w')) /\ snd (m w) = snd (m w')).
  { intros m [<- | [<- | [<- | []]]].
    - rewrite !capture_data_loops.
      apply two_loops_same_store; try assumption.
      + intros e e' w0 w0'. rewrite !capture_stock_entry_eq.
        apply process_stock_data_same_store.
      + intros e e' w0 w0'. rewrite !capture_debt_entry_eq.
        apply process_national_debt_data_same_store.
    - rewrite !update_data_loops.
      apply two_loops_same_store; try assumption.
      + apply refresh_stock_same_store.
      + apply refresh_debt_same_store.
    - rewrite !update_missing_data_loops.
      apply two_loops_same_store; try assumption.
      + apply update_missing_stock_same_store.
      + apply update_missing_debt_same_store. }
  apply in_flat_map in R. destruct R as (m & Im & [<- | [<- | []]]).
  - apply C, Im.
  - destruct (C m Im) as ((_ & _ & Er) & E). destruct S as (Es & Ed & _).
    rewrite !with_connection_eq. unfold same_store. simpl. auto.
Qed.

Lemma X14_witness :
  In (update_data_conn sample_provider) (runs sample_provider)
  /\ same_targets (toml_file sample_world) (toml_file dated_world)
  /\ same_store sample_world dated_world
  /\ stocks (fst (update_data_conn sample_provider sample_world))
     = stocks (fst (update_data_conn sample_provider dated_world)).
Proof.
  assert (R : In (update_data_conn sample_provider) (runs sample_provider))
    by (simpl; auto).
  assert (T : same_targets (toml_file sample_world) (toml_file dated_world))
    by (split; reflexivity).
  assert (S : same_store sample_world dated_world) by (repeat split).
  split; [exact R |]. split; [exact T |]. split; [exact S |].
  exact (proj1 (proj1 (X14_runs_read_names_and_start_dates sample_provider
                         (update_data_conn sample_provider) sample_world dated_world
                         R T S))).
Defined.

(** ** The latest date of a key *)

(** X19: on a table of ISO dates the latest date that the runs read for a key
    with [SELECT MAX(date)], a maximum of texts, parses and is the latest
    calendar day stored for the key. *)
Theorem X19_latest_date_is_the_latest_day {V : Type} (t : table V) (k L : string) :
  iso_table t -> select_max_date t k = Some L ->
  exists Ld,
    strptime L = Some Ld
    /\ stored_day t k (toordinal Ld)
    /\ forall n, stored_day t k n -> n <= toordinal Ld.
Proof.
  intros Iso ML. destruct (iso_latest t k L Iso ML) as (Ld & SL & Le).
  exists Ld. split; [exact SL |]. split.
  - pose proof ML as ML'. unfold select_max_date in ML'. apply sql_max_spec in ML'.
    destruct ML' as [I _]. apply in_dates_of in I. destruct I as (r & Ir & Kr & Dr).
    exists r, Ld. rewrite Dr. auto.
  - intros n (r & D & Ir & Kr & SD & <-).
    destruct (Le r Ir Kr) as (D' & VD' & ED' & OD').
    rewrite ED', (strptime_strftime D' VD') in SD. injection SD as <-.
    rewrite midnight_toordinal. exact OD'.
Qed.

Lemma X19_witness :
  exists Ld,
    strptime "2023-01-04" = Some Ld
    /\ stored_day (stocks sample_world) "AAPL" (toordinal Ld)
    /\ forall n, stored_day (stocks sample_world) "AAPL" n -> n <= toordinal Ld.
Proof.
  apply (X19_latest_date_is_the_latest_day (stocks sample_world) "AAPL" "2023-01-04").
  - exact iso_sample_stocks.
  - vm_compute. reflexivity.
Defined.

(** Without the zero of the month the maximum of the texts is not the latest
    day: September comes out as the latest date though a day of October is
    stored. *)
Example latest_date_of_unpadded_dates :
  select_max_date unpadded_table "US" = Some "2023-9-01"
  /\ strptime "2023-9-01" = Some (mk_datetime 2023 9 1 0 0 0 0)
  /\ stored_day unpadded_table "US" (toordinal (mk_datetime 2023 10 1 0 0 0 0)).
Proof.
  split; [reflexivity |]. split; [reflexivity |].
  exists (mk_row 2 "US" "2023-10-01" one), (mk_datetime 2023 10 1 0 0 0 0).
  repeat split. right. left. reflexivity.
Qed.

(** ** The days a full capture stores *)

Lemma keeps_dates_refl (w : World) : keeps_dates w w.
Proof. split; auto. Qed.

Lemma keeps_dates_trans (w1 w2 w3 : World) :
  keeps_dates w1 w2 -> keeps_dates w2 w3 -> keeps_dates w1 w3.
Proof. intros [A B] [C D]. split; auto. Qed.

Lemma for_each_keeps_dates {A : Type} (body : A -> M unit) (l : list A) :
  (forall x w, keeps_dates w (fst (body x w))) ->
  forall w, keeps_dates w (fst (for_each l body w)).
Proof.
  intros H w.
  apply (for_each_invariant (fun w0 => keeps_dates w w0)); [| apply keeps_dates_refl].
  intros x w0 _ K. eapply keeps_dates_trans; [exact K | apply H].
Qed.

Lemma for_each_reaches_dates {A : Type} (body : A -> M unit) (l : list A) :
  (forall x w, keeps_dates w (fst (body x w))) ->
  forall e w w', In e l -> for_each l body w = (w', Ok tt) ->
    exists w1 w2, body e w1 = (w2, Ok tt) /\ keeps_dates w2 w'.
Proof.
  intros Hk e. induction l as [| x l IH]; intros w w' I E; [destruct I |].
  simpl in E. unfold bind in E.
  destruct (body x w) as [w1 [[] | err]] eqn:B; [| discriminate].
  destruct I as [-> | I].
  - exists w, w1. split; [exact B |].
    pose proof (for_each_keeps_dates body l Hk w1) as G. rewrite E in G. exact G.
  - apply (IH w1 w' I E).
Qed.

Lemma capture_stock_entry_keeps_dates (P : Provider) (e : entry) (w : World) :
  keeps_dates w (fst (capture_stock_entry P e w)).
Proof.
  unfold keeps_dates.
  destruct (capture_stock_entry_captured P e w) as (C & -> & _). split; [| auto].
  intros k s. eapply dates_kept_captured, C.
Qed.

Lemma capture_debt_entry_keeps_dates (P : Provider) (e : entry) (w : World) :
  keeps_dates w (fst (capture_debt_entry P e w)).
Proof.
  unfold keeps_dates.
  destruct (capture_debt_entry_captured P e w) as (C & -> & _). split; [auto |].
  intros k s. eapply dates_kept_captured, C.
Qed.

(** Every timestamp of the frame is a key of the dictionary built from it. *)
Lemma dict_of_rows_covers {R B : Type} (f : R -> B) (hist : list (datetime * R))
    (acc : list (datetime * B)) (dt : datetime) :
  In dt (map fst acc) \/ In dt (map fst hist) ->
  In dt (map fst
           (fold_left (fun d '(dt, row) => dict_set datetime_eqb dt (f row) d) hist acc)).
Proof.
  assert (S : forall k v (d : list (datetime * B)) x,
             In x (map fst (dict_set datetime_eqb k v d))
             <-> x = k \/ In x (map fst d)).
  { intros k v d x. induction d as [| [k' v'] d IHd]; simpl; [intuition congruence |].
    destruct (datetime_eqb k k') eqn:E; simpl.
    - apply datetime_eqb_eq in E. subst. intuition congruence.
    - rewrite IHd. intuition congruence. }
  revert acc. induction hist as [| [dt' row'] hist IH]; simpl; intros acc H.
  - destruct H as [H | []]. exact H.
  - apply IH. rewrite S. destruct H as [H | [H | H]]; auto.
Qed.

Lemma fetched_stock_covers (P : Provider) (k : string) (start : datetime)
    (hist : list (datetime * HistRow)) (sd : Stock) (dt : datetime) (row : HistRow) :
  history P k (strftime start) (strftime (now P)) = Ok hist ->
  fetched_stock P k start = Ok sd -> In (dt, row) hist ->
  Stock_name sd = k /\ exists price, In (dt, price) (Stock_data sd).
Proof.
  intros H F I. apply fetched_stock_inv in F.
  destruct F as (hist' & v & pe_ratio & H' & _ & _ & En & D & _).
  rewrite H in H'. injection H' as <-. split; [exact En |]. rewrite D.
  pose proof (dict_of_rows_covers (price_or_nan pe_ratio) hist [] dt) as K.
  apply in_map_iff in K.
  - destruct K as ([d p] & E & Ip). simpl in E. subst d. eauto.
  - right. apply in_map_iff. exists (dt, row). auto.
Qed.

Lemma fetched_debt_covers (P : Provider) (k : string) (start : datetime)
    (hist : list (datetime * HistRow)) (dd : NationDebt) (dt : datetime)
    (row : HistRow) :
  history P (proxy_symbol k) (strftime start) (strftime (now P)) = Ok hist ->
  fetched_debt P k start = Ok dd -> In (dt, row) hist ->
  exists y, In (dt, y) (NationDebt_data dd).
Proof.
  intros H F I. revert F.
  unfold fetched_debt, capture_national_debt, ticker_history, bind, modify,
    lift_result, ret.
  rewrite H. simpl. intros E. injection E as <-. simpl.
  pose proof (dict_of_rows_covers (fun row => float_of_cell (Close row)) hist [] dt)
    as K.
  apply in_map_iff in K.
  - destruct K as ([d y] & E & Iy). simpl in E. subst d. eauto.
  - right. apply in_map_iff. exists (dt, row). auto.
Qed.

Lemma answered_captured {V A : Type} (P : Provider) (symbol : string -> string)
    (f : A -> V) (fetch : datetime -> option (list (datetime * A)))
    (l : list entry) (e : entry) (t0 t t' : table V) :
  In e l ->
  (forall start items,
      fetch start = Some items ->
      exists hist,
        history P (symbol (name e)) (strftime start) (strftime (now P)) = Ok hist
        /\ forall dt a, In (dt, a) items -> exists row, In (dt, row) hist) ->
  captured f fetch (name e) (start_date e) t t' ->
  (forall k s, In s (dates_of t k) -> In s (dates_of t0 k) \/ answered P symbol l k s) ->
  forall k s, In s (dates_of t' k) -> In s (dates_of t0 k) \/ answered P symbol l k s.
Proof.
  intros Ie Hf [-> | (start & items & S & F & ->)] IH k s I; [apply IH, I |].
  destruct (String.eqb_spec k (name e)) as [-> | Ne].
  - apply in_dates_of_upsert_all in I.
    destruct I as [(dt & a & Ia & ->) | I]; [| apply IH, I].
    right. destruct (Hf start items F) as (hist & Hh & Hi).
    destruct (Hi dt a Ia) as [row Ir].
    exists e, start, hist, dt, row. auto 7.
  - apply IH. unfold dates_of in *.
    rewrite rows_of_key_upsert_all_other in I by exact Ne. exact I.
Qed.

Lemma stock_items_history (P : Provider) (k : string) (start : datetime)
    (items : list (datetime * Price)) :
  stock_items P k start = Some items ->
  exists hist,
    history P k (strftime start) (strftime (now P)) = Ok hist
    /\ forall dt a, In (dt, a) items -> exists row, In (dt, row) hist.
Proof.
  unfold stock_items. destruct (fetched_stock P k start) as [sd | x] eqn:F;
    [| discriminate].
  intros E. injection E as <-. apply fetched_stock_spec in F.
  destruct F as (_ & hist & Hh & Hi). exists hist. split; [exact Hh |].
  intros dt a I. apply (Hi dt a), in_written, I.
Qed.

Lemma debt_items_history (P : Provider) (k : string) (start : datetime)
    (items : list (datetime * float)) :
  debt_items P k start = Some items ->
  exists hist,
    history P (proxy_symbol k) (strftime start) (strftime (now P)) = Ok hist
    /\ forall dt a, In (dt, a) items -> exists row, In (dt, row) hist.
Proof.
  unfold debt_items. destruct (fetched_debt P k start) as [dd | x] eqn:F;
    [| discriminate].
  intros E. injection E as <-. apply fetched_debt_spec in F. exact F.
Qed.

Lemma capture_stock_entry_stores (P : Provider) (e : entry) (w w2 : World)
    (start : datetime) (hist : list (datetime * HistRow)) (dt : datetime)
    (row : HistRow) :
  capture_stock_entry P e w = (w2, Ok tt) ->
  strptime (start_date e) = Some start ->
  history P (name e) (strftime start) (strftime (now P)) = Ok hist ->
  In (dt, row) hist ->
  In (strftime dt) (dates_of (stocks w2) (name e)).
Proof.
  rewrite capture_stock_entry_eq, process_stock_data_eq. intros B S H I.
  rewrite S in B. cbv zeta in B.
  destruct (fetched_stock P (name e) start) as [sd | x] eqn:F; [| discriminate].
  injection B as <- AB. simpl. rewrite (written_all _ AB).
  destruct (fetched_stock_covers P _ _ _ _ dt row H F I) as (-> & price & Ip).
  apply in_dates_of_upsert_all. left. eauto.
Qed.

Lemma capture_debt_entry_stores (P : Provider) (e : entry) (w w2 : World)
    (start : datetime) (hist : list (datetime * HistRow)) (dt : datetime)
    (row : HistRow) :
  capture_debt_entry P e w = (w2, Ok tt) ->
  strptime (start_date e) = Some start ->
  history P (proxy_symbol (name e)) (strftime start) (strftime (now P)) = Ok hist ->
  In (dt, row) hist ->
  In (strftime dt) (dates_of (national_debt w2) (name e)).
Proof.
  rewrite capture_debt_entry_eq, process_national_debt_data_eq. intros B S H I.
  rewrite S in B. cbv zeta in B.
  destruct (fetched_debt P (name e) start) as [dd | x] eqn:F; [| discriminate].
  injection B as <-. simpl.
  destruct (fetched_debt_covers P _ _ _ _ dt row H F I) as (y & Iy).
  apply in_dates_of_upsert_all. left. eauto.
Qed.

(** X20: the days that the connection of a full capture holds when
    [process_toml_config] has run on it are the days stored before and the
    days of the bars the provider answered with: a run that ends normally
    has written, under the key of each tracked entry, the day of every bar
    answered for that entry, and no run writes under a key a day that was
    neither stored before nor the day of a bar answered for an entry of that
    key.  [capture_data] closes the connection without a commit: the file
    holds after it the rows it held before. *)
Theorem X20_capture_stores_the_days_answered (P : Provider) (w : World) :
  let w' := fst (capture_data_conn P w) in
  let ls := tracked (cfg_stocks (toml_file w)) in
  let ld := tracked (cfg_national_debt (toml_file w)) in
  (snd (capture_data_conn P w) = Ok tt ->
   (forall k s, answered P (fun k => k) ls k s -> In s (dates_of (stocks w') k))
   /\ (forall k s, answered P proxy_symbol ld k s ->
                   In s (dates_of (national_debt w') k)))
  /\ (forall k s, In s (dates_of (stocks w') k) ->
                  In s (dates_of (stocks w) k) \/ answered P (fun k => k) ls k s)
  /\ (forall k s, In s (dates_of (national_debt w') k) ->
                  In s (dates_of (national_debt w) k) \/ answered P proxy_symbol ld k s)
  /\ (stocks (fst (capture_data P w)) = stocks w
      /\ national_debt (fst (capture_data P w)) = national_debt w).
Proof.
  cbv zeta.
  assert (File : stocks (fst (capture_data P w)) = stocks w
                 /\ national_debt (fst (capture_data P w)) = national_debt w)
    by (unfold capture_data; apply with_connection_tables).
  cut ((snd (capture_data_conn P w) = Ok tt ->
        (forall k s, answered P (fun k => k) (tracked (cfg_stocks (toml_file w))) k s ->
                     In s (dates_of (stocks (fst (capture_data_conn P w))) k))
        /\ (forall k s,
               answered P proxy_symbol (tracked (cfg_national_debt (toml_file w))) k s ->
               In s (dates_of (national_debt (fst (capture_data_conn P w))) k)))
       /\ (forall k s, In s (dates_of (stocks (fst (capture_data_conn P w))) k) ->
                       In s (dates_of (stocks w) k)
                       \/ answered P (fun k => k)
                            (tracked (cfg_stocks (toml_file w))) k s)
       /\ (forall k s, In s (dates_of (national_debt (fst (capture_data_conn P w))) k) ->
                       In s (dates_of (national_debt w) k)
                       \/ answered P proxy_symbol
                            (tracked (cfg_national_debt (toml_file w))) k s));
    [tauto |].
  clear File. split.
  - rewrite capture_data_loops. unfold bind.
    destruct (for_each (tracked (cfg_stocks (toml_file w))) (capture_stock_entry P) w)
      as [w1 [[] | x]] eqn:LS; [| intros R; discriminate R].
    pose proof (for_each_keeps_dates _ (tracked (cfg_national_debt (toml_file w)))
                  (capture_debt_entry_keeps_dates P) w1) as KD.
    destruct (for_each (tracked (cfg_national_debt (toml_file w)))
                (capture_debt_entry P) w1) as [w2 [[] | x]] eqn:LD;
      [| intros R; discriminate R].
    intros _. simpl in KD. simpl fst. split.
    + intros k s (e & start & hist & dt & row & Ie & <- & S & H & I & ->).
      destruct (for_each_reaches_dates _ _ (capture_stock_entry_keeps_dates P)
                  e w w1 Ie LS) as (wa & wb & B & K).
      apply (proj1 KD), (proj1 K).
      eapply capture_stock_entry_stores; eassumption.
    + intros k s (e & start & hist & dt & row & Ie & <- & S & H & I & ->).
      destruct (for_each_reaches_dates _ _ (capture_debt_entry_keeps_dates P)
                  e w1 w2 Ie LD) as (wa & wb & B & K).
      apply (proj2 K).
      eapply capture_debt_entry_stores; eassumption.
  - destruct (capture_data_invariant P w
                (fun t => forall k s, In s (dates_of t k) ->
                   In s (dates_of (stocks w) k)
                   \/ answered P (fun k => k) (tracked (cfg_stocks (toml_file w))) k s)
                (fun t => forall k s, In s (dates_of t k) ->
                   In s (dates_of (national_debt w) k)
                   \/ answered P proxy_symbol
                        (tracked (cfg_national_debt (toml_file w))) k s))
      as (A & B & _); auto.
    + intros e t t' Ie C IH.
      eapply (answered_captured P (fun k => k)); try eassumption.
      intros start items. apply stock_items_history.
    + intros e t t' Ie C IH.
      eapply (answered_captured P proxy_symbol); try eassumption.
      intros start items. apply debt_items_history.
Qed.

Example capture_stores_the_sample_days :
  dates_of (stocks (fst (capture_data_conn sample_provider empty_key_world))) "MSFT"
  = ["2023-01-03"; "2023-01-04"; "2023-01-05"].
Proof. vm_compute. reflexivity. Qed.

(** ** The rows an incremental append adds *)

Lemma new_rows_appended {V A : Type} (f : A -> V)
    (fetch : datetime -> option (list (datetime * A)))
    (t0 : table V) (k : string) (t t' : table V) :
  (forall start items,
      valid_ymd (year start) (month start) (day start) = true ->
      fetch start = Some items -> dated_from (toordinal start) items) ->
  appended f fetch k t t' ->
  iso_table t
  /\ (forall k s, In s (dates_of t0 k) -> In s (dates_of t k))
  /\ (forall r, In r (rows t) -> In r (rows t0) \/ after_latest t0 r) ->
  iso_table t'
  /\ (forall k s, In s (dates_of t0 k) -> In s (dates_of t' k))
  /\ (forall r, In r (rows t') -> In r (rows t0) \/ after_latest t0 r).
Proof.
  intros HF Ap (Iso & Kd & Nw).
  split; [eapply iso_appended; eassumption |].
  split; [intros k' s I; eapply dates_kept_appended; [exact Ap | apply Kd, I] |].
  destruct Ap as [-> | (L & Ld & start & items & ML & SL & AD & F & ->)];
    [exact Nw |].
  intros r I. apply in_upsert_all in I.
  destruct I as [I | (Kr & dt & a & Ia & Er)]; [apply Nw, I |].
  right.
  pose proof ML as ML'. unfold select_max_date in ML'. apply sql_max_spec in ML'.
  destruct ML' as [IL UL].
  assert (E0 : exists L0, select_max_date t0 k = Some L0).
  { apply in_dates_of in IL. destruct IL as (r0 & I0 & K0 & D0).
    destruct (Nw r0 I0) as [I00 | (L0 & _ & _ & M0 & _)].
    - destruct (select_max_date t0 k) as [L0 |] eqn:M; [eauto |].
      unfold select_max_date in M. apply sql_max_None in M.
      assert (X : In (date r0) (dates_of t0 k)) by (apply in_dates_of; eauto).
      rewrite M in X. destruct X.
    - rewrite K0 in M0. eauto. }
  destruct E0 as [L0 M0].
  pose proof M0 as M0'. unfold select_max_date in M0'. apply sql_max_spec in M0'.
  destruct M0' as [I0 _].
  apply Kd in I0. apply in_dates_of in I0. destruct I0 as (r1 & I1 & K1 & D1).
  destruct (iso_latest t k L Iso ML) as (Ld' & SL' & Le).
  rewrite SL in SL'. injection SL' as <-.
  destruct (Le r1 I1 K1) as (D0 & VD0 & ED0 & OD0).
  apply add_days_spec in AD. destruct AD as (Vs & Os & _).
  destruct (HF start items Vs F dt a Ia) as [Vdt Odt].
  exists L0, (mk_datetime (year D0) (month D0) (day D0) 0 0 0 0),
         (mk_datetime (year dt) (month dt) (day dt) 0 0 0 0).
  rewrite Kr. split; [exact M0 |].
  split; [rewrite <- D1, ED0; apply strptime_strftime, VD0 |].
  split; [rewrite Er; apply strptime_strftime, Vdt |].
  rewrite !midnight_toordinal. lia.
Qed.

(** X21: on a store whose dates are ISO dates, and with a provider that
    returns bars dated from the requested start, every row that an incremental
    append adds is dated after the latest date that was stored for its key:
    the run fills nothing in before that date, and adds no row for a key that
    had none; this holds on the connection of the run and, no row being
    added there, on the files once the run has returned. *)
Theorem X21_incremental_append_adds_later_rows_only (P : Provider) (w : World)
    (run : M unit) :
  In run (views (update_missing_data_conn P)) ->
  honours_start P -> iso_table (stocks w) -> iso_table (national_debt w) ->
  let w' := fst (run w) in
  (forall r, In r (rows (stocks w')) ->
             In r (rows (stocks w)) \/ after_latest (stocks w) r)
  /\ (forall r, In r (rows (national_debt w')) ->
                In r (rows (national_debt w)) \/ after_latest (national_debt w) r).
Proof.
  intros [<- | [<- | []]] H IsoS IsoD; cbv zeta;
    [| destruct (with_connection_tables (update_missing_data_conn P) w) as [-> ->];
       auto].
  destruct (update_missing_data_invariant P w
              (fun t => iso_table t
                        /\ (forall k s, In s (dates_of (stocks w) k) ->
                                        In s (dates_of t k))
                        /\ (forall r, In r (rows t) ->
                                      In r (rows (stocks w))
                                      \/ after_latest (stocks w) r))
              (fun t => iso_table t
                        /\ (forall k s, In s (dates_of (national_debt w) k) ->
                                        In s (dates_of t k))
                        /\ (forall r, In r (rows t) ->
                                      In r (rows (national_debt w))
                                      \/ after_latest (national_debt w) r)))
    as ((_ & _ & A) & (_ & _ & B) & _); auto.
  - intros e t t' _ C. eapply new_rows_appended; eauto using stock_fetch_dated.
  - intros e t t' _ C. eapply new_rows_appended; eauto using debt_fetch_dated.
Qed.

Lemma X21_witness :
  honours_start sample_provider
  /\ iso_table (stocks sample_world) /\ iso_table (national_debt sample_world)
  /\ forall r,
       In r (rows (stocks (fst (update_missing_data_conn sample_provider sample_world)))) ->
       In r (rows (stocks sample_world)) \/ after_latest (stocks sample_world) r.
Proof.
  split; [exact honours_start_sample |].
  split; [exact iso_sample_stocks |]. split; [exact iso_sample_debt |].
  exact (proj1 (X21_incremental_append_adds_later_rows_only sample_provider
                  sample_world (update_missing_data_conn sample_provider)
                  (or_introl eq_refl) honours_start_sample iso_sample_stocks
                  iso_sample_debt)).
Defined.

(** ** Further statements at the sample data *)

Lemma X9_witness :
  iso_table (stocks sample_world)
  /\ exists ranges,
       _get_missing_date_ranges_stock "AAPL" sample_world = (sample_world, Ok ranges)
       /\ forall n, reported ranges n <-> missing_day (stocks sample_world) "AAPL" n.
Proof.
  split; [exact iso_sample_stocks |].
  exact (proj1 (X9_gap_detection_reports_the_missing_days sample_world "AAPL")
               iso_sample_stocks).
Defined.

Lemma X12_witness :
  snd (add_command sample_provider "msft" "2023-01-02" sample_world) = Ok tt
  /\ exists e start,
       find_stock "msft"
         (tracked (cfg_stocks (toml_file (fst (add_command sample_provider "msft"
                                                 "2023-01-02" sample_world)))))
       = Some e
       /\ strptime "2023-01-02" = Some start
       /\ requested sample_world
                    (fst (add_command sample_provider "msft" "2023-01-02" sample_world))
                    (name e, strftime start, strftime (now sample_provider)).
Proof.
  assert (E : snd (add_command sample_provider "msft" "2023-01-02" sample_world)
              = Ok tt) by (vm_compute; reflexivity).
  split; [exact E |].
  exact (proj2 (proj2 (X12_how_add_ends sample_provider "msft" "2023-01-02"
                         sample_world)) E).
Defined.

Lemma X20_witness :
  snd (capture_data_conn sample_provider empty_key_world) = Ok tt
  /\ In "2023-01-05"
        (dates_of (stocks (fst (capture_data_conn sample_provider empty_key_world))) "MSFT").
Proof.
  assert (E : snd (capture_data_conn sample_provider empty_key_world) = Ok tt)
    by (vm_compute; reflexivity).
  split; [exact E |].
  destruct (X20_capture_stores_the_days_answered sample_provider empty_key_world)
    as (C & _).
  destruct (C E) as (CS & _). apply CS.
  exists (mk_entry "MSFT" "2023-01-01" None), (mk_datetime 2023 1 1 0 0 0 0),
         sample_bars, (mk_datetime 2023 1 5 0 0 0 0), (snd (bar 2023 1 5)).
  split; [left; reflexivity |]. split; [reflexivity |]. split; [reflexivity |].
  split; [vm_compute; reflexivity |].
  split; [right; right; left; reflexivity | reflexivity].
Defined.
